(** * cc-cli: the configuration manager and the notification-hook manager

    A shallow embedding of [ConfigManager] (core/ConfigManager.js), of
    [NotificationManager] (src/utils/notification-manager.js), of the status
    lines of the banner (src/utils/ui.js) and of the hook that approves the
    tools (src/commands/claude/yolo.js), and the properties of the
    configuration switch, the deep merge, the normalisation, the validation,
    the snapshots, the notification toggle and the hook.

    Modelling conventions.
    - A parsed JSON document is a tree ([JS.value]); a JavaScript value that
      may also be [undefined] is an [option] of it ([JS.jsval]).  An object is
      the ordered list of its own enumerable properties; only the own
      properties of objects are modelled, not the prototype chain.
    - JSON numbers are restricted to integers.
    - Strings are sequences of code units; the non-ASCII literals of the
      source are written in UTF-8.
    - Exceptions are values of [JS.error] carrying the message the program
      inspects; code that can throw returns a [JS.result].
    - The three documents on disk are held in [Fs.fsys]; objects owned by
      the caller of [switchConfig] live in a heap, so that in-place mutation
      through shared references is visible. *)

From Stdlib Require Import ZArith DecimalString.
From stdpp Require Import base strings list option gmap.

#[local] Open Scope string_scope.
#[local] Open Scope list_scope.

(** ** JavaScript values *)

Module JS.

#[warnings="-register-all"]
Inductive value : Type :=
| VNull
| VBool (b : bool)
| VNum (n : Z)
| VStr (s : string)
| VArr (items : list value)
| VObj (props : list (string * value)).

(** A value or [undefined]. *)
Definition jsval : Type := option value.

Inductive error : Type :=
| TypeError (msg : string)
| SyntaxError (msg : string)
| SystemError (msg : string)
| RangeError (msg : string)
| Error (msg : string).

Definition message (e : error) : string :=
  match e with
  | TypeError m | SyntaxError m | SystemError m | RangeError m | Error m => m
  end.

Inductive result (A : Type) : Type :=
| Ok (a : A)
| Err (e : error).
Arguments Ok {A} a.
Arguments Err {A} e.

#[global] Instance result_ret : MRet result := fun A a => Ok a.
#[global] Instance result_bind : MBind result := fun A B f m =>
  match m with
  | Ok a => f a
  | Err e => Err e
  end.

(** [Boolean(v)]. *)
Definition truthy (v : jsval) : bool :=
  match v with
  | None | Some VNull => false
  | Some (VBool b) => b
  | Some (VNum n) => negb (n =? 0)%Z
  | Some (VStr s) => negb (bool_decide (s = EmptyString))
  | Some (VArr _) | Some (VObj _) => true
  end.

(** The value of [v] when [v] is truthy. *)
Definition when_truthy (v : jsval) : option value :=
  if truthy v then v else None.

(** [v === undefined || v === null]. *)
Definition nullish (v : jsval) : bool :=
  match v with
  | None | Some VNull => true
  | _ => false
  end.

(** [typeof v === "object"], which holds of [null] and of arrays too. *)
Definition typeof_object (v : jsval) : bool :=
  match v with
  | Some VNull | Some (VArr _) | Some (VObj _) => true
  | _ => false
  end.

Definition typeof_string (v : jsval) : bool :=
  match v with
  | Some (VStr _) => true
  | _ => false
  end.

(** [haystack.includes(needle)]. *)
Fixpoint includes (needle haystack : string) : bool :=
  String.prefix needle haystack ||
  match haystack with
  | EmptyString => false
  | String _ rest => includes needle rest
  end.

(** The white space that [String.prototype.trim] strips: the ASCII blanks
    and line terminators, and the UTF-8 encodings of U+00A0, U+1680,
    U+2000..U+200A, U+2028, U+2029, U+202F, U+205F, U+3000 and U+FEFF. *)
Definition ascii_space (c : Ascii.ascii) : bool :=
  let n := Ascii.nat_of_ascii c in
  ((9 <=? n) && (n <=? 13) || (n =? 32))%nat.

(** [s.trim()] is the empty string. *)
Fixpoint blank (s : string) : bool :=
  match s with
  | EmptyString => true
  | String c rest =>
    if ascii_space c then blank rest
    else
      match rest with
      | String c1 rest1 =>
        let n := Ascii.nat_of_ascii c in
        let n1 := Ascii.nat_of_ascii c1 in
        if ((n =? 194) && (n1 =? 160))%nat then blank rest1
        else
          match rest1 with
          | String c2 rest2 =>
            let n2 := Ascii.nat_of_ascii c2 in
            if ((n =? 225) && (n1 =? 154) && (n2 =? 128)
               || (n =? 226) && (n1 =? 128)
                  && ((128 <=? n2) && (n2 <=? 138) || (n2 =? 168)
                      || (n2 =? 169) || (n2 =? 175))
               || (n =? 226) && (n1 =? 129) && (n2 =? 159)
               || (n =? 227) && (n1 =? 128) && (n2 =? 128)
               || (n =? 239) && (n1 =? 187) && (n2 =? 191))%nat
            then blank rest2
            else false
          | EmptyString => false
          end
      | EmptyString => false
      end
  end.

(** *** Property keys *)

(** The decimal name of the array index [i]. *)
Definition index_key (i : nat) : string :=
  NilZero.string_of_uint (Nat.to_uint i).

(** A key is an array index when it is the canonical decimal form of an
    integer below 2^32 - 1; such keys are enumerated first, in ascending
    order. *)
Definition array_index (k : string) : option N :=
  match NilZero.uint_of_string k with
  | Some u =>
    let n := N.of_uint u in
    if bool_decide (NilZero.string_of_uint (N.to_uint n) = k)
       && (n <? 4294967295)%N
    then Some n else None
  | None => None
  end.


Definition props : Type := list (string * value).

(** [o[k]] on the own properties. *)
Fixpoint lookup_prop {A : Type} (k : string) (o : list (string * A)) : option A :=
  match o with
  | [] => None
  | (k', v) :: rest => if decide (k = k') then Some v else lookup_prop k rest
  end.

Definition has_prop {A : Type} (k : string) (o : list (string * A)) : bool :=
  match lookup_prop k o with
  | Some _ => true
  | None => false
  end.

Fixpoint replace_prop {A : Type} (k : string) (v : A) (o : list (string * A))
  : list (string * A) :=
  match o with
  | [] => []
  | (k', v') :: rest =>
    if decide (k = k') then (k, v) :: rest
    else (k', v') :: replace_prop k v rest
  end.

Fixpoint insert_index {A : Type} (n : N) (k : string) (v : A)
    (o : list (string * A)) : list (string * A) :=
  match o with
  | [] => [(k, v)]
  | (k', v') :: rest =>
    match array_index k' with
    | Some m =>
      if (m <? n)%N then (k', v') :: insert_index n k v rest
      else (k, v) :: (k', v') :: rest
    | None => (k, v) :: (k', v') :: rest
    end
  end.

(** [o[k] = v]: an existing property keeps its place, a new index key goes
    to its place among the index keys, any other new key goes last. *)
Definition obj_set {A : Type} (o : list (string * A)) (k : string) (v : A)
  : list (string * A) :=
  if has_prop k o then replace_prop k v o
  else
    match array_index k with
    | Some n => insert_index n k v o
    | None => o ++ [(k, v)]
    end.

(** [delete o[k]]. *)
Definition obj_del {A : Type} (o : list (string * A)) (k : string)
  : list (string * A) :=
  filter (fun kv => kv.1 <> k) o.

Definition indexed (l : list value) : props :=
  imap (fun i v => (index_key i, v)) l.

Definition chars (s : string) : list value :=
  (fun c => VStr (String c EmptyString)) <$> String.list_ascii_of_string s.

(** The own enumerable properties, as [{...v}], [for (k in v)] and
    [Object.keys(v)] enumerate them. *)
Definition own_entries (v : jsval) : props :=
  match v with
  | Some (VObj o) => o
  | Some (VArr l) => indexed l
  | Some (VStr s) => indexed (chars s)
  | _ => []
  end.

Definition cannot_read (what k : string) : error :=
  TypeError ("Cannot read properties of " +:+ what +:+ " (reading '" +:+ k +:+ "')").

Definition cannot_create (k : string) : error :=
  TypeError ("Cannot create property '" +:+ k +:+ "' on a primitive value").

(** [v.k] for the keys the program reads.  On a string only [length] and the
    indices are own properties, and the program reads neither from a value
    that may be a string. *)
Definition get (v : jsval) (k : string) : result jsval :=
  match v with
  | None => Err (cannot_read "undefined" k)
  | Some VNull => Err (cannot_read "null" k)
  | Some (VObj o) => Ok (lookup_prop k o)
  | Some (VArr l) =>
    if decide (k = "length") then Ok (Some (VNum (Z.of_nat (length l))))
    else
      match array_index k with
      | Some n => Ok (l !! N.to_nat n)
      | None => Ok None
      end
  | Some _ => Ok None
  end.

(** [v?.k]. *)
Definition get_opt (v : jsval) (k : string) : result jsval :=
  if nullish v then Ok None else get v k.

(** [v.k = x] in strict mode (ES modules), for a key that is not an array
    index.  On an array it creates a named property, which
    [JSON.stringify] leaves out and which the program never reads back from
    the array: the serialised array is unchanged. *)
Definition set (v : jsval) (k : string) (x : value) : result value :=
  match v with
  | None => Err (TypeError ("Cannot set properties of undefined (setting '" +:+ k +:+ "')"))
  | Some VNull => Err (TypeError ("Cannot set properties of null (setting '" +:+ k +:+ "')"))
  | Some (VObj o) => Ok (VObj (obj_set o k x))
  | Some (VArr l) => Ok (VArr l)
  | Some _ => Err (cannot_create k)
  end.

(** [delete v.k], for a key that is not an array index. *)
Definition del (v : jsval) (k : string) : result value :=
  match v with
  | None => Err (TypeError "Cannot convert undefined or null to object")
  | Some VNull => Err (TypeError "Cannot convert undefined or null to object")
  | Some (VObj o) => Ok (VObj (obj_del o k))
  | Some w => Ok w
  end.

(** The object held by the property [k] of [v] was updated in place, and is
    now [x]. *)
Definition updated (v : value) (k : string) (x : value) : value :=
  match v with
  | VObj o => VObj (replace_prop k x o)
  | _ => v
  end.

(** Structural equality of trees.  [JSON.stringify] is injective on parsed
    documents, so [JSON.stringify(a) === JSON.stringify(b)] is this test. *)
Fixpoint value_eqb (a b : value) : bool :=
  match a, b with
  | VNull, VNull => true
  | VBool x, VBool y => bool_decide (x = y)
  | VNum x, VNum y => (x =? y)%Z
  | VStr x, VStr y => bool_decide (x = y)
  | VArr xs, VArr ys =>
    (fix go (xs ys : list value) : bool :=
       match xs, ys with
       | [], [] => true
       | x :: xs', y :: ys' => value_eqb x y && go xs' ys'
       | _, _ => false
       end) xs ys
  | VObj xs, VObj ys =>
    (fix go (xs ys : props) : bool :=
       match xs, ys with
       | [], [] => true
       | (k, x) :: xs', (k', y) :: ys' =>
         bool_decide (k = k') && value_eqb x y && go xs' ys'
       | _, _ => false
       end) xs ys
  | _, _ => false
  end.

(** The interface of property reads, shared by parsed documents and by
    objects that live in a heap. *)
Class Reader (V : Type) : Type := {
  read : V -> string -> result V;
  is_truthy : V -> bool
}.

#[global] Instance tree_reader : Reader jsval := {|
  read := get;
  is_truthy := truthy
|}.

(** *** Objects owned by the caller

    A caller's objects have identity: two properties may hold the same
    object, and a write through one is seen through the other.  They live in
    a heap; an array is an object whose fields are its indices. *)

Definition loc : Type := positive.

Inductive hval : Type :=
| HNull
| HBool (b : bool)
| HNum (n : Z)
| HStr (s : string)
| HRef (l : loc).

Definition hjsval : Type := option hval.

Record hobj : Type := HObj {
  is_array : bool;
  fields : list (string * hval)
}.

Definition heap : Type := gmap loc hobj.

Definition h_truthy (v : hjsval) : bool :=
  match v with
  | None | Some HNull => false
  | Some (HBool b) => b
  | Some (HNum n) => negb (n =? 0)%Z
  | Some (HStr s) => negb (bool_decide (s = EmptyString))
  | Some (HRef _) => true
  end.

(** [v.k] in the heap [h]. *)
Definition h_get (h : heap) (v : hjsval) (k : string) : result hjsval :=
  match v with
  | None => Err (cannot_read "undefined" k)
  | Some HNull => Err (cannot_read "null" k)
  | Some (HRef l) =>
    match h !! l with
    | Some o =>
      if is_array o && bool_decide (k = "length")
      then Ok (Some (HNum (Z.of_nat (length (fields o)))))
      else Ok (lookup_prop k (fields o))
    | None => Ok None
    end
  | Some _ => Ok None
  end.

(** [v.k = x] in the heap [h]: the object [v] refers to is updated in
    place. *)
Definition h_set (h : heap) (v : hjsval) (k : string) (x : hval) : result heap :=
  match v with
  | None => Err (TypeError ("Cannot set properties of undefined (setting '" +:+ k +:+ "')"))
  | Some HNull => Err (TypeError ("Cannot set properties of null (setting '" +:+ k +:+ "')"))
  | Some (HRef l) =>
    match h !! l with
    | Some o => Ok (<[l := HObj (is_array o) (obj_set (fields o) k x)]> h)
    | None => Ok h
    end
  | Some _ => Err (cannot_create k)
  end.

#[global] Instance heap_reader (h : heap) : Reader hjsval := {|
  read := h_get h;
  is_truthy := h_truthy
|}.

(** The tree reachable from [v], as [JSON.stringify] and a recursive copy
    see it.  An object nested deeper than the number of objects in the heap
    lies on a cycle, so [size h] levels are enough for every tree; a cyclic
    value has none. *)
Definition reify_field (reify : hval -> option value) (kv : string * hval)
  : option (string * value) :=
  match reify kv.2 with
  | Some x => Some (kv.1, x)
  | None => None
  end.

Fixpoint reify_upto (fuel : nat) (h : heap) (v : hval) : option value :=
  match v with
  | HNull => Some VNull
  | HBool b => Some (VBool b)
  | HNum n => Some (VNum n)
  | HStr s => Some (VStr s)
  | HRef l =>
    match fuel with
    | O => None
    | S fuel' =>
      match h !! l with
      | Some o =>
        match mapM (reify_field (reify_upto fuel' h)) (fields o) with
        | Some items => Some (if is_array o then VArr items.*2 else VObj items)
        | None => None
        end
      | None => None
      end
    end
  end.

Definition reify (h : heap) (v : hval) : option value :=
  reify_upto (size h) h v.

End JS.

(** ** The documents on disk *)

Module Fs.
Import JS.

(** What a path holds: nothing, a file that cannot be read, a file whose text
    [JSON.parse] rejects (with the message of its [SyntaxError]), or the text
    of a JSON document. *)
Inductive file : Type :=
| Absent
| Unreadable (msg : string)
| Malformed (msg : string)
| Content (v : value).

Inductive path : Type :=
| StorePath          (* this.configPath: api_configs.json *)
| SettingsPath       (* ~/.claude/settings.json *)
| ClaudeConfigPath.  (* ~/.claude/config.json *)

(** [dir_error] is the message [fs.ensureDir] fails with, [write_error] the
    one [fs.writeFile] fails with, when they fail. *)
Record fsys : Type := Fsys {
  dir_error : option string;
  write_error : option string;
  store : file;
  settings : file;
  claude_json : file
}.

Record world : Type := World {
  disk : fsys;
  mem : heap;
  clock : string   (* new Date().toISOString() *)
}.

(** Computations that read and write the world and may throw; what was
    written before an exception stays written. *)
Definition io (A : Type) : Type := world -> result A * world.

#[global] Instance io_ret : MRet io := fun A a w => (Ok a, w).
#[global] Instance io_bind : MBind io := fun A B f m w =>
  match m w with
  | (Ok a, w') => f a w'
  | (Err e, w') => (Err e, w')
  end.

Definition throw {A : Type} (e : error) : io A := fun w => (Err e, w).

Definition lift {A : Type} (r : result A) : io A := fun w => (r, w).

Definition try_catch {A : Type} (body : io A) (handler : error -> io A) : io A :=
  fun w =>
    match body w with
    | (Ok a, w') => (Ok a, w')
    | (Err e, w') => handler e w'
    end.

Definition file_at (p : path) (d : fsys) : file :=
  match p with
  | StorePath => store d
  | SettingsPath => settings d
  | ClaudeConfigPath => claude_json d
  end.

Definition put_file (p : path) (f : file) (d : fsys) : fsys :=
  match p with
  | StorePath => Fsys (dir_error d) (write_error d) f (settings d) (claude_json d)
  | SettingsPath => Fsys (dir_error d) (write_error d) (store d) f (claude_json d)
  | ClaudeConfigPath => Fsys (dir_error d) (write_error d) (store d) (settings d) f
  end.

(** [fs.ensureDir(dir)]. *)
Definition ensureDir : io unit := fun w =>
  match dir_error (disk w) with
  | Some msg => (Err (SystemError msg), w)
  | None => (Ok tt, w)
  end.

(** [fs.pathExists(p)]. *)
Definition pathExists (p : path) : io bool := fun w =>
  match file_at p (disk w) with
  | Absent => (Ok false, w)
  | _ => (Ok true, w)
  end.

(** [JSON.parse(await fs.readFile(p, "utf8"))]. *)
Definition readJson (p : path) : io value := fun w =>
  match file_at p (disk w) with
  | Absent => (Err (SystemError "ENOENT: no such file or directory"), w)
  | Unreadable msg => (Err (SystemError msg), w)
  | Malformed msg => (Err (SyntaxError msg), w)
  | Content v => (Ok v, w)
  end.

(** [fs.writeFile(p, JSON.stringify(v, null, 2), "utf8")]. *)
Definition writeJson (p : path) (v : value) : io unit := fun w =>
  match write_error (disk w) with
  | Some msg => (Err (SystemError msg), w)
  | None => (Ok tt, World (put_file p (Content v) (disk w)) (mem w) (clock w))
  end.

(** The document a file holds, read as [getSettings] and
    [getClaudeConfigJson] read it: the empty object when the file is absent,
    unreadable or malformed. *)
Definition document (f : file) : value :=
  match f with
  | Content v => v
  | _ => VObj []
  end.

Definition now : io string := fun w => (Ok (clock w), w).

Definition get_heap : io heap := fun w => (Ok (mem w), w).

Definition put_heap (h : heap) : io unit := fun w =>
  (Ok tt, World (disk w) h (clock w)).

End Fs.

(** ** core/ConfigManager.js *)

Module ConfigManager.
Import JS Fs.

(** [ensureConfigDir()]. *)
Definition ensureConfigDir : io unit :=
  try_catch
    (_ ← ensureDir; ensureDir)
    (fun error => throw (Error ("创建配置目录失败: " +:+ message error))).

(** The loops [for (const siteKey in config.sites) { const site =
    config.sites[siteKey]; ... }] of [getAllConfigs] and [normalizeConfig]
    update the entries of [config.sites] in place and in order; the first
    exception ends them.  A string enumerates its characters, on which the
    bodies of both loops do nothing, and a number or a boolean enumerates
    nothing. *)
Fixpoint for_entries (body : value -> result value) (o : props) : result props :=
  match o with
  | [] => Ok []
  | (k, site) :: rest =>
    site' ← body site;
    rest' ← for_entries body rest;
    Ok ((k, site') :: rest')
  end.

Fixpoint for_items (body : value -> result value) (l : list value)
  : result (list value) :=
  match l with
  | [] => Ok []
  | site :: rest =>
    site' ← body site;
    rest' ← for_items body rest;
    Ok (site' :: rest')
  end.

Definition for_sites (body : value -> result value) (sites : value) : result value :=
  match sites with
  | VObj o => o' ← for_entries body o; Ok (VObj o')
  | VArr l => l' ← for_items body l; Ok (VArr l')
  | _ => Ok sites
  end.

(** The body of the loop of [getAllConfigs]:
    [if (site.claude && !site.config) site.config = site.claude].  Both
    reads have the same receiver, so they throw together or not at all. *)
Definition alias_claude (site : value) : result value :=
  claude ← get (Some site) "claude";
  config ← get (Some site) "config";
  match when_truthy claude, when_truthy config with
  | Some c, None => set (Some site) "config" c
  | _, _ => Ok site
  end.

(** The read-time pass of [getAllConfigs] on the parsed store. *)
Definition alias_sites (config : value) : result value :=
  sites ← get (Some config) "sites";
  match sites with
  | Some s =>
    if truthy sites then
      s' ← for_sites alias_claude s;
      Ok (updated config "sites" s')
    else Ok config
  | None => Ok config
  end.

Definition missing_marker : string := "API配置文件不存在".

Definition missing_error : error :=
  Error "API配置文件不存在，请检查 ~/.claude/api_configs.json".

(** The [try] block of [getAllConfigs]. *)
Definition load_store : io value :=
  _ ← ensureConfigDir;
  present ← pathExists StorePath;
  if negb present then throw missing_error
  else
    config ← readJson StorePath;
    lift (alias_sites config).

(** The [catch] block of [getAllConfigs]. *)
Definition rethrow_or_wrap (error : error) : io value :=
  if includes missing_marker (message error) then throw error
  else throw (Error ("读取配置文件失败: " +:+ message error)).

(** [getAllConfigs()]. *)
Definition getAllConfigs : io value :=
  try_catch load_store rethrow_or_wrap.

(** [getClaudeConfig(siteConfig)]. *)
Definition getClaudeConfig {V : Type} `{Reader V} (siteConfig : V) : result V :=
  claude ← read siteConfig "claude";
  if is_truthy claude then Ok claude
  else
    config ← read siteConfig "config";
    if is_truthy config then Ok config
    else Err (Error "站点配置缺少claude或config字段").

(** The body of the loop of [normalizeConfig]. *)
Definition normalize_site (site : value) : result value :=
  config ← get (Some site) "config";
  claude ← get (Some site) "claude";
  match when_truthy config, when_truthy claude with
  | Some cfg, None =>
    (* site.config && !site.claude *)
    site1 ← set (Some site) "claude" cfg;
    del (Some site1) "config"
  | Some cfg, Some cl =>
    (* site.claude && site.config *)
    if value_eqb cl cfg then del (Some site) "config" else Ok site
  | None, _ => Ok site
  end.

(** [normalizeConfig(config)]. *)
Definition normalizeConfig (config : value) : result value :=
  sites ← get (Some config) "sites";
  match sites with
  | Some s =>
    if truthy sites then
      s' ← for_sites normalize_site s;
      Ok (updated config "sites" s')
    else Ok config
  | None => Ok config
  end.

(** [{...target}]. *)
Definition spread (target : jsval) : props := own_entries target.

(** [result[key] || {}]. *)
Definition or_empty (v : jsval) : value :=
  match v with
  | Some x => if truthy v then x else VObj []
  | None => VObj []
  end.

(** The body of the loop of [deepMerge] for the property [key] of [source],
    whose value is [sv]; [merge] is the recursive call:
    [if (typeof sv === "object" && sv !== null && !Array.isArray(sv))
       result[key] = this.deepMerge(result[key] || {}, sv);
     else result[key] = sv]. *)
Definition merge_entry (merge : jsval -> value -> value)
    (result : props) (key : string) (sv : value) : props :=
  obj_set result key
    match sv with
    | VObj _ => merge (Some (or_empty (lookup_prop key result))) sv
    | _ => sv
    end.

(** The loop [for (const key in source)] over the own properties of
    [source], in order, with [result] as its accumulator. *)
Definition merge_props (merge : jsval -> value -> value)
  : props -> props -> props :=
  fix loop (o : props) (result : props) : props :=
    match o with
    | [] => result
    | (key, sv) :: rest => loop rest (merge_entry merge result key sv)
    end.

(** The same loop over the elements of an array, whose keys are its
    indices. *)
Definition merge_items (merge : jsval -> value -> value)
  : list value -> nat -> props -> props :=
  fix loop (l : list value) (i : nat) (result : props) : props :=
    match l with
    | [] => result
    | sv :: rest => loop rest (S i) (merge_entry merge result (index_key i) sv)
    end.

(** [deepMerge(target, source)]. *)
Fixpoint deepMerge (target : jsval) (source : value) : value :=
  match source with
  | VObj o => VObj (merge_props deepMerge o (spread target))
  | VArr l => VObj (merge_items deepMerge l O (spread target))
  | VStr s =>
    VObj (foldl (fun result kv => obj_set result kv.1 kv.2)
                (spread target) (indexed (chars s)))
  | _ => VObj (spread target)
  end.

(** The checks of one iteration of the loop of [validateConfig]; [Ok false]
    is [return false], [Ok true] is reaching the end of the body. *)
Definition validate_site (siteConfig : value) : result bool :=
  url ← get (Some siteConfig) "url";
  if negb (truthy url) then Ok false
  else
    match getClaudeConfig (Some siteConfig) with
    | Err _ => Ok false
    | Ok actualConfig =>
      env ← get actualConfig "env";
      if negb (truthy env) then Ok false
      else
        authToken ← get env "ANTHROPIC_AUTH_TOKEN";
        if negb (truthy authToken) then Ok false
        else
          hasBaseUrl ← get env "ANTHROPIC_BASE_URL";
          hasVertexBaseUrl ← get env "ANTHROPIC_VERTEX_BASE_URL";
          if truthy hasBaseUrl && truthy hasVertexBaseUrl then Ok false
          else if negb (truthy hasBaseUrl) && negb (truthy hasVertexBaseUrl)
          then Ok false
          else if truthy hasBaseUrl && negb (typeof_string hasBaseUrl)
          then Ok false
          else if truthy hasVertexBaseUrl && negb (typeof_string hasVertexBaseUrl)
          then Ok false
          else
            match authToken with
            | Some (VStr s) => Ok (negb (blank s))
            | Some (VObj _) | Some (VArr _) =>
              Ok (negb (length (own_entries authToken) =? 0)%nat)
            | _ => Ok false
            end
    end.

Fixpoint validate_sites (entries : list value) : result bool :=
  match entries with
  | [] => Ok true
  | siteConfig :: rest =>
    ok ← validate_site siteConfig;
    if (ok : bool) then validate_sites rest else Ok false
  end.

(** [validateConfig(config)]. *)
Definition validateConfig (config : jsval) : result bool :=
  if negb (truthy config) || negb (typeof_object config) then Ok false
  else
    sites ← get config "sites";
    if negb (truthy sites) || negb (typeof_object sites) then Ok false
    else validate_sites (own_entries sites).*2.

(** A plain object built by the program, whose properties may hold
    [undefined] and values of the caller's heap. *)
Definition record : Type := list (string * hjsval).

(** [config.k] on such an object. *)
Definition field (config : record) (k : string) : hjsval :=
  match lookup_prop k config with
  | Some v => v
  | None => None
  end.

(** What [JSON.stringify] writes for a property: nothing when the value is
    [undefined], its tree otherwise. *)
Definition serialise_field (h : heap) (k : string) (v : hjsval)
  : result (list (string * value)) :=
  match v with
  | None => Ok []
  | Some x =>
    match reify h x with
    | Some t => Ok [(k, t)]
    | None => Err (TypeError "Converting circular structure to JSON")
    end
  end.

Fixpoint serialise (h : heap) (o : record) : result props :=
  match o with
  | [] => Ok []
  | (k, v) :: rest =>
    p ← serialise_field h k v;
    ps ← serialise h rest;
    Ok (p ++ ps)
  end.

(** [saveCurrentConfig(config)].  The snapshot is a fresh object whose
    fields are read from the caller's [config]; it becomes a tree when it is
    assigned into the store document.  The source serialises it later, inside
    [JSON.stringify] at the write: the two orders differ only in which of two
    exceptions is reported when both the serialisation and an earlier step
    fail, and [switchConfig] passes strings and [undefined] only. *)
Definition saveCurrentConfig (config : record) : io unit :=
  try_catch
    (_ ← ensureConfigDir;
     stamp ← now;
     let configToSave : record :=
       [("site", field config "site");
        ("siteName", field config "siteName");
        ("url", field config "url");
        ("urlName", field config "urlName");
        ("token", field config "token");
        ("tokenName", field config "tokenName");
        ("updatedAt", Some (HStr stamp))] in
     allConfigs ← getAllConfigs;
     h ← get_heap;
     saved ← lift (serialise h configToSave);
     allConfigs1 ← lift (set (Some allConfigs) "currentConfig" (VObj saved));
     normalizedConfig ← lift (normalizeConfig allConfigs1);
     writeJson StorePath normalizedConfig)
    (fun error => throw (Error ("保存当前配置失败: " +:+ message error))).

(** [getClaudeConfigJson()]. *)
Definition getClaudeConfigJson : io value :=
  try_catch
    (present ← pathExists ClaudeConfigPath;
     if negb present then mret (VObj [])
     else readJson ClaudeConfigPath)
    (fun error => mret (VObj [])).

(** [getSettings()]. *)
Definition getSettings : io value :=
  try_catch
    (present ← pathExists SettingsPath;
     if negb present then mret (VObj [])
     else readJson SettingsPath)
    (fun error => mret (VObj [])).

(** [saveClaudeConfigJson(config)]. *)
Definition saveClaudeConfigJson (config : value) : io unit :=
  try_catch
    (_ ← ensureConfigDir; writeJson ClaudeConfigPath config)
    (fun error => throw (Error ("保存~/.claude/config.json失败: " +:+ message error))).

(** [saveSettings(settings)]. *)
Definition saveSettings (settings : value) : io unit :=
  try_catch
    (_ ← ensureConfigDir; writeJson SettingsPath settings)
    (fun error => throw (Error ("保存settings.json失败: " +:+ message error))).

(** The keys that [switchConfig] deletes from [currentSettings.env], in the
    order of the source. *)
Definition cleared_keys : list string :=
  ["ANTHROPIC_AUTH_TOKEN"; "ANTHROPIC_AUTH_KEY"; "ANTHROPIC_API_KEY";
   "ANTHROPIC_MODEL"; "ANTHROPIC_BASE_URL"; "ANTHROPIC_VERTEX_BASE_URL";
   "ANTHROPIC_VERTEX_PROJECT_ID"; "CLAUDE_CODE_USE_VERTEX";
   "CLAUDE_CODE_SKIP_VERTEX_AUTH"].

Fixpoint delete_keys (v : value) (keys : list string) : result value :=
  match keys with
  | [] => Ok v
  | k :: rest => v' ← del (Some v) k; delete_keys v' rest
  end.

(** [if (currentSettings.env) { delete currentSettings.env.ANTHROPIC_AUTH_TOKEN;
    ... } delete currentSettings.model]. *)
Definition clear_settings (currentSettings : value) : result value :=
  env ← get (Some currentSettings) "env";
  cleared ← match when_truthy env with
            | Some e =>
              e' ← delete_keys e cleared_keys;
              Ok (updated currentSettings "env" e')
            | None => Ok currentSettings
            end;
  del (Some cleared) "model".

Definition default_label : string := "默认Token".

(** [Object.keys(tokens).find((key) => tokens[key] === token)]. *)
Definition find_label (tokens : list (string * hval)) (token : string)
  : option string :=
  List.find
    (fun key =>
       match lookup_prop key tokens with
       | Some (HStr s) => bool_decide (s = token)
       | _ => false
       end)
    tokens.*1.

(** [const tokens = typeof rawTokens === "string" ? { 默认Token: rawTokens } :
    rawTokens] and the search for the name of [token] in it. *)
Definition token_label (h : heap) (rawTokens : hjsval) (token : string)
  : result (option string) :=
  match rawTokens with
  | Some (HStr s) => Ok (find_label [(default_label, HStr s)] token)
  | None | Some HNull =>
    Err (TypeError "Cannot convert undefined or null to object")
  | Some (HRef l) =>
    match h !! l with
    | Some o => Ok (find_label (fields o) token)
    | None => Ok None
    end
  | Some _ => Ok None
  end.

(** The tree of [{...v}] for a value of the heap, which [deepMerge] walks and
    [JSON.stringify] writes; a value that reaches itself ends both with an
    exception. *)
Definition copy_of (h : heap) (v : hjsval) : result value :=
  match v with
  | Some x =>
    match reify h x with
    | Some t => Ok (VObj (spread (Some t)))
    | None => Err (RangeError "Maximum call stack size exceeded")
    end
  | None => Ok (VObj [])
  end.

(** [switchConfig(site, token, siteConfig)]. *)
Definition switchConfig (site token : string) (siteConfig : hjsval) : io record :=
  try_catch
    (h ← get_heap;
     claudeConfig ← lift (getClaudeConfig (H := heap_reader h) siteConfig);
     env ← lift (h_get h claudeConfig "env");
     rawTokens ← lift (h_get h env "ANTHROPIC_AUTH_TOKEN");
     tokenName ← lift (token_label h rawTokens token);
     baseUrl ← lift (h_get h env "ANTHROPIC_BASE_URL");
     let config : record :=
       [("site", Some (HStr site));
        ("siteName", Some (HStr site));
        ("ANTHROPIC_BASE_URL", baseUrl);
        ("token", Some (HStr token));
        ("tokenName", HStr <$> tokenName)] in
     _ ← saveCurrentConfig config;
     currentSettings ← getSettings;
     currentConfigJson ← getClaudeConfigJson;
     primaryApiKey ← lift (get (Some currentConfigJson) "primaryApiKey");
     configJson1 ← lift (if truthy primaryApiKey
                         then del (Some currentConfigJson) "primaryApiKey"
                         else Ok currentConfigJson);
     (* currentConfigJson.primaryApiKey = config.siteName *)
     configJson2 ← lift (set (Some configJson1) "primaryApiKey" (VStr site));
     cleared ← lift (clear_settings currentSettings);
     (* const configToMerge = { ...claudeConfig }: configToMerge.env is the
        object claudeConfig.env *)
     mergeEnv ← lift (h_get h claudeConfig "env");
     mergeToken ← lift (if h_truthy mergeEnv
                        then h_get h mergeEnv "ANTHROPIC_AUTH_TOKEN"
                        else Ok None);
     _ ← (if h_truthy mergeEnv && h_truthy mergeToken
          then
            h' ← lift (h_set h mergeEnv "ANTHROPIC_AUTH_TOKEN" (HStr token));
            put_heap h'
          else mret tt);
     h1 ← get_heap;
     configToMerge ← lift (copy_of h1 claudeConfig);
     let mergedSettings := deepMerge (Some cleared) configToMerge in
     _ ← saveSettings mergedSettings;
     _ ← saveClaudeConfigJson configJson2;
     mret config)
    (fun error => throw (Error ("切换配置失败: " +:+ message error))).

(** [x || null]. *)
Definition or_null (v : jsval) : value :=
  match when_truthy v with
  | Some x => x
  | None => VNull
  end.

(** [getCurrentConfig()]; the warning that its [catch] logs is not part of
    the model. *)
Definition getCurrentConfig : io value :=
  try_catch
    (allConfigs ← getAllConfigs;
     currentConfig ← lift (get (Some allConfigs) "currentConfig");
     mret (or_null currentConfig))
    (fun error => mret VNull).

(** [getCurrentCodexConfig()]. *)
Definition getCurrentCodexConfig : io value :=
  try_catch
    (allConfigs ← getAllConfigs;
     currentCodexConfig ← lift (get (Some allConfigs) "currentCodexConfig");
     mret (or_null currentCodexConfig))
    (fun error => mret VNull).

(** [saveCurrentCodexConfig(config)], with the snapshot serialised as in
    [saveCurrentConfig]. *)
Definition saveCurrentCodexConfig (config : record) : io unit :=
  try_catch
    (_ ← ensureConfigDir;
     stamp ← now;
     let configToSave : record :=
       [("site", field config "site");
        ("siteName", field config "siteName");
        ("model", field config "model");
        ("apiKey", field config "apiKey");
        ("apiKeyName", field config "apiKeyName");
        ("provider", field config "provider");
        ("providerName", field config "providerName");
        ("baseUrl", field config "baseUrl");
        ("updatedAt", Some (HStr stamp))] in
     allConfigs ← getAllConfigs;
     h ← get_heap;
     saved ← lift (serialise h configToSave);
     allConfigs1 ← lift (set (Some allConfigs) "currentCodexConfig" (VObj saved));
     normalizedConfig ← lift (normalizeConfig allConfigs1);
     writeJson StorePath normalizedConfig)
    (fun error => throw (Error ("保存当前Codex配置失败: " +:+ message error))).

(** [configExists()]. *)
Definition configExists : io bool := pathExists StorePath.

End ConfigManager.

(** ** src/utils/notification-manager.js *)

Module NotificationManager.
Import JS Fs.

Definition not_a_function (what : string) : error :=
  TypeError (what +:+ " is not a function").

(** [command?.includes(marker)], as a condition: [undefined] when [command]
    is nullish, the substring test on a string, the membership test on an
    array, and a [TypeError] on any other value, which has no [includes]
    method. *)
Definition includes_marker (command : jsval) (marker : string) : result bool :=
  match command with
  | None | Some VNull => Ok false
  | Some (VStr s) => Ok (includes marker s)
  | Some (VArr l) => Ok (existsb (fun x => value_eqb x (VStr marker)) l)
  | Some _ => Err (not_a_function "h.command?.includes")
  end.

(** [items.some(test)]: the tests run in order up to the first success. *)
Fixpoint some (test : value -> result bool) (items : list value) : result bool :=
  match items with
  | [] => Ok false
  | x :: rest =>
    found ← test x;
    if (found : bool) then Ok true else some test rest
  end.

(** [items.filter(keep)]. *)
Fixpoint filter_items (keep : value -> result bool) (items : list value)
  : result (list value) :=
  match items with
  | [] => Ok []
  | x :: rest =>
    kept ← keep x;
    rest' ← filter_items keep rest;
    Ok (if (kept : bool) then x :: rest' else rest')
  end.

(** [v.some(test)] for a value that is not nullish: only arrays have the
    method. *)
Definition call_some (v : jsval) (test : value -> result bool) : result bool :=
  match v with
  | Some (VArr items) => some test items
  | _ => Err (not_a_function "some")
  end.

(** [v?.some(test)], as a condition. *)
Definition call_some_opt (v : jsval) (test : value -> result bool) : result bool :=
  if nullish v then Ok false else call_some v test.

(** [h => h.type === 'command' && h.command?.includes('cc notify-hook')]. *)
Definition is_notify_command (h : value) : result bool :=
  type ← get (Some h) "type";
  match type with
  | Some (VStr t) =>
    if decide (t = "command") then
      command ← get (Some h) "command";
      includes_marker command "cc notify-hook"
    else Ok false
  | _ => Ok false
  end.

(** [hook => hook.hooks?.some(h => h.type === 'command' &&
    h.command?.includes('cc notify-hook'))]. *)
Definition is_notify_group (hook : value) : result bool :=
  hooks ← get (Some hook) "hooks";
  call_some_opt hooks is_notify_command.

(** [hook => hook.hooks?.some(h => h.command?.includes(marker))], the test of
    [addNotificationHooks] for an entry that is already there. *)
Definition has_command (marker : string) (hook : value) : result bool :=
  hooks ← get (Some hook) "hooks";
  call_some_opt hooks
    (fun h => command ← get (Some h) "command"; includes_marker command marker).

(** The body of [checkNotificationStatus] after the file is parsed. *)
Definition status_of (settings : value) : result bool :=
  hooks ← get (Some settings) "hooks";
  stop ← get_opt hooks "Stop";
  hasStopHook ← call_some_opt stop is_notify_group;
  notification ← get_opt hooks "Notification";
  hasNotificationHook ← call_some_opt notification is_notify_group;
  Ok (hasStopHook && hasNotificationHook).

(** [checkNotificationStatus()]. *)
Definition checkNotificationStatus : io bool :=
  try_catch
    (present ← pathExists SettingsPath;
     if negb present then mret false
     else
       settings ← readJson SettingsPath;
       lift (status_of settings))
    (fun error => mret false).

(** The hook group that [addNotificationHooks] pushes. *)
Definition hook_group (command : string) : value :=
  VObj [("hooks", VArr [VObj [("type", VStr "command"); ("command", VStr command)]])].

(** [if (!hooks[event]) hooks[event] = []; if (!hooks[event].some(...))
    hooks[event].push(group)]: the list is created when missing and the group
    appended unless an entry with the command is there; the result is the
    object [hooks] after these updates. *)
Definition add_hook (hooks : value) (event command : string) : result value :=
  list0 ← get (Some hooks) event;
  '(hooks1, list1) ← match when_truthy list0 with
                     | Some l => Ok (hooks, l)
                     | None =>
                       hooks' ← set (Some hooks) event (VArr []);
                       Ok (hooks', VArr [])
                     end;
  found ← call_some (Some list1) (has_command command);
  if (found : bool) then Ok hooks1
  else
    match list1 with
    | VArr items => Ok (updated hooks1 event (VArr (items ++ [hook_group command])))
    | _ => Ok hooks1
    end.

(** The body of [addNotificationHooks] on the settings read. *)
Definition with_hooks (settings : value) : result value :=
  hooks0 ← get (Some settings) "hooks";
  '(settings1, hooks1) ← match when_truthy hooks0 with
                         | Some hs => Ok (settings, hs)
                         | None =>
                           settings' ← set (Some settings) "hooks" (VObj []);
                           Ok (settings', VObj [])
                         end;
  hooks2 ← add_hook hooks1 "Stop" "cc notify-hook stop";
  hooks3 ← add_hook hooks2 "Notification" "cc notify-hook notification";
  Ok (updated settings1 "hooks" hooks3).

(** [addNotificationHooks()]. *)
Definition addNotificationHooks : io unit :=
  present ← pathExists SettingsPath;
  settings ← (if (present : bool) then readJson SettingsPath else mret (VObj []));
  settings' ← lift (with_hooks settings);
  writeJson SettingsPath settings'.

(** [if (settings.hooks?.[event]) { settings.hooks[event] =
    settings.hooks[event].filter(hook => !is_notify_group(hook)); if
    (settings.hooks[event].length === 0) delete settings.hooks[event]; }],
    as an update of [settings]. *)
Definition remove_hook (settings : value) (event : string) : result value :=
  hooks ← get (Some settings) "hooks";
  list0 ← get_opt hooks event;
  match when_truthy list0 with
  | Some (VArr items) =>
    kept ← filter_items (fun hook => found ← is_notify_group hook;
                                     Ok (negb found)) items;
    hooks1 ← set hooks event (VArr kept);
    hooks2 ← (if (length kept =? 0)%nat then del (Some hooks1) event
              else Ok hooks1);
    Ok (updated settings "hooks" hooks2)
  | Some _ => Err (not_a_function "filter")
  | None => Ok settings
  end.

(** The body of [removeNotificationHooks] on the settings read. *)
Definition without_hooks (settings : value) : result value :=
  settings1 ← remove_hook settings "Stop";
  settings2 ← remove_hook settings1 "Notification";
  hooks ← get (Some settings2) "hooks";
  if truthy hooks && (length (own_entries hooks) =? 0)%nat
  then del (Some settings2) "hooks"
  else Ok settings2.

(** [removeNotificationHooks()]. *)
Definition removeNotificationHooks : io unit :=
  present ← pathExists SettingsPath;
  if negb present then mret tt
  else
    settings ← readJson SettingsPath;
    settings' ← lift (without_hooks settings);
    writeJson SettingsPath settings'.

(** [toggleNotificationMode(options)]: its [catch] logs and throws the error
    again, and the confirmation prompt does not touch the documents. *)
Definition toggleNotificationMode : io bool :=
  currentStatus ← checkNotificationStatus;
  _ ← ensureDir;
  _ ← (if (currentStatus : bool) then removeNotificationHooks
       else addNotificationHooks);
  mret (negb currentStatus).

End NotificationManager.

(** ** src/utils/ui.js: the status lines of the banner *)

Module Ui.
Import JS Fs.

(** [s.length], the number of UTF-16 code units of a string held in UTF-8:
    one for each character, that is for each byte that does not continue
    one, and one more for each character outside the basic plane, whose
    encoding starts with a byte from 240 on. *)
Definition utf16_length (s : string) : nat :=
  let bytes := Ascii.nat_of_ascii <$> String.list_ascii_of_string s in
  (length (filter (fun n => ~ (128 <= n < 192)) bytes)
   + length (filter (fun n => 240 <= n) bytes))%nat.

(** [s.repeat(n)]. *)
Fixpoint repeat_str (s : string) (n : nat) : string :=
  match n with
  | O => EmptyString
  | S n' => s +:+ repeat_str s n'
  end.

Definition newline : string := String (Ascii.ascii_of_nat 10) EmptyString.

(** [v || text]. *)
Definition or_text (v : jsval) (text : string) : value :=
  match when_truthy v with
  | Some x => x
  | None => VStr text
  end.

Section Chalk.

(** The styles of [chalk] that the status lines use: each turns its argument
    into a string, with the escape codes that the terminal supports. *)
Variables gray cyan magenta : value -> string.

Definition dividerLine : string :=
  let statusText := "配置状态" in
  let totalWidth := 40%nat in
  let textWidth := utf16_length statusText in
  let dashWidth := ((totalWidth - textWidth) / 2)%nat in
  gray (VStr (repeat_str "╌" dashWidth +:+ statusText
              +:+ repeat_str "╌" dashWidth)).

(** The body of [getCurrentStatusBrief] once both snapshots are read;
    [None] is [null]. *)
Definition status_brief (currentConfig currentCodexConfig : value)
  : result (option string) :=
  if negb (truthy (Some currentConfig)) && negb (truthy (Some currentCodexConfig))
  then Ok None
  else
    claude ← (if truthy (Some currentConfig) then
                siteName ← get (Some currentConfig) "siteName";
                tokenName ← get (Some currentConfig) "tokenName";
                Ok ["🤖 Claude: " +:+ cyan (or_text siteName "未知站点") +:+ "-"
                    +:+ gray (or_text tokenName "默认Token")]
              else Ok []);
    codex ← (if truthy (Some currentCodexConfig) then
               siteName ← get (Some currentCodexConfig) "siteName";
               apiKeyName ← get (Some currentCodexConfig) "apiKeyName";
               Ok ["💻 Codex: " +:+ magenta (or_text siteName "未知站点") +:+ "-"
                   +:+ gray (or_text apiKeyName "默认API Key")]
             else Ok []);
    Ok (Some (String.concat newline (dividerLine :: claude ++ codex))).

(** [getCurrentStatusBrief()], for the manager that it constructs.  The two
    reads of [Promise.all] write nothing, so that their interleaving does
    not show. *)
Definition getCurrentStatusBrief : io (option string) :=
  try_catch
    (currentConfig ← try_catch ConfigManager.getCurrentConfig
                       (fun _ => mret VNull);
     currentCodexConfig ← try_catch ConfigManager.getCurrentCodexConfig
                            (fun _ => mret VNull);
     lift (status_brief currentConfig currentCodexConfig))
    (fun error => mret None).

End Chalk.

End Ui.

(** ** src/commands/claude/yolo.js: the hook that approves the tools *)

Module YoloHook.
Import JS.

(** What happens to the process while [execute] waits: a chunk arrives on
    the standard input, the input ends, the input fails, or the five seconds
    of the timer have passed. *)
Inductive event : Type :=
| Data (chunk : string)
| End
| StdinError
| Timeout.

Record state : Type := State {
  chunks : list string;    (* the chunks pushed so far *)
  timer : bool;            (* the timeout is pending *)
  printed : list value;    (* the documents written by console.log, in order *)
  resolved : bool;         (* the promise is resolved *)
  exited : bool            (* process.exit was called *)
}.

Definition initial : state := State [] true [] false false.

Definition response (reason : string) : value :=
  VObj [("decision", VStr "approve"); ("reason", VStr reason)].

(** [console.log(JSON.stringify(response)); resolve()]. *)
Definition approve (reason : string) (st : state) : state :=
  State (chunks st) (timer st) (printed st ++ [response reason]) true (exited st).

(** [toolName === 'ExitPlanMode']. *)
Definition is_exit_plan (toolName : jsval) : bool :=
  match toolName with
  | Some (VStr s) => bool_decide (s = "ExitPlanMode")
  | _ => false
  end.

Section Handlers.

(** [JSON.parse(Buffer.concat(chunks).toString().trim())]. *)
Variable parse : list string -> result value.

(** The first listener of ['end']: its [try] block reads the name of the
    tool, and its [catch] approves. *)
Definition on_end (st : state) : state :=
  match hookData ← parse (chunks st); get (Some hookData) "tool_name" with
  | Ok toolName =>
    if is_exit_plan toolName
    then State (chunks st) (timer st) (printed st) (resolved st) true
    else approve "YOLO mode: All tools approved automatically - no restrictions" st
  | Err _ =>
    approve "YOLO mode: Approved despite parsing error - no restrictions" st
  end.

(** The second listener of ['end']: [clearTimeout(timeout)]. *)
Definition clear_timeout (st : state) : state :=
  State (chunks st) false (printed st) (resolved st) (exited st).

(** The listeners and the timer; nothing runs once the process has exited,
    and the timer fires once at most. *)
Definition step (ev : event) (st : state) : state :=
  if exited st then st
  else
    match ev with
    | Data chunk =>
      State (chunks st ++ [chunk]) (timer st) (printed st) (resolved st) (exited st)
    | End =>
      let st' := on_end st in
      if exited st' then st' else clear_timeout st'
    | StdinError =>
      approve "YOLO mode: Approved despite stdin error - no restrictions" st
    | Timeout =>
      if timer st
      then approve "YOLO mode: Approved due to timeout - no restrictions"
             (clear_timeout st)
      else st
    end.

Definition run (evs : list event) (st : state) : state :=
  foldl (fun st ev => step ev st) st evs.

End Handlers.

End YoloHook.

(** ** What the specification says, in its own words *)

Module Spec.
Import JS.

(** [v.k] as a total function: [undefined] where there is no such
    property. *)
Definition prop (v : jsval) (k : string) : jsval :=
  match get v k with
  | Ok x => x
  | Err _ => None
  end.

(** A non-null value of type object: a mapping or an array. *)
Definition is_object (v : value) : bool :=
  match v with
  | VObj _ | VArr _ => true
  | _ => false
  end.

(** A mapping proper: an object that is not an array. *)
Definition is_mapping (v : value) : bool :=
  match v with
  | VObj _ => true
  | _ => false
  end.

(** A value is present when the program's own test for it succeeds, that is
    when it is truthy. *)
Definition present (v : jsval) : bool := truthy v.

(** "If it has [config] but not [claude], rename [config] to [claude]; if it
    has both and their serialized forms are identical, drop the redundant
    [config]." *)
Definition normalized_entry (e : props) : props :=
  match when_truthy (lookup_prop "config" e),
        when_truthy (lookup_prop "claude" e) with
  | Some cfg, None => obj_del (obj_set e "claude" cfg) "config"
  | Some cfg, Some cl => if value_eqb cl cfg then obj_del e "config" else e
  | None, _ => e
  end.

(** "Return [claude] if present, else [config]." *)
Definition effective_fragment (entry : jsval) : jsval :=
  if present (prop entry "claude") then prop entry "claude"
  else if present (prop entry "config") then prop entry "config"
  else None.

(** "The auth-token field, if a string, must be non-blank after trimming; if
    a mapping, must have at least one entry; any other type is invalid."
    [mapping] says which values count as mappings. *)
Definition token_ok (mapping : value -> bool) (authToken : jsval) : bool :=
  match authToken with
  | Some (VStr s) => negb (blank s)
  | Some v => mapping v && negb (length (own_entries authToken) =? 0)%nat
  | None => false
  end.

(** "Each Site Entry must have a [url].  Each Site Entry's effective
    fragment must resolve and must have [env.ANTHROPIC_AUTH_TOKEN].  Exactly
    one of [ANTHROPIC_BASE_URL] / [ANTHROPIC_VERTEX_BASE_URL] must be
    present, and whichever is present must be a string." *)
Definition valid_entry (mapping : value -> bool) (entry : value) : bool :=
  let fragment := effective_fragment (Some entry) in
  let env := prop fragment "env" in
  let authToken := prop env "ANTHROPIC_AUTH_TOKEN" in
  let baseUrl := prop env "ANTHROPIC_BASE_URL" in
  let vertexBaseUrl := prop env "ANTHROPIC_VERTEX_BASE_URL" in
  present (prop (Some entry) "url")
  && present fragment
  && present env && present authToken
  && xorb (present baseUrl) (present vertexBaseUrl)
  && (if present baseUrl then typeof_string baseUrl else true)
  && (if present vertexBaseUrl then typeof_string vertexBaseUrl else true)
  && token_ok mapping authToken.

(** "The store must be an object with a [sites] object", every entry of
    which is valid. *)
Definition valid_store (mapping : value -> bool) (config : jsval) : bool :=
  match config, prop config "sites" with
  | Some c, Some sites =>
    is_object c && is_object sites
    && forallb (valid_entry mapping) (own_entries (Some sites)).*2
  | _, _ => false
  end.




End Spec.

(** ** Shapes of documents and of runs, for the statements *)

Module Shape.
Import JS Spec.

(** The pass over [config.sites] that [getAllConfigs] and [normalizeConfig]
    have in common, with the body of its loop. *)
Definition sites_pass (body : value -> result value) (config : value)
  : result value :=
  sites ← get (Some config) "sites";
  match sites with
  | Some s =>
    if truthy sites then
      s' ← ConfigManager.for_sites body s;
      Ok (updated config "sites" s')
    else Ok config
  | None => Ok config
  end.

(** A site entry after the pass of [getAllConfigs]. *)
Definition aliased_entry (e : props) : props :=
  match when_truthy (lookup_prop "claude" e),
        when_truthy (lookup_prop "config" e) with
  | Some c, None => obj_set e "config" c
  | _, _ => e
  end.

(** The loop of [validateConfig] comes to a [null] entry: every entry before
    the first [null] one passes its checks. *)
Fixpoint reaches_null (entries : list value) : bool :=
  match entries with
  | [] => false
  | VNull :: _ => true
  | e :: rest => valid_entry is_object e && reaches_null rest
  end.


(** The list of [event] in the hooks object [h] holds a group one of whose
    entries has a command with [marker] in it. *)
Definition has_hook (h : props) (event marker : string) : Prop :=
  exists items,
    lookup_prop event h = Some (VArr items) /\
    NotificationManager.some (NotificationManager.has_command marker) items
    = Ok true.

(** The list of [event] in the hooks object [h] holds a group that
    [checkNotificationStatus] takes for the notifier's. *)
Definition notifier_on (h : props) (event : string) : Prop :=
  exists items,
    lookup_prop event h = Some (VArr items) /\
    NotificationManager.some NotificationManager.is_notify_group items = Ok true.

(** A document that approves the use of a tool. *)
Definition is_approval (d : value) : Prop :=
  prop (Some d) "decision" = Some (VStr "approve").

End Shape.

(** ** Concrete stores, documents and site entries *)

Module Examples.
Import JS Fs.

Definition stamp : string := "2026-01-01T00:00:00.000Z".

(** A world whose store file holds [stored] and whose live documents do not
    exist yet. *)
Definition world_of (stored : file) : world :=
  World (Fsys None None stored Absent Absent) ∅ stamp.

Definition fragment_a : value :=
  VObj [("env", VObj [("ANTHROPIC_AUTH_TOKEN", VStr "sk-abc");
                      ("ANTHROPIC_BASE_URL", VStr "https://api.a.example")])].

(** A store with a site entry in the legacy format ([config] only) and one
    in the current format ([claude] only). *)
Definition legacy_store : value :=
  VObj [("sites",
         VObj [("a", VObj [("url", VStr "https://a.example");
                           ("config", fragment_a)]);
               ("b", VObj [("url", VStr "https://b.example");
                           ("claude", fragment_a)])])].

(** A store whose only site entry is in the legacy format. *)
Definition config_only_store : value :=
  VObj [("sites",
         VObj [("a", VObj [("url", VStr "https://a.example");
                           ("config", fragment_a)])])].

Definition config_only_world : world := world_of (Content config_only_store).

Definition legacy_sites : props :=
  [("a", VObj [("url", VStr "https://a.example"); ("config", fragment_a)]);
   ("b", VObj [("url", VStr "https://b.example"); ("claude", fragment_a)])].

Definition legacy_world : world := world_of (Content legacy_store).

(** A store whose only site entry gives its tokens as an array. *)
Definition array_token_store : value :=
  VObj [("sites",
         VObj [("a",
                VObj [("url", VStr "https://a.example");
                      ("claude",
                       VObj [("env",
                              VObj [("ANTHROPIC_AUTH_TOKEN", VArr [VStr "sk-abc"]);
                                    ("ANTHROPIC_BASE_URL",
                                     VStr "https://api.a.example")])])])])].

Definition dquote : string := String (Ascii.ascii_of_nat 34) EmptyString.

(** The message of the [SyntaxError] that [JSON.parse] throws on a store
    file whose text is the marker itself: V8 quotes the text it rejects. *)
Definition quoting_message : string :=
  "Unexpected token 'A', " +:+ dquote +:+ "API配置文件不存在" +:+ dquote
  +:+ " is not valid JSON".

Definition quoting_world : world := world_of (Malformed quoting_message).

Definition absent_world : world := world_of Absent.

(** The caller's objects for a switch: a site entry (1) whose [claude]
    fragment (2) has an [env] (3) with two named tokens (4). *)
Definition site_heap : heap :=
  <[1%positive :=
      HObj false [("url", HStr "https://x.example"); ("claude", HRef 2%positive)]]>
  (<[2%positive := HObj false [("env", HRef 3%positive)]]>
  (<[3%positive :=
       HObj false [("ANTHROPIC_AUTH_TOKEN", HRef 4%positive);
                   ("ANTHROPIC_BASE_URL", HStr "https://api.x.example")]]>
  (<[4%positive :=
       HObj false [("Primary", HStr "sk-abc"); ("Backup", HStr "sk-def")]]> ∅))).

Definition site_object : hobj :=
  HObj false [("url", HStr "https://x.example"); ("claude", HRef 2%positive)].
Definition fragment_object : hobj := HObj false [("env", HRef 3%positive)].
Definition env_object : hobj :=
  HObj false [("ANTHROPIC_AUTH_TOKEN", HRef 4%positive);
              ("ANTHROPIC_BASE_URL", HStr "https://api.x.example")].
Definition tokens_object : hobj :=
  HObj false [("Primary", HStr "sk-abc"); ("Backup", HStr "sk-def")].

(** Live settings left by a Vertex-style site, with a key of the user's
    own. *)
Definition vertex_settings : value :=
  VObj [("env", VObj [("ANTHROPIC_VERTEX_BASE_URL", VStr "https://vertex.example");
                      ("CLAUDE_CODE_USE_VERTEX", VStr "1");
                      ("EDITOR", VStr "vim")]);
        ("model", VStr "opus");
        ("theme", VStr "dark")].

Definition switch_world : world :=
  World (Fsys None None (Content legacy_store) (Content vertex_settings) Absent)
        site_heap stamp.

(** The switch to the token named [Backup], and to a token that the entry
    does not name. *)
Definition switched : result ConfigManager.record * world :=
  ConfigManager.switchConfig "x" "sk-def" (Some (HRef 1%positive)) switch_world.

Definition switched_unnamed : result ConfigManager.record * world :=
  ConfigManager.switchConfig "x" "sk-xyz" (Some (HRef 1%positive)) switch_world.

Definition backup_snapshot : ConfigManager.record :=
  [("site", Some (HStr "x")); ("siteName", Some (HStr "x"));
   ("ANTHROPIC_BASE_URL", Some (HStr "https://api.x.example"));
   ("token", Some (HStr "sk-def")); ("tokenName", Some (HStr "Backup"))].

(** Live settings with a key of the user's own and no hooks. *)
Definition plain_settings : props := [("theme", VStr "dark")].

Definition plain_world : world :=
  World (Fsys None None Absent (Content (VObj plain_settings)) Absent) ∅ stamp.

(** A snapshot of a Codex selection. *)
Definition codex_snapshot : ConfigManager.record :=
  [("site", Some (HStr "x")); ("siteName", Some (HStr "x"));
   ("model", Some (HStr "gpt-5")); ("apiKey", Some (HStr "sk-key"));
   ("apiKeyName", Some (HStr "Primary")); ("provider", Some (HStr "p"));
   ("providerName", Some (HStr "p")); ("baseUrl", Some (HStr "https://p.example"))].

(** The saves of a Claude and of a Codex snapshot over the legacy store. *)
Definition saved_claude : result unit * world :=
  ConfigManager.saveCurrentConfig backup_snapshot legacy_world.

Definition saved_codex : result unit * world :=
  ConfigManager.saveCurrentCodexConfig codex_snapshot legacy_world.

(** A store with a [null] site entry. *)
Definition null_entry_store : value :=
  VObj [("sites", VObj [("a", VNull)])].

(** A site entry with no fragment. *)
Definition bare_world : world :=
  World (Fsys None None (Content legacy_store) Absent Absent)
        (<[1%positive := HObj false [("url", HStr "https://x.example")]]> ∅)
        stamp.

(** The world of the switch, with a settings file that holds [null]. *)
Definition null_settings_world : world :=
  World (Fsys None None (Content legacy_store) (Content VNull) Absent)
        site_heap stamp.

(** The plain settings after the notifications are switched on. *)
Definition notified_world : world :=
  (NotificationManager.addNotificationHooks plain_world).2.

(** A terminal without colours. *)
Definition no_colour (v : value) : string :=
  match v with
  | VStr s => s
  | _ => EmptyString
  end.

(** A standard input that parses to a request for the tool
    [ExitPlanMode]. *)
Definition parse_exit_plan (chunks : list string) : result value :=
  Ok (VObj [("tool_name", VStr "ExitPlanMode")]).

End Examples.

(** ** Properties *)

Module Facts.
Import JS Fs ConfigManager NotificationManager Spec Examples.

(** *** Own properties *)

Section Lookup.
Context {A : Type}.
Implicit Types (o : list (string * A)) (k : string) (v : A).

Lemma lookup_prop_app o1 o2 k :
  lookup_prop k (o1 ++ o2) =
  match lookup_prop k o1 with
  | Some v => Some v
  | None => lookup_prop k o2
  end.
Proof.
  induction o1 as [|[k1 v1] o1 IH]; simpl; [done|].
  destruct (decide (k = k1)); [done|apply IH].
Qed.

Lemma lookup_replace_prop_eq o k v :
  lookup_prop k (replace_prop k v o) =
  match lookup_prop k o with
  | Some _ => Some v
  | None => None
  end.
Proof.
  induction o as [|[k1 v1] o IH]; simpl; [done|].
  destruct (decide (k = k1)) as [->|Hne]; simpl.
  - by rewrite decide_True.
  - by rewrite decide_False.
Qed.

Lemma lookup_replace_prop_ne o k k' v :
  k' <> k -> lookup_prop k' (replace_prop k v o) = lookup_prop k' o.
Proof.
  intros Hne. induction o as [|[k1 v1] o IH]; simpl; [done|].
  destruct (decide (k = k1)) as [->|Hk]; simpl.
  - by rewrite !decide_False.
  - destruct (decide (k' = k1)); [done|apply IH].
Qed.

Lemma lookup_insert_index_ne o n k k' v :
  k' <> k -> lookup_prop k' (insert_index n k v o) = lookup_prop k' o.
Proof.
  intros Hne. induction o as [|[k1 v1] o IH]; simpl.
  - by rewrite decide_False.
  - destruct (array_index k1) as [m|]; [destruct (m <? n)%N|]; simpl;
      rewrite ?decide_False by done; try done.
    destruct (decide (k' = k1)); [done|apply IH].
Qed.

Lemma lookup_insert_index_eq o n k v :
  lookup_prop k o = None -> lookup_prop k (insert_index n k v o) = Some v.
Proof.
  induction o as [|[k1 v1] o IH]; simpl.
  - by rewrite decide_True.
  - destruct (decide (k = k1)) as [->|Hk]; [done|]. intros Ho.
    destruct (array_index k1) as [m|]; [destruct (m <? n)%N|]; simpl;
      rewrite ?decide_True by done; try done.
    rewrite decide_False by done. by apply IH.
Qed.

Lemma lookup_obj_set_eq o k v : lookup_prop k (obj_set o k v) = Some v.
Proof.
  unfold obj_set, has_prop. destruct (lookup_prop k o) as [x|] eqn:Hk.
  - by rewrite lookup_replace_prop_eq, Hk.
  - destruct (array_index k).
    + by apply lookup_insert_index_eq.
    + rewrite lookup_prop_app, Hk. simpl. by rewrite decide_True.
Qed.

Lemma lookup_obj_set_ne o k k' v :
  k' <> k -> lookup_prop k' (obj_set o k v) = lookup_prop k' o.
Proof.
  intros Hne. unfold obj_set. destruct (has_prop k o).
  - by apply lookup_replace_prop_ne.
  - destruct (array_index k).
    + by apply lookup_insert_index_ne.
    + rewrite lookup_prop_app. destruct (lookup_prop k' o); [done|].
      simpl. by rewrite decide_False.
Qed.


Lemma lookup_obj_del_eq o k : lookup_prop k (obj_del o k) = None.
Proof.
  unfold obj_del. induction o as [|[k1 v1] o IH]; simpl; [done|].
  rewrite filter_cons. simpl. destruct (decide (k1 <> k)) as [Hk|Hk]; simpl.
  - rewrite decide_False by done. apply IH.
  - apply IH.
Qed.

Lemma lookup_obj_del_ne o k k' :
  k' <> k -> lookup_prop k' (obj_del o k) = lookup_prop k' o.
Proof.
  intros Hne. unfold obj_del. induction o as [|[k1 v1] o IH]; simpl; [done|].
  rewrite filter_cons. simpl. destruct (decide (k1 <> k)) as [Hk|Hk]; simpl.
  - destruct (decide (k' = k1)); [done|apply IH].
  - apply dec_stable in Hk. subst k1. rewrite decide_False by done. apply IH.
Qed.





End Lookup.

(** *** Deep merge *)







(** *** Trees *)

Lemma value_ind' (P : value -> Prop) :
  P VNull -> (forall b, P (VBool b)) -> (forall n, P (VNum n)) ->
  (forall s, P (VStr s)) ->
  (forall l, Forall P l -> P (VArr l)) ->
  (forall o, Forall (fun kv => P kv.2) o -> P (VObj o)) ->
  forall v, P v.
Proof.
  intros HN HB HZ HS HA HO. fix IH 1.
  intros [|b|n|s|l|o]; [apply HN|apply HB|apply HZ|apply HS| |].
  - apply HA.
    refine ((fix go (l : list value) : Forall P l :=
               match l with
               | [] => @List.Forall_nil _ _
               | x :: l' => @List.Forall_cons _ _ x l' (IH x) (go l')
               end) l).
  - apply HO.
    refine ((fix go (o : props) : Forall (fun kv => P kv.2) o :=
               match o with
               | [] => @List.Forall_nil _ _
               | kv :: o' => @List.Forall_cons _ _ kv o' (IH kv.2) (go o')
               end) o).
Qed.

Lemma value_eqb_eq (a b : value) : value_eqb a b = true <-> a = b.
Proof.
  revert b. induction a as [|x|x|x|xs IH|xs IH] using value_ind';
    intros [|y|y|y|ys|ys]; simpl; try (split; [discriminate|discriminate]);
    try (split; [done|done]).
  - rewrite bool_decide_eq_true. split; [by intros ->|by intros [= ->]].
  - rewrite Z.eqb_eq. split; [by intros ->|by intros [= ->]].
  - rewrite bool_decide_eq_true. split; [by intros ->|by intros [= ->]].
  - revert ys. induction IH as [|x xs Hx _ IHxs]; intros [|y ys];
      try (split; [done|done]); try (split; [discriminate|discriminate]).
    rewrite andb_true_iff, Hx, IHxs. split.
    + by intros [-> [= ->]].
    + by intros [= -> ->].
  - revert ys. induction IH as [|[k x] xs Hx _ IHxs]; intros [|[k' y] ys];
      try (split; [done|done]); try (split; [discriminate|discriminate]).
    rewrite !andb_true_iff, bool_decide_eq_true. simpl in Hx.
    rewrite Hx, IHxs. split.
    + by intros [[-> ->] [= ->]].
    + by intros [= -> -> ->].
Qed.

Lemma replace_prop_idem {A} (o : list (string * A)) k v :
  replace_prop k v (replace_prop k v o) = replace_prop k v o.
Proof.
  induction o as [|[k1 v1] o IH]; simpl; [done|].
  destruct (decide (k = k1)) as [->|Hk]; simpl.
  - by rewrite decide_True.
  - rewrite decide_False by done. by rewrite IH.
Qed.

Lemma normalize_site_obj (e : props) :
  normalize_site (VObj e) = Ok (VObj (normalized_entry e)).
Proof.
  unfold normalize_site, normalized_entry. simpl.
  destruct (when_truthy (lookup_prop "config" e)) as [cfg|];
    destruct (when_truthy (lookup_prop "claude" e)) as [cl|]; try reflexivity.
  by destruct (value_eqb cl cfg).
Qed.

Lemma when_truthy_None : when_truthy None = None.
Proof. reflexivity. Qed.

Lemma normalized_entry_fixed (e : props) :
  normalized_entry e = e \/ lookup_prop "config" (normalized_entry e) = None.
Proof.
  unfold normalized_entry.
  destruct (when_truthy (lookup_prop "config" e)) as [cfg|]; [|by left].
  destruct (when_truthy (lookup_prop "claude" e)) as [cl|].
  - destruct (value_eqb cl cfg); [right|by left]. apply lookup_obj_del_eq.
  - right. apply lookup_obj_del_eq.
Qed.

Lemma normalized_entry_idem (e : props) :
  normalized_entry (normalized_entry e) = normalized_entry e.
Proof.
  destruct (normalized_entry_fixed e) as [H|H].
  - by rewrite !H.
  - unfold normalized_entry at 1. by rewrite H.
Qed.

Lemma normalize_site_idem (site site' : value) :
  normalize_site site = Ok site' -> normalize_site site' = Ok site'.
Proof.
  destruct site as [|b|n|s|l|e]; try (intros [= <-]; reflexivity).
  rewrite normalize_site_obj. intros [= <-].
  by rewrite normalize_site_obj, normalized_entry_idem.
Qed.

Lemma for_entries_idem (f : value -> result value) (o o' : props) :
  (forall x x', f x = Ok x' -> f x' = Ok x') ->
  for_entries f o = Ok o' -> for_entries f o' = Ok o'.
Proof.
  intros Hf. revert o'. induction o as [|[k x] o IH]; intros o'; simpl.
  - by intros [= <-].
  - destruct (f x) as [x'|] eqn:Hx; [|discriminate]. simpl.
    destruct (for_entries f o) as [r|] eqn:Hr; [|discriminate]. simpl.
    intros [= <-]. simpl. rewrite (Hf _ _ Hx). simpl. by rewrite (IH r).
Qed.

Lemma for_items_idem (f : value -> result value) (l l' : list value) :
  (forall x x', f x = Ok x' -> f x' = Ok x') ->
  for_items f l = Ok l' -> for_items f l' = Ok l'.
Proof.
  intros Hf. revert l'. induction l as [|x l IH]; intros l'; simpl.
  - by intros [= <-].
  - destruct (f x) as [x'|] eqn:Hx; [|discriminate]. simpl.
    destruct (for_items f l) as [r|] eqn:Hr; [|discriminate]. simpl.
    intros [= <-]. simpl. rewrite (Hf _ _ Hx). simpl. by rewrite (IH r).
Qed.

Lemma for_sites_idem (f : value -> result value) (s s' : value) :
  (forall x x', f x = Ok x' -> f x' = Ok x') ->
  for_sites f s = Ok s' -> for_sites f s' = Ok s' /\ truthy (Some s') = truthy (Some s).
Proof.
  intros Hf. destruct s as [|b|n|x|l|o]; simpl; try (intros [= <-]; done).
  - destruct (for_items f l) as [l'|] eqn:Hl; [|discriminate]. simpl.
    intros [= <-]. simpl. by rewrite (for_items_idem _ _ _ Hf Hl).
  - destruct (for_entries f o) as [o'|] eqn:Ho; [|discriminate]. simpl.
    intros [= <-]. simpl. by rewrite (for_entries_idem _ _ _ Hf Ho).
Qed.

Lemma normalizeConfig_idem (store : value) :
  normalizeConfig store ≫= normalizeConfig = normalizeConfig store.
Proof.
  destruct store as [|b|n|x|l|o]; try reflexivity.
  unfold normalizeConfig at 2 3. simpl.
  destruct (lookup_prop "sites" o) as [s|] eqn:Hs; [|simpl; unfold normalizeConfig; simpl; by rewrite Hs].
  destruct (truthy (Some s)) eqn:Ht; [|simpl; unfold normalizeConfig; simpl; by rewrite Hs, Ht].
  destruct (for_sites normalize_site s) as [s'|] eqn:Hf; [|reflexivity].
  simpl. unfold normalizeConfig. simpl.
  rewrite lookup_replace_prop_eq, Hs.
  destruct (for_sites_idem _ _ _ normalize_site_idem Hf) as [Hf' Ht'].
  rewrite Ht', Ht, Hf'. simpl. by rewrite replace_prop_idem.
Qed.

(** *** Normalisation *)

Lemma when_truthy_Some (v : jsval) (x : value) :
  when_truthy v = Some x <-> v = Some x /\ truthy v = true.
Proof.
  unfold when_truthy. destruct (truthy v) eqn:Ht.
  - split; [by intros ->|by intros [-> _]].
  - split; [done|by intros [_ ?]].
Qed.

Lemma when_truthy_None_iff (v : jsval) :
  when_truthy v = None <-> truthy v = false.
Proof.
  unfold when_truthy. destruct (truthy v) eqn:Ht; [|done].
  split; [|done]. intros ->. done.
Qed.

Lemma normalize_site_ok (site : value) :
  site <> VNull -> exists site', normalize_site site = Ok site'.
Proof.
  intros Hnn. destruct site as [|b|n|x|l|e]; [done|..];
    try (eexists; reflexivity).
  rewrite normalize_site_obj. by eexists.
Qed.

Lemma for_entries_ok (f : value -> result value) (o : props) :
  Forall (fun kv => exists x', f kv.2 = Ok x') o ->
  exists o', for_entries f o = Ok o'.
Proof.
  induction 1 as [|[k x] o [x' Hx] _ [o' Ho]]; simpl in *.
  - by eexists.
  - rewrite Hx. simpl. rewrite Ho. simpl. by eexists.
Qed.

Lemma for_entries_lookup (f : value -> result value) (o o' : props) :
  for_entries f o = Ok o' ->
  o'.*1 = o.*1 /\
  forall k x, lookup_prop k o = Some x ->
    exists x', f x = Ok x' /\ lookup_prop k o' = Some x'.
Proof.
  revert o'. induction o as [|[k1 x1] o IH]; intros o'; simpl.
  - intros [= <-]. by split.
  - destruct (f x1) as [x1'|] eqn:Hx1; [|discriminate]. simpl.
    destruct (for_entries f o) as [r|] eqn:Hr; [|discriminate]. simpl.
    intros [= <-]. destruct (IH r eq_refl) as [Hk Hl]. split.
    + simpl. f_equal. exact Hk.
    + intros k x. simpl. destruct (decide (k = k1)) as [->|Hne].
      * intros [= <-]. by exists x1'.
      * apply Hl.
Qed.

Lemma normalized_entry_rename (e : props) :
  present (lookup_prop "config" e) = true ->
  present (lookup_prop "claude" e) = false ->
  lookup_prop "claude" (normalized_entry e) = lookup_prop "config" e /\
  lookup_prop "config" (normalized_entry e) = None /\
  forall f, f <> "claude" -> f <> "config" ->
    lookup_prop f (normalized_entry e) = lookup_prop f e.
Proof.
  unfold present. intros Hcfg Hcl. unfold normalized_entry.
  apply when_truthy_None_iff in Hcl. rewrite Hcl.
  destruct (lookup_prop "config" e) as [cfg|] eqn:Hc; [|done].
  assert (when_truthy (Some cfg) = Some cfg) as -> by by apply when_truthy_Some.
  split; [|split].
  - by rewrite lookup_obj_del_ne, lookup_obj_set_eq.
  - apply lookup_obj_del_eq.
  - intros f Hf1 Hf2. by rewrite lookup_obj_del_ne, lookup_obj_set_ne.
Qed.

Lemma normalized_entry_drop (e : props) :
  present (lookup_prop "config" e) = true ->
  present (lookup_prop "claude" e) = true ->
  lookup_prop "claude" e = lookup_prop "config" e ->
  lookup_prop "config" (normalized_entry e) = None /\
  forall f, f <> "config" ->
    lookup_prop f (normalized_entry e) = lookup_prop f e.
Proof.
  unfold present. intros Hcfg Hcl Heq. unfold normalized_entry.
  destruct (lookup_prop "config" e) as [cfg|] eqn:Hc; [|done].
  rewrite Heq.
  assert (when_truthy (Some cfg) = Some cfg) as -> by by apply when_truthy_Some.
  assert (value_eqb cfg cfg = true) as -> by by apply value_eqb_eq.
  split.
  - apply lookup_obj_del_eq.
  - intros f Hf. by rewrite lookup_obj_del_ne.
Qed.

Lemma normalized_entry_keep (e : props) :
  present (lookup_prop "config" e) = false \/
  (present (lookup_prop "claude" e) = true /\
   lookup_prop "claude" e <> lookup_prop "config" e) ->
  normalized_entry e = e.
Proof.
  unfold present, normalized_entry. intros [Hcfg|[Hcl Hne]].
  - apply when_truthy_None_iff in Hcfg. by rewrite Hcfg.
  - destruct (when_truthy (lookup_prop "config" e)) as [cfg|] eqn:Hc; [|done].
    apply when_truthy_Some in Hc as [Hc _].
    destruct (lookup_prop "claude" e) as [cl|] eqn:Hl; [|done].
    assert (when_truthy (Some cl) = Some cl) as -> by by apply when_truthy_Some.
    destruct (value_eqb cl cfg) eqn:Heq; [|done].
    apply value_eqb_eq in Heq. subst cl. by rewrite Hc in Hne.
Qed.

(** C5.  [normalizeConfig] is idempotent, and on a store whose [sites] is a
    mapping of site entries it keeps the site keys and: renames the [config]
    of an entry to [claude] when the entry has no [claude]; drops the
    [config] of an entry that has both with the same content; and leaves an
    entry with only [claude], or with a [claude] and a [config] that differ,
    as it is. *)
Theorem normalizeConfig_spec (store : value) :
  normalizeConfig store ≫= normalizeConfig = normalizeConfig store /\
  forall o ss,
    store = VObj o ->
    lookup_prop "sites" o = Some (VObj ss) ->
    Forall (fun kv => kv.2 <> VNull) ss ->
    exists ss',
      normalizeConfig store = Ok (VObj (replace_prop "sites" (VObj ss') o)) /\
      ss'.*1 = ss.*1 /\
      forall k e, lookup_prop k ss = Some (VObj e) ->
        exists e',
          lookup_prop k ss' = Some (VObj e') /\
          (present (lookup_prop "config" e) = true ->
           present (lookup_prop "claude" e) = false ->
           lookup_prop "claude" e' = lookup_prop "config" e /\
           lookup_prop "config" e' = None /\
           forall f, f <> "claude" -> f <> "config" ->
             lookup_prop f e' = lookup_prop f e) /\
          (present (lookup_prop "config" e) = true ->
           present (lookup_prop "claude" e) = true ->
           lookup_prop "claude" e = lookup_prop "config" e ->
           lookup_prop "config" e' = None /\
           forall f, f <> "config" -> lookup_prop f e' = lookup_prop f e) /\
          (present (lookup_prop "config" e) = false \/
           (present (lookup_prop "claude" e) = true /\
            lookup_prop "claude" e <> lookup_prop "config" e) ->
           e' = e).
Proof.
  split; [apply normalizeConfig_idem|].
  intros o ss -> Hsites Hnn.
  destruct (for_entries_ok normalize_site ss) as [ss' Hss'].
  { eapply Forall_impl; [exact Hnn|]. intros kv. apply normalize_site_ok. }
  exists ss'. destruct (for_entries_lookup _ _ _ Hss') as [Hkeys Hl].
  split; [|split; [done|]].
  - unfold normalizeConfig. simpl. rewrite Hsites. simpl. by rewrite Hss'.
  - intros k e Hk. destruct (Hl _ _ Hk) as (x' & Hx' & Hk').
    rewrite normalize_site_obj in Hx'. injection Hx' as <-.
    exists (normalized_entry e). split; [done|]. split; [|split].
    + apply normalized_entry_rename.
    + apply normalized_entry_drop.
    + apply normalized_entry_keep.
Qed.

(** *** Validation *)

Lemma get_prop (v : jsval) (k : string) :
  nullish v = false -> get v k = Ok (prop v k).
Proof.
  unfold prop. destruct v as [[|b|n|x|l|o]|]; simpl; try done.
  destruct (decide (k = "length")); [done|].
  by destruct (array_index k).
Qed.

Lemma truthy_not_nullish (v : jsval) : truthy v = true -> nullish v = false.
Proof. by destruct v as [[]|]. Qed.

Lemma token_check_eq (authToken : jsval) :
  match authToken with
  | Some (VStr s) => negb (blank s)
  | Some (VObj _) | Some (VArr _) =>
    negb (length (own_entries authToken) =? 0)%nat
  | _ => false
  end = token_ok is_object authToken.
Proof. by destruct authToken as [[]|]. Qed.

#[local] Opaque get.

Lemma validate_site_eq (e : value) :
  e <> VNull -> validate_site e = Ok (valid_entry is_object e).
Proof.
  intros Hnn. unfold validate_site, valid_entry, effective_fragment, present.
  assert (nullish (Some e) = false) as He by by destruct e.
  rewrite (get_prop _ "url" He). simpl.
  destruct (truthy (prop (Some e) "url")); simpl; [|done].
  unfold getClaudeConfig. simpl.
  rewrite (get_prop _ "claude" He). simpl.
  assert (forall F : jsval, truthy F = true ->
    (env ← get F "env";
     if negb (truthy env) then Ok false
     else
       authToken ← get env "ANTHROPIC_AUTH_TOKEN";
       if negb (truthy authToken) then Ok false
       else
         hasBaseUrl ← get env "ANTHROPIC_BASE_URL";
         hasVertexBaseUrl ← get env "ANTHROPIC_VERTEX_BASE_URL";
         if truthy hasBaseUrl && truthy hasVertexBaseUrl then Ok false
         else if negb (truthy hasBaseUrl) && negb (truthy hasVertexBaseUrl)
         then Ok false
         else if truthy hasBaseUrl && negb (typeof_string hasBaseUrl)
         then Ok false
         else if truthy hasVertexBaseUrl && negb (typeof_string hasVertexBaseUrl)
         then Ok false
         else
           match authToken with
           | Some (VStr s) => Ok (negb (blank s))
           | Some (VObj _) | Some (VArr _) =>
             Ok (negb (length (own_entries authToken) =? 0)%nat)
           | _ => Ok false
           end) =
    Ok (truthy F
        && truthy (prop F "env")
        && truthy (prop (prop F "env") "ANTHROPIC_AUTH_TOKEN")
        && xorb (truthy (prop (prop F "env") "ANTHROPIC_BASE_URL"))
                (truthy (prop (prop F "env") "ANTHROPIC_VERTEX_BASE_URL"))
        && (if truthy (prop (prop F "env") "ANTHROPIC_BASE_URL")
            then typeof_string (prop (prop F "env") "ANTHROPIC_BASE_URL")
            else true)
        && (if truthy (prop (prop F "env") "ANTHROPIC_VERTEX_BASE_URL")
            then typeof_string (prop (prop F "env") "ANTHROPIC_VERTEX_BASE_URL")
            else true)
        && token_ok is_object (prop (prop F "env") "ANTHROPIC_AUTH_TOKEN")))
    as Hbody.
  { intros F HF. rewrite HF.
    rewrite (get_prop _ "env" (truthy_not_nullish _ HF)). simpl.
    destruct (truthy (prop F "env")) eqn:Henv; simpl; [|done].
    apply truthy_not_nullish in Henv.
    rewrite (get_prop _ "ANTHROPIC_AUTH_TOKEN" Henv). simpl.
    destruct (truthy (prop (prop F "env") "ANTHROPIC_AUTH_TOKEN")); simpl;
      [|done].
    rewrite (get_prop _ "ANTHROPIC_BASE_URL" Henv). simpl.
    rewrite (get_prop _ "ANTHROPIC_VERTEX_BASE_URL" Henv). simpl.
    rewrite <- token_check_eq.
    destruct (truthy (prop (prop F "env") "ANTHROPIC_BASE_URL"));
      destruct (truthy (prop (prop F "env") "ANTHROPIC_VERTEX_BASE_URL"));
      simpl; try done.
    - destruct (typeof_string (prop (prop F "env") "ANTHROPIC_BASE_URL"));
        simpl; [|done].
      by destruct (prop (prop F "env") "ANTHROPIC_AUTH_TOKEN") as [[]|].
    - destruct (typeof_string (prop (prop F "env") "ANTHROPIC_VERTEX_BASE_URL"));
        simpl; [|done].
      by destruct (prop (prop F "env") "ANTHROPIC_AUTH_TOKEN") as [[]|]. }
  destruct (truthy (prop (Some e) "claude")) eqn:Hcl.
  - by apply Hbody.
  - rewrite (get_prop _ "config" He). simpl.
    destruct (truthy (prop (Some e) "config")) eqn:Hcfg.
    + by apply Hbody.
    + reflexivity.
Qed.

#[local] Transparent get.

Lemma validate_site_null : validate_site VNull <> Ok true.
Proof. done. Qed.

Lemma validate_sites_iff (entries : list value) :
  validate_sites entries = Ok true <->
  forallb (valid_entry is_object) entries = true.
Proof.
  induction entries as [|e entries IH]; simpl; [done|].
  assert (e = VNull \/ e <> VNull) as [->|Hnn]
    by (destruct e; [by left|by right..]); [done|].
  rewrite validate_site_eq by done. simpl.
  destruct (valid_entry is_object e); simpl; [exact IH|done].
Qed.

(** The amended C6.  [validateConfig] returns true exactly on a store that
    is an object with a [sites] object whose entries each have a [url],
    resolve to an effective fragment, have [env.ANTHROPIC_AUTH_TOKEN], have
    exactly one of the two base URLs, a string, and have an auth token that
    is a string, non-blank after trimming, or a non-null object (a mapping
    or an array) with at least one entry. *)
Theorem validateConfig_iff (config : jsval) :
  validateConfig config = Ok true <-> valid_store is_object config = true.
Proof.
  unfold validateConfig, valid_store.
  destruct config as [[|b|n|x|l|o]|]; simpl; try done.
  - by destruct (negb b).
  - by destruct (negb (negb (n =? 0)%Z)).
  - by destruct (negb (negb (bool_decide (x = EmptyString)))).
  - unfold prop. simpl.
    destruct (lookup_prop "sites" o) as [sites|]; simpl; [|done].
    destruct sites as [|b|n|x|l|o']; simpl; try done.
    + by destruct (negb b).
    + by destruct (negb (negb (n =? 0)%Z)).
    + by destruct (negb (negb (bool_decide (x = EmptyString)))).
    + apply validate_sites_iff.
    + apply validate_sites_iff.
Qed.

(** *** Loading the store *)

Lemma ensureConfigDir_ok (w : world) :
  dir_error (disk w) = None -> ensureConfigDir w = (Ok tt, w).
Proof.
  intros Hd. unfold ensureConfigDir, try_catch, mbind, io_bind, ensureDir.
  rewrite Hd. simpl. by rewrite Hd.
Qed.

Lemma ensureConfigDir_fails (w : world) (msg : string) :
  dir_error (disk w) = Some msg ->
  ensureConfigDir w = (Err (Error ("创建配置目录失败: " +:+ msg)), w).
Proof.
  intros Hd. unfold ensureConfigDir, try_catch, mbind, io_bind, ensureDir.
  by rewrite Hd.
Qed.

Lemma load_store_content (w : world) (v : value) :
  dir_error (disk w) = None -> store (disk w) = Content v ->
  load_store w = (alias_sites v, w).
Proof.
  intros Hd Hs. unfold load_store, mbind, io_bind.
  rewrite ensureConfigDir_ok by done.
  unfold pathExists, readJson, lift. simpl. rewrite Hs. simpl. by rewrite Hs.
Qed.

Lemma load_store_absent (w : world) :
  dir_error (disk w) = None -> store (disk w) = Absent ->
  load_store w = (Err missing_error, w).
Proof.
  intros Hd Hs. unfold load_store, mbind, io_bind.
  rewrite ensureConfigDir_ok by done.
  unfold pathExists, throw. simpl. by rewrite Hs.
Qed.

Lemma load_store_malformed (w : world) (msg : string) :
  dir_error (disk w) = None -> store (disk w) = Malformed msg ->
  load_store w = (Err (SyntaxError msg), w).
Proof.
  intros Hd Hs. unfold load_store, mbind, io_bind.
  rewrite ensureConfigDir_ok by done.
  unfold pathExists, readJson. simpl. rewrite Hs. simpl. by rewrite Hs.
Qed.

Lemma load_store_unreadable (w : world) (msg : string) :
  dir_error (disk w) = None -> store (disk w) = Unreadable msg ->
  load_store w = (Err (SystemError msg), w).
Proof.
  intros Hd Hs. unfold load_store, mbind, io_bind.
  rewrite ensureConfigDir_ok by done.
  unfold pathExists, readJson. simpl. rewrite Hs. simpl. by rewrite Hs.
Qed.

Lemma load_store_no_dir (w : world) (msg : string) :
  dir_error (disk w) = Some msg ->
  load_store w = (Err (Error ("创建配置目录失败: " +:+ msg)), w).
Proof.
  intros Hd. unfold load_store, mbind, io_bind.
  by rewrite (ensureConfigDir_fails _ _ Hd).
Qed.

Lemma load_store_world (w w' : world) (r : result value) :
  load_store w = (r, w') -> w' = w.
Proof.
  destruct (dir_error (disk w)) as [msg|] eqn:Hd.
  - rewrite (load_store_no_dir _ _ Hd). by intros [= _ <-].
  - destruct (store (disk w)) as [|msg|msg|v] eqn:Hs.
    + rewrite load_store_absent by done. by intros [= _ <-].
    + rewrite (load_store_unreadable _ msg) by done. by intros [= _ <-].
    + rewrite (load_store_malformed _ msg) by done. by intros [= _ <-].
    + rewrite (load_store_content _ v) by done. by intros [= _ <-].
Qed.

Lemma getAllConfigs_content (w : world) (v v' : value) :
  dir_error (disk w) = None -> store (disk w) = Content v ->
  alias_sites v = Ok v' -> getAllConfigs w = (Ok v', w).
Proof.
  intros Hd Hs Ha. unfold getAllConfigs, try_catch.
  by rewrite (load_store_content _ v), Ha.
Qed.

Lemma getAllConfigs_world (w w' : world) (r : result value) :
  getAllConfigs w = (r, w') -> w' = w.
Proof.
  unfold getAllConfigs, try_catch.
  destruct (load_store w) as [[v|e] w1] eqn:Hl; apply load_store_world in Hl;
    subst w1.
  - by intros [= _ <-].
  - unfold rethrow_or_wrap, throw.
    destruct (includes missing_marker (message e)); by intros [= _ <-].
Qed.

Lemma for_entries_error (f : value -> result value) (o : props) (e : error) :
  for_entries f o = Err e -> exists x, f x = Err e.
Proof.
  induction o as [|[k x] o IH]; simpl; [done|].
  destruct (f x) as [x'|e'] eqn:Hx; simpl.
  - destruct (for_entries f o) as [r|e'] eqn:Hr; simpl; [done|].
    intros [= ->]. by apply IH.
  - intros [= ->]. by exists x.
Qed.

Lemma for_items_error (f : value -> result value) (l : list value) (e : error) :
  for_items f l = Err e -> exists x, f x = Err e.
Proof.
  induction l as [|x l IH]; simpl; [done|].
  destruct (f x) as [x'|e'] eqn:Hx; simpl.
  - destruct (for_items f l) as [r|e'] eqn:Hr; simpl; [done|].
    intros [= ->]. by apply IH.
  - intros [= ->]. by exists x.
Qed.

Lemma for_sites_error (f : value -> result value) (s : value) (e : error) :
  for_sites f s = Err e -> exists x, f x = Err e.
Proof.
  destruct s as [|b|n|x|l|o]; simpl; try done.
  - destruct (for_items f l) as [r|e'] eqn:Hr; simpl; [done|].
    intros [= ->]. by eapply for_items_error.
  - destruct (for_entries f o) as [r|e'] eqn:Hr; simpl; [done|].
    intros [= ->]. by eapply for_entries_error.
Qed.

Lemma alias_claude_obj (e : props) :
  alias_claude (VObj e) =
  Ok (VObj match when_truthy (lookup_prop "claude" e),
                 when_truthy (lookup_prop "config" e) with
           | Some c, None => obj_set e "config" c
           | _, _ => e
           end).
Proof.
  unfold alias_claude. simpl.
  destruct (when_truthy (lookup_prop "claude" e)) as [c|]; [|done].
  by destruct (when_truthy (lookup_prop "config" e)).
Qed.

Lemma alias_claude_ok (site : value) :
  site <> VNull -> exists site', alias_claude site = Ok site'.
Proof.
  intros Hnn. destruct site as [|b|n|x|l|e]; [done|..];
    try (eexists; reflexivity).
  rewrite alias_claude_obj. by eexists.
Qed.

Lemma alias_claude_error (site : value) (e : error) :
  alias_claude site = Err e -> exists m, e = TypeError m.
Proof.
  destruct site as [|b|n|x|l|o]; try done.
  - intros [= <-]. by eexists.
  - by rewrite alias_claude_obj.
Qed.

Lemma alias_sites_error (v : value) (e : error) :
  alias_sites v = Err e -> exists m, e = TypeError m.
Proof.
  unfold alias_sites. destruct v as [|b|n|x|l|o]; try done.
  - intros [= <-]. by eexists.
  - simpl. destruct (lookup_prop "sites" o) as [s|]; [|done].
    destruct (truthy (Some s)); [|done].
    destruct (for_sites alias_claude s) as [s'|e'] eqn:Hs; simpl; [done|].
    intros [= ->]. apply for_sites_error in Hs as [x Hx].
    by eapply alias_claude_error.
Qed.

Lemma wrapped_not_missing (m : string) :
  Error ("读取配置文件失败: " +:+ m) <> missing_error.
Proof. discriminate. Qed.

(** The amended C8.  [getAllConfigs] throws the store-file-missing error,
    unwrapped, only when the store file is absent, and does so whenever the
    file is absent and the configuration directories can be ensured.  Any
    other failure of the load is wrapped as a read error when its message
    does not contain the marker of the missing-file error, and thrown again
    as it is when its message contains the marker.  [getSettings] and
    [getClaudeConfigJson] return the empty object when their document is
    absent, unreadable or malformed. *)
Theorem getAllConfigs_errors (w : world) :
  ((getAllConfigs w).1 = Err missing_error -> store (disk w) = Absent) /\
  (dir_error (disk w) = None -> store (disk w) = Absent ->
   getAllConfigs w = (Err missing_error, w)) /\
  (forall e w', load_store w = (Err e, w') ->
     getAllConfigs w =
     (Err (if includes missing_marker (message e) then e
           else Error ("读取配置文件失败: " +:+ message e)), w')) /\
  (forall msg, dir_error (disk w) = None -> store (disk w) = Malformed msg ->
     includes missing_marker msg = false ->
     getAllConfigs w = (Err (Error ("读取配置文件失败: " +:+ msg)), w)) /\
  ((forall v, settings (disk w) <> Content v) ->
   getSettings w = (Ok (VObj []), w)) /\
  ((forall v, claude_json (disk w) <> Content v) ->
   getClaudeConfigJson w = (Ok (VObj []), w)).
Proof.
  split; [|split; [|split; [|split; [|split]]]].
  - unfold getAllConfigs, try_catch.
    destruct (dir_error (disk w)) as [msg|] eqn:Hd.
    { rewrite (load_store_no_dir _ _ Hd). unfold rethrow_or_wrap, throw.
      simpl. by destruct (includes _ _). }
    destruct (store (disk w)) as [|msg|msg|v] eqn:Hs; [done|..].
    + rewrite (load_store_unreadable _ msg) by done.
      unfold rethrow_or_wrap, throw. simpl. by destruct (includes _ _).
    + rewrite (load_store_malformed _ msg) by done.
      unfold rethrow_or_wrap, throw. simpl. by destruct (includes _ _).
    + rewrite (load_store_content _ v) by done.
      destruct (alias_sites v) as [v'|e] eqn:Ha; [done|].
      unfold rethrow_or_wrap, throw.
      apply alias_sites_error in Ha as [m ->].
      simpl. by destruct (includes _ _).
  - intros Hd Hs. unfold getAllConfigs, try_catch.
    by rewrite load_store_absent.
  - intros e w' Hl. unfold getAllConfigs, try_catch. rewrite Hl.
    unfold rethrow_or_wrap, throw. by destruct (includes _ _).
  - intros msg Hd Hs Hm. unfold getAllConfigs, try_catch.
    rewrite (load_store_malformed _ msg) by done.
    unfold rethrow_or_wrap, throw. simpl. by rewrite Hm.
  - intros Hv. unfold getSettings, try_catch, mbind, io_bind, pathExists,
      readJson. simpl.
    destruct (settings (disk w)) as [|m|m|v'] eqn:Hs; simpl; rewrite ?Hs;
      try done.
    by destruct (Hv v').
  - intros Hv. unfold getClaudeConfigJson, try_catch, mbind, io_bind,
      pathExists, readJson. simpl.
    destruct (claude_json (disk w)) as [|m|m|v'] eqn:Hs; simpl; rewrite ?Hs;
      try done.
    by destruct (Hv v').
Qed.

Lemma for_entries_nonnull (f : value -> result value) (o o' : props) :
  (forall x x', f x = Ok x' -> x' <> VNull) ->
  for_entries f o = Ok o' -> Forall (fun kv => kv.2 <> VNull) o'.
Proof.
  intros Hf. revert o'. induction o as [|[k x] o IH]; intros o'; simpl.
  - intros [= <-]. constructor.
  - destruct (f x) as [x'|] eqn:Hx; [|done]. simpl.
    destruct (for_entries f o) as [r|] eqn:Hr; [|done]. simpl.
    intros [= <-]. constructor; [by eapply Hf|by apply IH].
Qed.

Lemma alias_claude_nonnull (site site' : value) :
  alias_claude site = Ok site' -> site' <> VNull.
Proof.
  destruct site as [|b|n|s|l|e]; try (by intros [= <-]).
  rewrite alias_claude_obj. by intros [= <-].
Qed.

Lemma alias_sites_entries (so ss : props) :
  lookup_prop "sites" so = Some (VObj ss) ->
  Forall (fun kv => kv.2 <> VNull) ss ->
  exists ss',
    for_entries alias_claude ss = Ok ss' /\
    alias_sites (VObj so) = Ok (VObj (replace_prop "sites" (VObj ss') so)) /\
    Forall (fun kv => kv.2 <> VNull) ss'.
Proof.
  intros Hsites Hnn.
  destruct (for_entries_ok alias_claude ss) as [ss' Hss'].
  { eapply Forall_impl; [exact Hnn|]. intros kv. apply alias_claude_ok. }
  exists ss'. split; [done|]. split.
  - unfold alias_sites. simpl. rewrite Hsites. simpl. by rewrite Hss'.
  - eapply for_entries_nonnull; [|exact Hss']. apply alias_claude_nonnull.
Qed.

(** The amended C1.  On a parsed store whose [sites] is a mapping of site
    entries, [getAllConfigs] returns the store with, for every entry that has
    a [claude] field and no [config] field, the fragment copied into
    [config]; no field is deleted or changed, an entry without [claude] or
    with a [config] is returned as it is, and so after the load every entry
    with a [claude] field has a [config] field. *)
Theorem getAllConfigs_aliases (w : world) (o ss : props) :
  dir_error (disk w) = None ->
  store (disk w) = Content (VObj o) ->
  lookup_prop "sites" o = Some (VObj ss) ->
  Forall (fun kv => kv.2 <> VNull) ss ->
  exists ss',
    getAllConfigs w = (Ok (VObj (replace_prop "sites" (VObj ss') o)), w) /\
    ss'.*1 = ss.*1 /\
    forall k e, lookup_prop k ss = Some (VObj e) ->
      exists e',
        lookup_prop k ss' = Some (VObj e') /\
        (forall f, f <> "config" -> lookup_prop f e' = lookup_prop f e) /\
        (present (lookup_prop "claude" e) = true ->
         present (lookup_prop "config" e) = false ->
         lookup_prop "config" e' = lookup_prop "claude" e) /\
        (present (lookup_prop "claude" e) = false \/
         present (lookup_prop "config" e) = true -> e' = e) /\
        (present (lookup_prop "claude" e') = true ->
         present (lookup_prop "config" e') = true).
Proof.
  intros Hd Hs Hsites Hnn.
  destruct (alias_sites_entries o ss Hsites Hnn) as (ss' & Hss' & Halias & _).
  exists ss'. destruct (for_entries_lookup _ _ _ Hss') as [Hkeys Hl].
  split; [|split; [done|]].
  - by apply (getAllConfigs_content _ (VObj o)).
  - intros k e Hk. destruct (Hl _ _ Hk) as (x' & Hx' & Hk').
    rewrite alias_claude_obj in Hx'. injection Hx' as <-.
    eexists. split; [exact Hk'|]. unfold present.
    destruct (when_truthy (lookup_prop "claude" e)) as [c|] eqn:Hc.
    + apply when_truthy_Some in Hc as [Hc Hct].
      destruct (when_truthy (lookup_prop "config" e)) as [c'|] eqn:Hc'.
      * apply when_truthy_Some in Hc' as [Hc' Hct'].
        repeat split; try done. intros _ Hf. by rewrite Hct' in Hf.
      * apply when_truthy_None_iff in Hc'.
        split; [|split; [|split]].
        -- intros f Hf. by apply lookup_obj_set_ne.
        -- intros _ _. by rewrite lookup_obj_set_eq.
        -- intros [Hf|Hf]; [by rewrite Hct in Hf|by rewrite Hc' in Hf].
        -- intros _. by rewrite lookup_obj_set_eq, <- Hc.
    + apply when_truthy_None_iff in Hc.
      repeat split; try done.
      * intros Hf. by rewrite Hc in Hf.
      * intros Hf. by rewrite Hc in Hf.
Qed.

(** *** Notifications *)









Lemma checkNotificationStatus_content (w : world) (v : value) :
  settings (disk w) = Content v ->
  checkNotificationStatus w =
  (Ok match status_of v with Ok b => b | Err _ => false end, w).
Proof.
  intros Hs. unfold checkNotificationStatus, try_catch, mbind, io_bind,
    pathExists, readJson, lift. simpl. rewrite Hs. simpl. rewrite Hs.
  by destruct (status_of v).
Qed.

Lemma get_Ok_prop (v : jsval) (k : string) (x : jsval) :
  get v k = Ok x -> x = prop v k.
Proof. intros H. unfold prop. by rewrite H. Qed.

Lemma get_opt_Ok_prop (v : jsval) (k : string) (x : jsval) :
  get_opt v k = Ok x -> x = prop v k.
Proof.
  unfold get_opt. destruct (nullish v) eqn:Hn.
  - intros [= <-]. by destruct v as [[]|].
  - apply get_Ok_prop.
Qed.



#[local] Opaque get.





#[local] Transparent get.

Lemma addNotificationHooks_content (w : world) (v v' : value) :
  write_error (disk w) = None ->
  settings (disk w) = Content v ->
  with_hooks v = Ok v' ->
  addNotificationHooks w =
  (Ok tt, World (put_file SettingsPath (Content v') (disk w)) (mem w) (clock w)).
Proof.
  intros Hw Hs Hv.
  unfold addNotificationHooks, mbind, io_bind, pathExists, readJson, lift,
    writeJson. simpl. rewrite Hs. simpl. rewrite Hs, Hv. simpl.
  rewrite Hw. reflexivity.
Qed.



(** *** Computations *)

Lemma bind_Ok {A B : Type} (m : io A) (k : A -> io B) (w w' : world) (b : B) :
  (m ≫= k) w = (Ok b, w') ->
  exists a w1, m w = (Ok a, w1) /\ k a w1 = (Ok b, w').
Proof.
  unfold mbind, io_bind. destruct (m w) as [[a|e] w1]; [|done].
  intros H. by exists a, w1.
Qed.

Lemma lift_Ok {A : Type} (r : result A) (w w' : world) (a : A) :
  lift r w = (Ok a, w') -> r = Ok a /\ w' = w.
Proof. unfold lift. by intros [= -> ->]. Qed.

Lemma try_catch_throw_Ok {A : Type} (body : io A) (f : error -> error)
    (w w' : world) (a : A) :
  try_catch body (fun e => throw (f e)) w = (Ok a, w') ->
  body w = (Ok a, w').
Proof.
  unfold try_catch, throw. destruct (body w) as [[a'|e] w1]; [done|done].
Qed.

Lemma getSettings_document (w : world) :
  getSettings w = (Ok (document (settings (disk w))), w).
Proof.
  unfold getSettings, try_catch, mbind, io_bind, pathExists, readJson. simpl.
  destruct (settings (disk w)) as [|m|m|v] eqn:Hs; simpl; rewrite ?Hs; done.
Qed.

Lemma getClaudeConfigJson_document (w : world) :
  getClaudeConfigJson w = (Ok (document (claude_json (disk w))), w).
Proof.
  unfold getClaudeConfigJson, try_catch, mbind, io_bind, pathExists, readJson.
  simpl.
  destruct (claude_json (disk w)) as [|m|m|v] eqn:Hs; simpl; rewrite ?Hs; done.
Qed.

Lemma ensureConfigDir_Ok (w w' : world) :
  ensureConfigDir w = (Ok tt, w') -> dir_error (disk w) = None /\ w' = w.
Proof.
  destruct (dir_error (disk w)) as [msg|] eqn:Hd.
  - by rewrite (ensureConfigDir_fails _ _ Hd).
  - rewrite ensureConfigDir_ok by done. by intros [= <-].
Qed.

Lemma writeJson_Ok (p : path) (v : value) (w w' : world) :
  writeJson p v w = (Ok tt, w') ->
  write_error (disk w) = None /\
  w' = World (put_file p (Content v) (disk w)) (mem w) (clock w).
Proof.
  unfold writeJson. destruct (write_error (disk w)); [done|].
  by intros [= <-].
Qed.

Lemma saveSettings_Ok (v : value) (w w' : world) :
  saveSettings v w = (Ok tt, w') ->
  w' = World (put_file SettingsPath (Content v) (disk w)) (mem w) (clock w).
Proof.
  unfold saveSettings. intros H. apply try_catch_throw_Ok in H.
  apply bind_Ok in H as ([] & w1 & H1 & H2).
  apply ensureConfigDir_Ok in H1 as [_ ->].
  by apply writeJson_Ok in H2 as [_ ->].
Qed.

Lemma saveClaudeConfigJson_Ok (v : value) (w w' : world) :
  saveClaudeConfigJson v w = (Ok tt, w') ->
  w' = World (put_file ClaudeConfigPath (Content v) (disk w)) (mem w) (clock w).
Proof.
  unfold saveClaudeConfigJson. intros H. apply try_catch_throw_Ok in H.
  apply bind_Ok in H as ([] & w1 & H1 & H2).
  apply ensureConfigDir_Ok in H1 as [_ ->].
  by apply writeJson_Ok in H2 as [_ ->].
Qed.

(** What a successful [saveCurrentConfig] has done: the store was loaded,
    the snapshot put under [currentConfig], the result normalised and
    written back. *)
Lemma saveCurrentConfig_Ok (config : record) (w w' : world) :
  saveCurrentConfig config w = (Ok tt, w') ->
  exists allConfigs saved withCurrent normalized,
    getAllConfigs w = (Ok allConfigs, w) /\
    serialise (mem w)
      [("site", field config "site"); ("siteName", field config "siteName");
       ("url", field config "url"); ("urlName", field config "urlName");
       ("token", field config "token"); ("tokenName", field config "tokenName");
       ("updatedAt", Some (HStr (clock w)))] = Ok saved /\
    set (Some allConfigs) "currentConfig" (VObj saved) = Ok withCurrent /\
    normalizeConfig withCurrent = Ok normalized /\
    w' = World (put_file StorePath (Content normalized) (disk w)) (mem w) (clock w).
Proof.
  unfold saveCurrentConfig. intros H. apply try_catch_throw_Ok in H.
  apply bind_Ok in H as ([] & w1 & H1 & H).
  apply ensureConfigDir_Ok in H1 as [_ ->].
  apply bind_Ok in H as (stamp & w1 & H1 & H).
  injection H1 as <- <-.
  apply bind_Ok in H as (allConfigs & w1 & H1 & H).
  pose proof (getAllConfigs_world _ _ _ H1) as ->.
  apply bind_Ok in H as (h & w1 & Hh & H). injection Hh as <- <-.
  apply bind_Ok in H as (saved & w1 & Hs & H). apply lift_Ok in Hs as [Hs ->].
  apply bind_Ok in H as (withCurrent & w1 & Hc & H).
  apply lift_Ok in Hc as [Hc ->].
  apply bind_Ok in H as (normalized & w1 & Hn & H).
  apply lift_Ok in Hn as [Hn ->].
  apply writeJson_Ok in H as [_ ->].
  by exists allConfigs, saved, withCurrent, normalized.
Qed.

(** *** The switch *)

(** What a successful [switchConfig] has done. *)
Lemma switchConfig_Ok (site token : string) (sc : hjsval) (w w' : world)
    (snap : record) :
  switchConfig site token sc w = (Ok snap, w') ->
  exists claudeConfig env rawTokens tokenName baseUrl w1 cleared h1
         configToMerge configJson,
    getClaudeConfig (H := heap_reader (mem w)) sc = Ok claudeConfig /\
    h_get (mem w) claudeConfig "env" = Ok env /\
    h_get (mem w) env "ANTHROPIC_AUTH_TOKEN" = Ok rawTokens /\
    token_label (mem w) rawTokens token = Ok tokenName /\
    h_get (mem w) env "ANTHROPIC_BASE_URL" = Ok baseUrl /\
    snap = [("site", Some (HStr site)); ("siteName", Some (HStr site));
            ("ANTHROPIC_BASE_URL", baseUrl); ("token", Some (HStr token));
            ("tokenName", HStr <$> tokenName)] /\
    saveCurrentConfig snap w = (Ok tt, w1) /\
    clear_settings (document (settings (disk w))) = Ok cleared /\
    (if h_truthy env && h_truthy rawTokens
     then h_set (mem w) env "ANTHROPIC_AUTH_TOKEN" (HStr token) = Ok h1
     else h1 = mem w) /\
    copy_of h1 claudeConfig = Ok configToMerge /\
    w' = World (put_file ClaudeConfigPath (Content configJson)
                  (put_file SettingsPath
                     (Content (deepMerge (Some cleared) configToMerge))
                     (disk w1)))
               h1 (clock w).
Proof.
  unfold switchConfig. intros H. apply try_catch_throw_Ok in H.
  apply bind_Ok in H as (h & w0 & Hh & H). injection Hh as <- <-.
  apply bind_Ok in H as (claudeConfig & w0 & Hc & H).
  apply lift_Ok in Hc as [Hc ->].
  apply bind_Ok in H as (env & w0 & He & H). apply lift_Ok in He as [He ->].
  apply bind_Ok in H as (rawTokens & w0 & Hr & H).
  apply lift_Ok in Hr as [Hr ->].
  apply bind_Ok in H as (tokenName & w0 & Ht & H).
  apply lift_Ok in Ht as [Ht ->].
  apply bind_Ok in H as (baseUrl & w0 & Hb & H). apply lift_Ok in Hb as [Hb ->].
  apply bind_Ok in H as ([] & w1 & Hsave & H).
  destruct (saveCurrentConfig_Ok _ _ _ Hsave)
    as (allConfigs & saved & withCurrent & normalized & _ & _ & _ & _ & Hw1).
  apply bind_Ok in H as (currentSettings & w0 & Hs & H).
  rewrite getSettings_document in Hs. injection Hs as <- <-.
  apply bind_Ok in H as (currentConfigJson & w0 & Hj & H).
  rewrite getClaudeConfigJson_document in Hj. injection Hj as <- <-.
  apply bind_Ok in H as (primaryApiKey & w0 & Hp & H).
  apply lift_Ok in Hp as [Hp ->].
  apply bind_Ok in H as (configJson1 & w0 & Hj1 & H).
  apply lift_Ok in Hj1 as [Hj1 ->].
  apply bind_Ok in H as (configJson2 & w0 & Hj2 & H).
  apply lift_Ok in Hj2 as [Hj2 ->].
  apply bind_Ok in H as (cleared & w0 & Hcl & H).
  apply lift_Ok in Hcl as [Hcl ->].
  apply bind_Ok in H as (mergeEnv & w0 & Hme & H).
  apply lift_Ok in Hme as [Hme ->].
  rewrite He in Hme. injection Hme as <-.
  apply bind_Ok in H as (mergeToken & w0 & Hmt & H).
  apply lift_Ok in Hmt as [Hmt ->].
  apply bind_Ok in H as ([] & w2 & Hmut & H).
  apply bind_Ok in H as (h1 & w0 & Hh1 & H). injection Hh1 as <- <-.
  apply bind_Ok in H as (configToMerge & w0 & Hcm & H).
  apply lift_Ok in Hcm as [Hcm ->].
  apply bind_Ok in H as ([] & w3 & Hss & H).
  apply saveSettings_Ok in Hss as ->.
  apply bind_Ok in H as ([] & w4 & Hsj & H).
  apply saveClaudeConfigJson_Ok in Hsj as ->.
  injection H as <- <-.
  exists claudeConfig, env, rawTokens, tokenName, baseUrl, w1, cleared, (mem w2),
    configToMerge, configJson2.
  assert (settings (disk w1) = settings (disk w)) as Hset1 by by subst w1.
  assert (mem w1 = mem w) as Hmem1 by by subst w1.
  assert (clock w1 = clock w) as Hclock1 by by subst w1.
  rewrite Hset1 in Hcl.
  repeat (split; [done|]).
  assert (disk w2 = disk w1 /\ clock w2 = clock w /\
          if h_truthy env && h_truthy rawTokens
          then h_set (mem w) env "ANTHROPIC_AUTH_TOKEN" (HStr token) = Ok (mem w2)
          else mem w2 = mem w) as (Hd2 & Hc2 & Hm2).
  { destruct (h_truthy env) eqn:Hte; simpl in *.
    - rewrite Hr in Hmt. injection Hmt as <-.
      destruct (h_truthy rawTokens).
      + apply bind_Ok in Hmut as (h' & w0 & Hset & Hput).
        apply lift_Ok in Hset as [Hset ->]. injection Hput as <-.
        simpl. by rewrite Hclock1.
      + injection Hmut as <-. by rewrite Hmem1, Hclock1.
    - injection Hmut as <-. by rewrite Hmem1, Hclock1. }
  split; [done|]. split; [done|].
  simpl. by rewrite Hd2, Hc2.
Qed.

Lemma h_get_field (h : heap) (l : loc) (o : hobj) (k : string) :
  h !! l = Some o -> k <> "length" ->
  h_get h (Some (HRef l)) k = Ok (lookup_prop k (fields o)).
Proof.
  intros Hl Hk. unfold h_get. rewrite Hl.
  rewrite (bool_decide_eq_false_2 _ Hk). destruct (is_array o); reflexivity.
Qed.

Lemma h_get_after_set (h : heap) (l : loc) (o : hobj) (x : hval)
    (v : hjsval) (k k' : string) :
  h !! l = Some o -> k' <> k -> k' <> "length" ->
  h_get (<[l := HObj (is_array o) (obj_set (fields o) k x)]> h) v k' =
  h_get h v k'.
Proof.
  intros Hl Hk Hlen. destruct v as [[| | | |l']|]; try done.
  destruct (decide (l' = l)) as [->|Hne].
  - erewrite h_get_field; [|apply lookup_insert_eq|done].
    rewrite (h_get_field _ l o) by done. simpl. by rewrite lookup_obj_set_ne.
  - assert (<[l := HObj (is_array o) (obj_set (fields o) k x)]> h !! l'
            = h !! l') as Hi by (by apply lookup_insert_ne).
    unfold h_get. by rewrite Hi.
Qed.

Lemma getClaudeConfig_after_set (h : heap) (l : loc) (o : hobj) (x : hval)
    (sc : hjsval) :
  h !! l = Some o ->
  getClaudeConfig
    (H := heap_reader
            (<[l := HObj (is_array o)
                         (obj_set (fields o) "ANTHROPIC_AUTH_TOKEN" x)]> h)) sc =
  getClaudeConfig (H := heap_reader h) sc.
Proof.
  intros Hl. unfold getClaudeConfig. simpl.
  by rewrite !(h_get_after_set h l o x sc "ANTHROPIC_AUTH_TOKEN") by done.
Qed.

(** C10.  A successful [switchConfig] on a site entry whose effective
    fragment declares [env.ANTHROPIC_AUTH_TOKEN] has written the chosen token
    into the [env] object of the caller's own fragment: the entry still
    resolves to the same fragment object with the same [env] object, whose
    [ANTHROPIC_AUTH_TOKEN] is now the token string and no longer the value it
    held. *)
Theorem switchConfig_mutates_entry (site token : string) (sc : hjsval)
    (w w' : world) (snap : record) (lf le : loc) (fo eo : hobj) (tv : hval) :
  getClaudeConfig (H := heap_reader (mem w)) sc = Ok (Some (HRef lf)) ->
  mem w !! lf = Some fo ->
  lookup_prop "env" (fields fo) = Some (HRef le) ->
  mem w !! le = Some eo ->
  lookup_prop "ANTHROPIC_AUTH_TOKEN" (fields eo) = Some tv ->
  h_truthy (Some tv) = true ->
  switchConfig site token sc w = (Ok snap, w') ->
  mem w' = <[le := HObj (is_array eo)
                        (obj_set (fields eo) "ANTHROPIC_AUTH_TOKEN"
                                 (HStr token))]> (mem w) /\
  getClaudeConfig (H := heap_reader (mem w')) sc = Ok (Some (HRef lf)) /\
  h_get (mem w') (Some (HRef lf)) "env" = Ok (Some (HRef le)) /\
  h_get (mem w') (Some (HRef le)) "ANTHROPIC_AUTH_TOKEN" = Ok (Some (HStr token)) /\
  (tv <> HStr token ->
   h_get (mem w') (Some (HRef le)) "ANTHROPIC_AUTH_TOKEN" <>
   h_get (mem w) (Some (HRef le)) "ANTHROPIC_AUTH_TOKEN").
Proof.
  intros Hfrag Hlf Henv Hle Htok Htruthy Hrun.
  destruct (switchConfig_Ok _ _ _ _ _ _ Hrun)
    as (cc & env & raw & name & base & w1 & cleared & h1 & cm & cj
        & Hcc & He & Hr & _ & _ & _ & _ & _ & Hmut & _ & ->).
  rewrite Hfrag in Hcc. injection Hcc as <-.
  rewrite (h_get_field _ _ _ "env" Hlf) in He by done.
  rewrite Henv in He. injection He as <-.
  rewrite (h_get_field _ _ _ "ANTHROPIC_AUTH_TOKEN" Hle) in Hr by done.
  rewrite Htok in Hr. injection Hr as <-.
  rewrite Htruthy in Hmut. simpl in Hmut. rewrite Hle in Hmut.
  injection Hmut as <-. cbn [mem].
  split; [done|]. split; [|split; [|split]].
  - by rewrite getClaudeConfig_after_set.
  - rewrite (h_get_after_set _ _ _ _ _ "ANTHROPIC_AUTH_TOKEN") by done.
    rewrite (h_get_field _ _ _ "env" Hlf) by done. by rewrite Henv.
  - erewrite h_get_field; [|apply lookup_insert_eq|done].
    simpl. by rewrite lookup_obj_set_eq.
  - intros Hne.
    erewrite h_get_field; [|apply lookup_insert_eq|done].
    rewrite (h_get_field _ le eo) by done. simpl.
    rewrite lookup_obj_set_eq, Htok. by intros [= <-].
Qed.

(** *** Trees of heap values *)








(** *** Clearing the live settings *)








Lemma truthy_kind (v : value) :
  truthy (Some v) = true -> v <> VNull.
Proof. by destruct v. Qed.

#[local] Arguments delete_keys : simpl never.




(** *** The name of the token *)




(** *** A switch that succeeds *)






Lemma bind_run {A B : Type} (m : io A) (k : A -> io B) (w w1 : world) (a : A) :
  m w = (Ok a, w1) -> (m ≫= k) w = k a w1.
Proof. intros H. unfold mbind, io_bind. by rewrite H. Qed.

(** [saveCurrentConfig] succeeds when the directories can be ensured, the
    store holds an object whose [sites] is a mapping of entries that are not
    null, the snapshot can be serialised and the store can be written. *)
Lemma saveCurrentConfig_runs (config : record) (w : world) (so ss saved : props) :
  dir_error (disk w) = None -> write_error (disk w) = None ->
  store (disk w) = Content (VObj so) ->
  lookup_prop "sites" so = Some (VObj ss) ->
  Forall (fun kv => kv.2 <> VNull) ss ->
  serialise (mem w)
    [("site", field config "site"); ("siteName", field config "siteName");
     ("url", field config "url"); ("urlName", field config "urlName");
     ("token", field config "token"); ("tokenName", field config "tokenName");
     ("updatedAt", Some (HStr (clock w)))] = Ok saved ->
  exists w1, saveCurrentConfig config w = (Ok tt, w1).
Proof.
  intros Hd Hw Hs Hsites Hnn Hser.
  destruct (alias_sites_entries so ss Hsites Hnn) as (ss' & _ & Halias & Hnn').
  pose proof (getAllConfigs_content w (VObj so) _ Hd Hs Halias) as Hall.
  destruct (for_entries_ok normalize_site ss') as [ss2 Hss2].
  { eapply Forall_impl; [exact Hnn'|]. intros kv. apply normalize_site_ok. }
  eexists. unfold saveCurrentConfig, try_catch.
  erewrite bind_run; [|by apply ensureConfigDir_ok].
  erewrite bind_run; [|reflexivity].
  erewrite bind_run; [|exact Hall].
  erewrite bind_run; [|reflexivity].
  rewrite Hser.
  erewrite bind_run; [|reflexivity].
  erewrite bind_run; [|reflexivity].
  unfold normalizeConfig. simpl.
  rewrite lookup_obj_set_ne by done.
  rewrite lookup_replace_prop_eq, Hsites. simpl. rewrite Hss2. simpl.
  erewrite bind_run; [|reflexivity].
  unfold writeJson. rewrite Hw. reflexivity.
Qed.


Lemma reify_str (h : heap) (s : string) : reify h (HStr s) = Some (VStr s).
Proof. unfold reify. by destruct (size h). Qed.

Lemma serialise_str (h : heap) (k s : string) :
  serialise_field h k (Some (HStr s)) = Ok [(k, VStr s)].
Proof. unfold serialise_field. by rewrite reify_str. Qed.





(** *** The properties on the concrete inputs *)

Ltac by_computation := vm_compute; reflexivity.

Lemma NoDup_by_decide (l : list string) : bool_decide (NoDup l) = true -> NoDup l.
Proof. apply bool_decide_eq_true_1. Qed.

(** A store whose only entry is in the legacy format is loaded as it is:
    the entry has a [config] and, after the load, still no [claude]. *)
Lemma getAllConfigs_keeps_legacy_entry :
  getAllConfigs config_only_world = (Ok config_only_store, config_only_world) /\
  prop (prop (prop (Some config_only_store) "sites") "a") "config"
  = Some fragment_a /\
  prop (prop (prop (Some config_only_store) "sites") "a") "claude" = None.
Proof. split; [|split]; by_computation. Qed.

Lemma getAllConfigs_aliases_witness :
  dir_error (disk legacy_world) = None /\
  store (disk legacy_world) = Content legacy_store /\
  lookup_prop "sites" [("sites", VObj legacy_sites)] = Some (VObj legacy_sites) /\
  Forall (fun kv : string * value => kv.2 <> VNull) legacy_sites /\
  exists ss',
    getAllConfigs legacy_world =
    (Ok (VObj (replace_prop "sites" (VObj ss') [("sites", VObj legacy_sites)])),
     legacy_world) /\
    ss'.*1 = legacy_sites.*1.
Proof.
  assert (Forall (fun kv : string * value => kv.2 <> VNull) legacy_sites) as Hnn
    by (repeat constructor; discriminate).
  split; [reflexivity|]. split; [reflexivity|]. split; [reflexivity|].
  split; [exact Hnn|].
  destruct (getAllConfigs_aliases legacy_world [("sites", VObj legacy_sites)]
              legacy_sites eq_refl eq_refl eq_refl Hnn)
    as (ss' & Hload & Hkeys & _).
  exists ss'. by split.
Defined.


(** The examples of the specification. *)
Example deepMerge_nested :
  deepMerge (Some (VObj [("a", VObj [("x", VNum 9); ("z", VNum 5)])]))
            (VObj [("a", VObj [("x", VNum 1); ("y", VNum 2)])])
  = VObj [("a", VObj [("x", VNum 1); ("z", VNum 5); ("y", VNum 2)])].
Proof. reflexivity. Qed.

Example deepMerge_array :
  deepMerge (Some (VObj [("a", VArr [VNum 1; VNum 2; VNum 3])]))
            (VObj [("a", VArr [VNum 9])])
  = VObj [("a", VArr [VNum 9])].
Proof. reflexivity. Qed.

Lemma normalizeConfig_spec_witness :
  lookup_prop "sites" [("sites", VObj legacy_sites)] = Some (VObj legacy_sites) /\
  Forall (fun kv : string * value => kv.2 <> VNull) legacy_sites /\
  normalizeConfig legacy_store ≫= normalizeConfig = normalizeConfig legacy_store /\
  exists ss',
    normalizeConfig legacy_store =
    Ok (VObj (replace_prop "sites" (VObj ss') [("sites", VObj legacy_sites)])) /\
    ss'.*1 = legacy_sites.*1.
Proof.
  assert (Forall (fun kv : string * value => kv.2 <> VNull) legacy_sites) as Hnn
    by (repeat constructor; discriminate).
  split; [reflexivity|]. split; [exact Hnn|].
  destruct (normalizeConfig_spec legacy_store) as [Hidem Hentries].
  split; [exact Hidem|].
  destruct (Hentries [("sites", VObj legacy_sites)] legacy_sites
              eq_refl eq_refl Hnn) as (ss' & Hn & Hkeys & _).
  exists ss'. by split.
Defined.

(** A store whose tokens are an array is accepted, though an array is not a
    mapping. *)
Lemma validateConfig_accepts_array_token :
  validateConfig (Some array_token_store) = Ok true /\
  valid_store is_mapping (Some array_token_store) = false.
Proof. split; by_computation. Qed.

Lemma validateConfig_iff_witness :
  valid_store is_object (Some array_token_store) = true /\
  validateConfig (Some array_token_store) = Ok true.
Proof.
  assert (valid_store is_object (Some array_token_store) = true) as Hv
    by by_computation.
  split; [exact Hv|].
  exact (proj2 (validateConfig_iff (Some array_token_store)) Hv).
Defined.

(** A malformed store whose [SyntaxError] quotes the marker is thrown as it
    is, not wrapped as a read error, though the store file is there. *)
Lemma getAllConfigs_rethrows_quoting_error :
  getAllConfigs quoting_world = (Err (SyntaxError quoting_message), quoting_world) /\
  store (disk quoting_world) = Malformed quoting_message /\
  SyntaxError quoting_message <> Error ("读取配置文件失败: " +:+ quoting_message).
Proof. split; [by_computation|]. split; [reflexivity|discriminate]. Qed.

Lemma getAllConfigs_errors_witness :
  dir_error (disk absent_world) = None /\
  store (disk absent_world) = Absent /\
  getAllConfigs absent_world = (Err missing_error, absent_world).
Proof.
  split; [reflexivity|]. split; [reflexivity|].
  exact (proj1 (proj2 (getAllConfigs_errors absent_world)) eq_refl eq_refl).
Defined.

Lemma normalizeConfig_keeps_other_keys (o : props) (n : value) :
  normalizeConfig (VObj o) = Ok n ->
  exists o', n = VObj o' /\
    forall k, k <> "sites" -> lookup_prop k o' = lookup_prop k o.
Proof.
  unfold normalizeConfig. simpl.
  destruct (lookup_prop "sites" o) as [s|]; [|intros [= <-]; by exists o].
  destruct (truthy (Some s)); [|intros [= <-]; by exists o].
  destruct (for_sites normalize_site s) as [s'|]; [|done]. simpl.
  intros [= <-]. eexists. split; [done|].
  intros k Hk. by apply lookup_replace_prop_ne.
Qed.

(** What a successful switch has persisted as [currentConfig]: the site key
    twice, the token, its name when it has one, and the time of the write,
    but no [url], since the snapshot that [switchConfig] builds carries the
    base URL under [ANTHROPIC_BASE_URL] and [saveCurrentConfig] reads
    [config.url]. *)
Lemma switchConfig_persisted_snapshot (site token : string) (sc : hjsval)
    (w w' : world) (snap : record) :
  switchConfig site token sc w = (Ok snap, w') ->
  exists stored,
    store (disk w') = Content stored /\
    forall o, stored = VObj o ->
      exists saved,
        lookup_prop "currentConfig" o = Some (VObj saved) /\
        lookup_prop "site" saved = Some (VStr site) /\
        lookup_prop "siteName" saved = Some (VStr site) /\
        lookup_prop "token" saved = Some (VStr token) /\
        lookup_prop "updatedAt" saved = Some (VStr (clock w)) /\
        lookup_prop "url" saved = None /\
        lookup_prop "ANTHROPIC_BASE_URL" saved = None.
Proof.
  intros Hrun.
  destruct (switchConfig_Ok _ _ _ _ _ _ Hrun)
    as (cc & env & raw & name & base & w1 & cleared & h1 & cm & cj
        & _ & _ & _ & _ & _ & -> & Hsave & _ & _ & _ & ->).
  destruct (saveCurrentConfig_Ok _ _ _ Hsave)
    as (allConfigs & saved & withCurrent & normalized & _ & Hser & Hset & Hnorm
        & ->).
  exists normalized. split; [reflexivity|]. intros o ->.
  unfold field in Hser. simpl in Hser. rewrite !reify_str in Hser.
  simpl in Hser.
  destruct allConfigs as [|b|n|s|l|a]; try done.
  { injection Hset as <-. by injection Hnorm. }
  injection Hset as <-.
  destruct (normalizeConfig_keeps_other_keys _ _ Hnorm) as (o' & Ho' & Hkeys).
  injection Ho' as <-. exists saved.
  rewrite Hkeys by done. rewrite lookup_obj_set_eq. split; [done|].
  destruct name as [name|]; simpl in Hser.
  - rewrite ?reify_str in Hser. simpl in Hser. injection Hser as <-.
    by repeat split.
  - rewrite ?reify_str in Hser. simpl in Hser. injection Hser as <-.
    by repeat split.
Qed.

(** C2, at the switch of [switch_world] to the token named [Backup].  The
    fragment declares the base URL and the returned snapshot carries it
    under [ANTHROPIC_BASE_URL], but the snapshot persisted as
    [currentConfig] has the site key, the site name, the token, its name and
    the time of the write, and no [url]. *)
Theorem switchConfig_persists_no_url :
  h_get site_heap (Some (HRef 3%positive)) "ANTHROPIC_BASE_URL" =
    Ok (Some (HStr "https://api.x.example")) /\
  switched.1 = Ok backup_snapshot /\
  prop (Some (document (store (disk switched.2)))) "currentConfig" =
    Some (VObj [("site", VStr "x"); ("siteName", VStr "x");
                ("token", VStr "sk-def"); ("tokenName", VStr "Backup");
                ("updatedAt", VStr stamp)]) /\
  prop (prop (Some (document (store (disk switched.2)))) "currentConfig") "url"
  = None.
Proof. repeat split; by_computation. Qed.

Lemma switched_run :
  switchConfig "x" "sk-def" (Some (HRef 1%positive)) switch_world =
  (Ok backup_snapshot, switched.2).
Proof. by_computation. Defined.

Lemma switchConfig_mutates_entry_witness :
  getClaudeConfig (H := heap_reader (mem switch_world)) (Some (HRef 1%positive))
    = Ok (Some (HRef 2%positive)) /\
  mem switch_world !! 2%positive = Some fragment_object /\
  lookup_prop "env" (fields fragment_object) = Some (HRef 3%positive) /\
  mem switch_world !! 3%positive = Some env_object /\
  lookup_prop "ANTHROPIC_AUTH_TOKEN" (fields env_object) = Some (HRef 4%positive) /\
  h_truthy (Some (HRef 4%positive)) = true /\
  switchConfig "x" "sk-def" (Some (HRef 1%positive)) switch_world =
    (Ok backup_snapshot, switched.2) /\
  h_get (mem switched.2) (Some (HRef 3%positive)) "ANTHROPIC_AUTH_TOKEN" =
    Ok (Some (HStr "sk-def")).
Proof.
  assert (getClaudeConfig (H := heap_reader (mem switch_world))
            (Some (HRef 1%positive)) = Ok (Some (HRef 2%positive))) as H1
    by by_computation.
  assert (mem switch_world !! 2%positive = Some fragment_object) as H2
    by by_computation.
  assert (mem switch_world !! 3%positive = Some env_object) as H4
    by by_computation.
  repeat (split; [first [exact H1|exact H2|exact H4|exact switched_run
                        |reflexivity]|]).
  exact (proj1 (proj2 (proj2 (proj2
    (switchConfig_mutates_entry "x" "sk-def" (Some (HRef 1%positive))
       switch_world switched.2 backup_snapshot 2%positive 3%positive
       fragment_object env_object (HRef 4%positive)
       H1 H2 eq_refl H4 eq_refl eq_refl switched_run))))).
Defined.
Lemma switch_world_shape :
  getClaudeConfig (H := heap_reader (mem switch_world)) (Some (HRef 1%positive))
    = Ok (Some (HRef 2%positive)) /\
  mem switch_world !! 2%positive = Some fragment_object /\
  is_array fragment_object = false /\
  NoDup (fields fragment_object).*1 /\
  lookup_prop "env" (fields fragment_object) = Some (HRef 3%positive) /\
  mem switch_world !! 3%positive = Some env_object /\
  is_array env_object = false /\
  NoDup (fields env_object).*1 /\
  lookup_prop "ANTHROPIC_AUTH_TOKEN" (fields env_object) = Some (HRef 4%positive) /\
  mem switch_world !! 4%positive = Some tokens_object.
Proof.
  repeat split; try by_computation;
    apply NoDup_by_decide; by_computation.
Defined.





End Facts.

(** ** Further properties of the code *)

Module Behaviour.
Import JS Fs ConfigManager NotificationManager Ui Spec Shape Examples Facts.

(** *** The passes over the site entries *)

Lemma normalizeConfig_pass (c : value) :
  normalizeConfig c = sites_pass normalize_site c.
Proof. reflexivity. Qed.

Lemma alias_sites_pass (c : value) : alias_sites c = sites_pass alias_claude c.
Proof. reflexivity. Qed.

Lemma getAllConfigs_Ok (w w' : world) (all : value) :
  getAllConfigs w = (Ok all, w') ->
  w' = w /\ dir_error (disk w) = None /\
  exists v, store (disk w) = Content v /\ alias_sites v = Ok all.
Proof.
  intros H. pose proof (getAllConfigs_world _ _ _ H) as ->. split; [done|].
  unfold getAllConfigs, try_catch in H.
  assert (forall e, rethrow_or_wrap e w <> (Ok all, w)) as Hthrow.
  { intros e. unfold rethrow_or_wrap, throw. by destruct (includes _ _). }
  destruct (dir_error (disk w)) as [msg|] eqn:Hd.
  { rewrite (load_store_no_dir _ _ Hd) in H. by apply Hthrow in H. }
  split; [done|].
  destruct (store (disk w)) as [|m|m|v] eqn:Hs.
  - rewrite (load_store_absent _ Hd Hs) in H. by apply Hthrow in H.
  - rewrite (load_store_unreadable _ _ Hd Hs) in H. by apply Hthrow in H.
  - rewrite (load_store_malformed _ _ Hd Hs) in H. by apply Hthrow in H.
  - rewrite (load_store_content _ _ Hd Hs) in H. exists v. split; [done|].
    destruct (alias_sites v) as [a|e]; [by injection H as ->|by apply Hthrow in H].
Qed.

Lemma set_other_key (v : jsval) (k k' : string) (x r : value) :
  set v k x = Ok r -> k' <> k -> prop (Some r) k' = prop v k'.
Proof.
  intros H Hk. destruct v as [[|b|n|s|l|o]|]; try done; injection H as <-.
  - done.
  - unfold prop. simpl. by rewrite lookup_obj_set_ne.
Qed.

Lemma set_same_key (o : props) (k : string) (x : value) :
  prop (Some (VObj (obj_set o k x))) k = Some x.
Proof. unfold prop. simpl. apply lookup_obj_set_eq. Qed.

Lemma sites_pass_obj (f : value -> result value) (o : props) (n : value) :
  sites_pass f (VObj o) = Ok n -> exists o', n = VObj o'.
Proof.
  unfold sites_pass. simpl.
  destruct (lookup_prop "sites" o) as [s|]; [|intros [= <-]; by eexists].
  destruct (truthy (Some s)); [|intros [= <-]; by eexists].
  destruct (for_sites f s) as [s'|]; [|done]. simpl. intros [= <-]. by eexists.
Qed.

Lemma sites_pass_other_key (f : value -> result value) (c n : value) (k : string) :
  sites_pass f c = Ok n -> k <> "sites" -> prop (Some n) k = prop (Some c) k.
Proof.
  unfold sites_pass. intros H Hk.
  destruct c as [|b|m|s|l|o]; simpl in H; try done;
    try (by injection H as <-).
  destruct (lookup_prop "sites" o) as [s|]; [|by injection H as <-].
    destruct (truthy (Some s)); [|by injection H as <-].
    destruct (for_sites f s) as [s'|]; [|done]. simpl in H. injection H as <-.
    unfold prop. simpl. by rewrite lookup_replace_prop_ne.
Qed.

Lemma for_items_ok (f : value -> result value) (l : list value) :
  Forall (fun x => exists x', f x = Ok x') l -> exists l', for_items f l = Ok l'.
Proof.
  induction 1 as [|x l [x' Hx] _ [l' Hl]]; [by exists []|].
  exists (x' :: l'). simpl. by rewrite Hx, Hl.
Qed.

Lemma for_items_nonnull (f : value -> result value) (l l' : list value) :
  (forall x x', f x = Ok x' -> x' <> VNull) ->
  for_items f l = Ok l' -> Forall (fun x => x <> VNull) l'.
Proof.
  intros Hf. revert l'. induction l as [|x l IH]; intros l' H; simpl in H.
  - injection H as <-. constructor.
  - destruct (f x) as [x'|] eqn:Hx; [|done]. simpl in H.
    destruct (for_items f l) as [l0|]; [|done]. injection H as <-.
    constructor; [by eapply Hf|by apply IH].
Qed.

Lemma normalize_site_nonnull (site site' : value) :
  normalize_site site = Ok site' -> site' <> VNull.
Proof.
  destruct site as [|b|n|s|l|e]; try done; try (by intros [= <-]).
  rewrite normalize_site_obj. by intros [= <-].
Qed.

(** A pass that leaves no [null] entry can be followed by any pass that
    succeeds on the entries that are not [null]. *)
Lemma sites_pass_then (f g : value -> result value) (c n : value) :
  (forall x x', f x = Ok x' -> x' <> VNull) ->
  (forall x, x <> VNull -> exists x', g x = Ok x') ->
  sites_pass f c = Ok n -> exists a, sites_pass g n = Ok a.
Proof.
  intros Hf Hg. unfold sites_pass. intros H.
  destruct c as [|b|m|s|l|o]; simpl in H; try done;
    try (injection H as <-; by eexists).
  destruct (lookup_prop "sites" o) as [s|] eqn:Hs;
      [|injection H as <-; simpl; rewrite Hs; by eexists].
    destruct (truthy (Some s)) eqn:Ht;
      [|injection H as <-; simpl; rewrite Hs, Ht; by eexists].
    destruct (for_sites f s) as [s'|] eqn:Hfs; [|done]. simpl in H.
    injection H as <-. simpl. rewrite lookup_replace_prop_eq, Hs.
    assert (exists s'', for_sites g s' = Ok s'') as [s'' Hs''].
    { destruct s as [|b|m|t|l|e]; simpl in Hfs; try (injection Hfs as <-; by eexists).
      - destruct (for_items f l) as [l'|] eqn:Hl; [|done]. injection Hfs as <-.
        simpl. destruct (for_items_ok g l') as [l'' Hl''].
        { eapply Forall_impl; [by eapply for_items_nonnull|]. intros x. apply Hg. }
        rewrite Hl''. by eexists.
      - destruct (for_entries f e) as [e'|] eqn:He; [|done]. injection Hfs as <-.
        simpl. destruct (for_entries_ok g e') as [e'' He''].
        { eapply Forall_impl; [by eapply for_entries_nonnull|].
          intros kv. apply Hg. }
        rewrite He''. by eexists. }
    rewrite Hs''. simpl.
    match goal with |- context [if ?b then _ else _] => destruct b end; by eexists.
Qed.

Lemma alias_after_normalize (c n : value) :
  normalizeConfig c = Ok n -> exists a, alias_sites n = Ok a.
Proof.
  apply sites_pass_then; [apply normalize_site_nonnull|apply alias_claude_ok].
Qed.

(** *** The current snapshots *)

Lemma or_null_truthy (x : value) : truthy (Some x) = true -> or_null (Some x) = x.
Proof. unfold or_null, when_truthy. by intros ->. Qed.

Lemma getCurrentConfig_eq (w : world) :
  getCurrentConfig w =
  (Ok match (getAllConfigs w).1 with
      | Ok all => or_null (prop (Some all) "currentConfig")
      | Err _ => VNull
      end, w).
Proof.
  unfold getCurrentConfig, try_catch, mbind, io_bind, lift, prop.
  destruct (getAllConfigs w) as [[all|e] w1] eqn:H;
    pose proof (getAllConfigs_world _ _ _ H) as ->; [|done].
  cbn [fst]. by destruct (get (Some all) "currentConfig").
Qed.

Lemma getCurrentCodexConfig_eq (w : world) :
  getCurrentCodexConfig w =
  (Ok match (getAllConfigs w).1 with
      | Ok all => or_null (prop (Some all) "currentCodexConfig")
      | Err _ => VNull
      end, w).
Proof.
  unfold getCurrentCodexConfig, try_catch, mbind, io_bind, lift, prop.
  destruct (getAllConfigs w) as [[all|e] w1] eqn:H;
    pose proof (getAllConfigs_world _ _ _ H) as ->; [|done].
  cbn [fst]. by destruct (get (Some all) "currentCodexConfig").
Qed.


Lemma saveCurrentCodexConfig_Ok (config : record) (w w' : world) :
  saveCurrentCodexConfig config w = (Ok tt, w') ->
  exists allConfigs saved withCurrent normalized,
    getAllConfigs w = (Ok allConfigs, w) /\
    serialise (mem w)
      [("site", field config "site"); ("siteName", field config "siteName");
       ("model", field config "model"); ("apiKey", field config "apiKey");
       ("apiKeyName", field config "apiKeyName");
       ("provider", field config "provider");
       ("providerName", field config "providerName");
       ("baseUrl", field config "baseUrl");
       ("updatedAt", Some (HStr (clock w)))] = Ok saved /\
    set (Some allConfigs) "currentCodexConfig" (VObj saved) = Ok withCurrent /\
    normalizeConfig withCurrent = Ok normalized /\
    w' = World (put_file StorePath (Content normalized) (disk w)) (mem w) (clock w).
Proof.
  unfold saveCurrentCodexConfig. intros H. apply try_catch_throw_Ok in H.
  apply bind_Ok in H as ([] & w1 & H1 & H).
  apply ensureConfigDir_Ok in H1 as [_ ->].
  apply bind_Ok in H as (stamp & w1 & H1 & H).
  injection H1 as <- <-.
  apply bind_Ok in H as (allConfigs & w1 & H1 & H).
  pose proof (getAllConfigs_world _ _ _ H1) as ->.
  apply bind_Ok in H as (h & w1 & Hh & H). injection Hh as <- <-.
  apply bind_Ok in H as (saved & w1 & Hs & H). apply lift_Ok in Hs as [Hs ->].
  apply bind_Ok in H as (withCurrent & w1 & Hc & H).
  apply lift_Ok in Hc as [Hc ->].
  apply bind_Ok in H as (normalized & w1 & Hn & H).
  apply lift_Ok in Hn as [Hn ->].
  apply writeJson_Ok in H as [_ ->].
  by exists allConfigs, saved, withCurrent, normalized.
Qed.

(** The store that a save has written loads again, and the load keeps every
    property of the loaded store that the save did not assign, [sites]
    apart. *)
Lemma reload_after_save (w : world) (all withCurrent normalized x : value)
    (key : string) :
  getAllConfigs w = (Ok all, w) ->
  set (Some all) key x = Ok withCurrent ->
  normalizeConfig withCurrent = Ok normalized ->
  exists all',
    getAllConfigs
      (World (put_file StorePath (Content normalized) (disk w)) (mem w) (clock w))
    = (Ok all',
       World (put_file StorePath (Content normalized) (disk w)) (mem w) (clock w)) /\
    forall k, k <> "sites" ->
      prop (Some all') k = prop (Some withCurrent) k.
Proof.
  intros Hall Hset Hnorm.
  destruct (getAllConfigs_Ok _ _ _ Hall) as (_ & Hd & _).
  destruct (alias_after_normalize _ _ Hnorm) as [all' Halias].
  exists all'. split.
  - by apply (getAllConfigs_content _ normalized).
  - intros k Hk. rewrite alias_sites_pass in Halias.
    rewrite (sites_pass_other_key _ _ _ _ Halias Hk).
    rewrite normalizeConfig_pass in Hnorm.
    by rewrite (sites_pass_other_key _ _ _ _ Hnorm Hk).
Qed.

(** X1.  [getCurrentConfig] and [getCurrentCodexConfig] never raise and
    change none of the documents.  They return [null] when the store cannot
    be loaded, whatever the reason, and otherwise what the store file holds
    under [currentConfig] and [currentCodexConfig], or [null] when that is
    missing or falsy. *)
Theorem current_snapshots_never_raise (w : world) :
  (exists v, getCurrentConfig w = (Ok v, w)) /\
  (exists v, getCurrentCodexConfig w = (Ok v, w)) /\
  (forall e, (getAllConfigs w).1 = Err e ->
     getCurrentConfig w = (Ok VNull, w) /\
     getCurrentCodexConfig w = (Ok VNull, w)) /\
  (forall v all, store (disk w) = Content v -> (getAllConfigs w).1 = Ok all ->
     getCurrentConfig w = (Ok (or_null (prop (Some v) "currentConfig")), w) /\
     getCurrentCodexConfig w =
     (Ok (or_null (prop (Some v) "currentCodexConfig")), w)).
Proof.
  rewrite getCurrentConfig_eq, getCurrentCodexConfig_eq.
  split; [by eexists|]. split; [by eexists|]. split.
  - by intros e ->.
  - intros v all Hv Hall. rewrite Hall.
    destruct (getAllConfigs w) as [r w1] eqn:H. simpl in Hall. subst r.
    destruct (getAllConfigs_Ok _ _ _ H) as (_ & _ & v' & Hv' & Halias).
    rewrite Hv in Hv'. injection Hv' as <-. rewrite alias_sites_pass in Halias.
    by rewrite !(sites_pass_other_key _ _ _ _ Halias).
Qed.

Lemma current_snapshots_never_raise_witness :
  (getAllConfigs absent_world).1 = Err missing_error /\
  getCurrentConfig absent_world = (Ok VNull, absent_world) /\
  getCurrentCodexConfig absent_world = (Ok VNull, absent_world).
Proof.
  assert ((getAllConfigs absent_world).1 = Err missing_error) as H
    by (vm_compute; reflexivity).
  split; [exact H|].
  exact (proj1 (proj2 (proj2 (current_snapshots_never_raise absent_world)))
           missing_error H).
Defined.

(** X2.  What [saveCurrentConfig] has saved, [getCurrentConfig] reads
    back: after a successful save into a store file that holds an object,
    [getCurrentConfig] returns the snapshot, that is the six fields of
    [config] that are defined and the time of the save. *)
Theorem saveCurrentConfig_round_trip (config : record) (w w' : world) (o : props) :
  store (disk w) = Content (VObj o) ->
  saveCurrentConfig config w = (Ok tt, w') ->
  exists saved,
    serialise (mem w)
      [("site", field config "site"); ("siteName", field config "siteName");
       ("url", field config "url"); ("urlName", field config "urlName");
       ("token", field config "token"); ("tokenName", field config "tokenName");
       ("updatedAt", Some (HStr (clock w)))] = Ok saved /\
    getCurrentConfig w' = (Ok (VObj saved), w').
Proof.
  intros Hstore Hsave.
  destruct (saveCurrentConfig_Ok _ _ _ Hsave)
    as (all & saved & withCurrent & normalized & Hall & Hser & Hset & Hnorm & ->).
  exists saved. split; [done|].
  destruct (getAllConfigs_Ok _ _ _ Hall) as (_ & _ & v & Hv & Halias).
  rewrite Hstore in Hv. injection Hv as <-.
  destruct (sites_pass_obj _ _ _ Halias) as [a ->].
  destruct (reload_after_save _ _ _ _ _ _ Hall Hset Hnorm) as (all' & Hload & Hkeys).
  rewrite getCurrentConfig_eq, Hload. cbn [fst].
  rewrite Hkeys by done. injection Hset as <-. by rewrite set_same_key.
Qed.

Lemma saved_claude_run :
  saveCurrentConfig backup_snapshot legacy_world = (Ok tt, saved_claude.2).
Proof. by_computation. Defined.

Lemma saveCurrentConfig_round_trip_witness :
  store (disk legacy_world) = Content (VObj [("sites", VObj legacy_sites)]) /\
  saveCurrentConfig backup_snapshot legacy_world = (Ok tt, saved_claude.2) /\
  exists saved,
    getCurrentConfig saved_claude.2 = (Ok (VObj saved), saved_claude.2).
Proof.
  split; [reflexivity|]. split; [exact saved_claude_run|].
  destruct (saveCurrentConfig_round_trip backup_snapshot legacy_world
              saved_claude.2 [("sites", VObj legacy_sites)] eq_refl
              saved_claude_run) as (saved & _ & Hget).
  exists saved. exact Hget.
Defined.

(** X3.  What [saveCurrentCodexConfig] has saved,
    [getCurrentCodexConfig] reads back: after a successful save into a store
    file that holds an object, it returns the snapshot, that is the eight
    fields of [config] that are defined and the time of the save. *)
Theorem saveCurrentCodexConfig_round_trip (config : record) (w w' : world)
    (o : props) :
  store (disk w) = Content (VObj o) ->
  saveCurrentCodexConfig config w = (Ok tt, w') ->
  exists saved,
    serialise (mem w)
      [("site", field config "site"); ("siteName", field config "siteName");
       ("model", field config "model"); ("apiKey", field config "apiKey");
       ("apiKeyName", field config "apiKeyName");
       ("provider", field config "provider");
       ("providerName", field config "providerName");
       ("baseUrl", field config "baseUrl");
       ("updatedAt", Some (HStr (clock w)))] = Ok saved /\
    getCurrentCodexConfig w' = (Ok (VObj saved), w').
Proof.
  intros Hstore Hsave.
  destruct (saveCurrentCodexConfig_Ok _ _ _ Hsave)
    as (all & saved & withCurrent & normalized & Hall & Hser & Hset & Hnorm & ->).
  exists saved. split; [done|].
  destruct (getAllConfigs_Ok _ _ _ Hall) as (_ & _ & v & Hv & Halias).
  rewrite Hstore in Hv. injection Hv as <-.
  destruct (sites_pass_obj _ _ _ Halias) as [a ->].
  destruct (reload_after_save _ _ _ _ _ _ Hall Hset Hnorm) as (all' & Hload & Hkeys).
  rewrite getCurrentCodexConfig_eq, Hload. cbn [fst].
  rewrite Hkeys by done. injection Hset as <-. by rewrite set_same_key.
Qed.

Lemma saved_codex_run :
  saveCurrentCodexConfig codex_snapshot legacy_world = (Ok tt, saved_codex.2).
Proof. by_computation. Defined.

Lemma saveCurrentCodexConfig_round_trip_witness :
  store (disk legacy_world) = Content (VObj [("sites", VObj legacy_sites)]) /\
  saveCurrentCodexConfig codex_snapshot legacy_world = (Ok tt, saved_codex.2) /\
  exists saved,
    getCurrentCodexConfig saved_codex.2 = (Ok (VObj saved), saved_codex.2).
Proof.
  split; [reflexivity|]. split; [exact saved_codex_run|].
  destruct (saveCurrentCodexConfig_round_trip codex_snapshot legacy_world
              saved_codex.2 [("sites", VObj legacy_sites)] eq_refl
              saved_codex_run) as (saved & _ & Hget).
  exists saved. exact Hget.
Defined.

(** X4.  The two snapshots do not disturb each other: a successful
    [saveCurrentCodexConfig] leaves what [getCurrentConfig] returns as it
    was, and a successful [saveCurrentConfig] leaves what
    [getCurrentCodexConfig] returns as it was. *)
Theorem snapshots_are_independent (config : record) (w w' : world) :
  (saveCurrentCodexConfig config w = (Ok tt, w') ->
   (getCurrentConfig w').1 = (getCurrentConfig w).1) /\
  (saveCurrentConfig config w = (Ok tt, w') ->
   (getCurrentCodexConfig w').1 = (getCurrentCodexConfig w).1).
Proof.
  split; intros Hsave.
  - destruct (saveCurrentCodexConfig_Ok _ _ _ Hsave)
      as (all & saved & withCurrent & normalized & Hall & _ & Hset & Hnorm & ->).
    destruct (reload_after_save _ _ _ _ _ _ Hall Hset Hnorm)
      as (all' & Hload & Hkeys).
    rewrite !getCurrentConfig_eq, Hload, Hall. cbn [fst].
    rewrite Hkeys by done. by rewrite (set_other_key _ _ _ _ _ Hset).
  - destruct (saveCurrentConfig_Ok _ _ _ Hsave)
      as (all & saved & withCurrent & normalized & Hall & _ & Hset & Hnorm & ->).
    destruct (reload_after_save _ _ _ _ _ _ Hall Hset Hnorm)
      as (all' & Hload & Hkeys).
    rewrite !getCurrentCodexConfig_eq, Hload, Hall. cbn [fst].
    rewrite Hkeys by done. by rewrite (set_other_key _ _ _ _ _ Hset).
Qed.

Lemma snapshots_are_independent_witness :
  saveCurrentCodexConfig codex_snapshot legacy_world = (Ok tt, saved_codex.2) /\
  (getCurrentConfig saved_codex.2).1 = (getCurrentConfig legacy_world).1.
Proof.
  split; [exact saved_codex_run|].
  exact (proj1 (snapshots_are_independent codex_snapshot legacy_world
                  saved_codex.2) saved_codex_run).
Defined.


(** *** What a save does to the site entries *)

Lemma alias_claude_aliased (e : props) :
  alias_claude (VObj e) = Ok (VObj (aliased_entry e)).
Proof. apply alias_claude_obj. Qed.

Lemma prop_obj (e : props) (k : string) : prop (Some (VObj e)) k = lookup_prop k e.
Proof. reflexivity. Qed.

Lemma value_eqb_refl (v : value) : value_eqb v v = true.
Proof. by apply value_eqb_eq. Qed.

(** The read-time pass keeps the effective fragment of an entry and every
    field but [config]. *)
Lemma aliased_entry_keeps (e : props) :
  effective_fragment (Some (VObj (aliased_entry e)))
  = effective_fragment (Some (VObj e)) /\
  forall f, f <> "config" ->
    lookup_prop f (aliased_entry e) = lookup_prop f e.
Proof.
  unfold aliased_entry, effective_fragment, present. rewrite !prop_obj.
  destruct (when_truthy (lookup_prop "claude" e)) as [c|] eqn:Hc; [|done].
  destruct (when_truthy (lookup_prop "config" e)) as [g|] eqn:Hg; [done|].
  apply when_truthy_Some in Hc as [Hc Htc].
  split.
  - rewrite lookup_obj_set_ne by done. by rewrite Htc.
  - intros f Hf. by apply lookup_obj_set_ne.
Qed.

(** Normalisation keeps the effective fragment of an entry and every field
    but [claude] and [config]; a [config] that it leaves stands beside a
    different [claude]. *)
Lemma normalized_entry_keeps (e : props) :
  effective_fragment (Some (VObj (normalized_entry e)))
  = effective_fragment (Some (VObj e)) /\
  (forall f, f <> "claude" -> f <> "config" ->
     lookup_prop f (normalized_entry e) = lookup_prop f e) /\
  (present (lookup_prop "config" (normalized_entry e)) = true ->
   present (lookup_prop "claude" (normalized_entry e)) = true /\
   lookup_prop "claude" (normalized_entry e)
   <> lookup_prop "config" (normalized_entry e)).
Proof.
  unfold normalized_entry, effective_fragment, present. rewrite !prop_obj.
  destruct (when_truthy (lookup_prop "config" e)) as [g|] eqn:Hg.
  - pose proof Hg as Hg'. apply when_truthy_Some in Hg' as [Hcf Htg].
    destruct (when_truthy (lookup_prop "claude" e)) as [c|] eqn:Hc.
    + pose proof Hc as Hc'. apply when_truthy_Some in Hc' as [Hcl Htc].
      destruct (value_eqb c g) eqn:Heq.
      * rewrite lookup_obj_del_eq, !lookup_obj_del_ne by done.
        rewrite Htc. split; [done|]. split; [|done].
        intros f _ Hf. by apply lookup_obj_del_ne.
      * rewrite Htc. split; [done|]. split; [done|]. intros _. split; [done|].
        rewrite Hcl, Hcf. intros [= ->]. by rewrite value_eqb_refl in Heq.
    + apply when_truthy_None_iff in Hc.
      rewrite lookup_obj_del_eq, !lookup_obj_del_ne by done.
      rewrite lookup_obj_set_eq. rewrite Hc, Htg.
      assert (truthy (Some g) = true) as -> by by rewrite <- Hcf.
      split; [done|]. split; [|done].
      intros f Hf1 Hf2. rewrite lookup_obj_del_ne by done.
      by apply lookup_obj_set_ne.
  - apply when_truthy_None_iff in Hg.
    split; [done|]. split; [done|]. by rewrite Hg.
Qed.

(** X5.  A successful [saveCurrentConfig] rewrites the site entries of the
    store in normal form, and loses nothing by it.  For a store object whose
    [sites] is an object: the store written has the same site keys and is
    left as it is by [normalizeConfig]; every entry that is an object keeps
    its effective fragment (what [getClaudeConfig] returns for it) and all
    its fields but [claude] and [config]; and an entry still has a truthy
    [config] only beside a truthy [claude] that differs from it. *)
Theorem save_migrates_entries (config : record) (w w' : world) (o ss : props) :
  store (disk w) = Content (VObj o) ->
  lookup_prop "sites" o = Some (VObj ss) ->
  saveCurrentConfig config w = (Ok tt, w') ->
  exists o' ss',
    store (disk w') = Content (VObj o') /\
    lookup_prop "sites" o' = Some (VObj ss') /\
    ss'.*1 = ss.*1 /\
    normalizeConfig (VObj o') = Ok (VObj o') /\
    forall k e, lookup_prop k ss = Some (VObj e) ->
      exists e',
        lookup_prop k ss' = Some (VObj e') /\
        effective_fragment (Some (VObj e')) = effective_fragment (Some (VObj e)) /\
        (forall f, f <> "claude" -> f <> "config" ->
           lookup_prop f e' = lookup_prop f e) /\
        (present (lookup_prop "config" e') = true ->
         present (lookup_prop "claude" e') = true /\
         lookup_prop "claude" e' <> lookup_prop "config" e').
Proof.
  intros Hstore Hsites Hsave.
  destruct (saveCurrentConfig_Ok _ _ _ Hsave)
    as (all & saved & withCurrent & normalized & Hall & _ & Hset & Hnorm & ->).
  destruct (getAllConfigs_Ok _ _ _ Hall) as (_ & _ & v & Hv & Halias).
  rewrite Hstore in Hv. injection Hv as <-.
  unfold alias_sites in Halias. simpl in Halias. rewrite Hsites in Halias.
  simpl in Halias.
  destruct (for_entries alias_claude ss) as [ss1|] eqn:Hss1; [|done].
  simpl in Halias. injection Halias as <-. injection Hset as <-.
  pose proof (normalizeConfig_idem
                (VObj (obj_set (replace_prop "sites" (VObj ss1) o)
                         "currentConfig" (VObj saved)))) as Hidem.
  rewrite Hnorm in Hidem. simpl in Hidem.
  unfold normalizeConfig in Hnorm. simpl in Hnorm.
  rewrite lookup_obj_set_ne, lookup_replace_prop_eq, Hsites in Hnorm by done.
  simpl in Hnorm.
  destruct (for_entries normalize_site ss1) as [ss2|] eqn:Hss2; [|done].
  simpl in Hnorm. injection Hnorm as <-.
  destruct (for_entries_lookup _ _ _ Hss1) as [Hk1 Hl1].
  destruct (for_entries_lookup _ _ _ Hss2) as [Hk2 Hl2].
  eexists _, ss2. split; [reflexivity|]. split.
  { rewrite lookup_replace_prop_eq, lookup_obj_set_ne, lookup_replace_prop_eq,
      Hsites by done. done. }
  split; [by rewrite Hk2|]. split; [exact Hidem|].
  intros k e Hke.
  destruct (Hl1 _ _ Hke) as (x1 & Hx1 & Hlx1).
  rewrite alias_claude_aliased in Hx1. injection Hx1 as <-.
  destruct (Hl2 _ _ Hlx1) as (x2 & Hx2 & Hlx2).
  rewrite normalize_site_obj in Hx2. injection Hx2 as <-.
  eexists. split; [exact Hlx2|].
  destruct (aliased_entry_keeps e) as [Ha1 Ha2].
  destruct (normalized_entry_keeps (aliased_entry e)) as (Hn1 & Hn2 & Hn3).
  split; [by rewrite Hn1|]. split; [|done].
  intros f Hf1 Hf2. rewrite Hn2 by done. by apply Ha2.
Qed.

Lemma save_migrates_entries_witness :
  store (disk legacy_world) = Content (VObj [("sites", VObj legacy_sites)]) /\
  lookup_prop "sites" [("sites", VObj legacy_sites)] = Some (VObj legacy_sites) /\
  saveCurrentConfig backup_snapshot legacy_world = (Ok tt, saved_claude.2) /\
  exists o' ss',
    store (disk saved_claude.2) = Content (VObj o') /\
    lookup_prop "sites" o' = Some (VObj ss') /\
    ss'.*1 = legacy_sites.*1.
Proof.
  split; [reflexivity|]. split; [reflexivity|]. split; [exact saved_claude_run|].
  destruct (save_migrates_entries backup_snapshot legacy_world saved_claude.2
              [("sites", VObj legacy_sites)] legacy_sites eq_refl eq_refl
              saved_claude_run) as (o' & ss' & Hstore & Hsites & Hkeys & _).
  exists o', ss'. split; [exact Hstore|]. split; [exact Hsites|exact Hkeys].
Defined.


(** *** Validation *)

Lemma validate_sites_Err (entries : list value) (e : error) :
  validate_sites entries = Err e <->
  e = cannot_read "null" "url" /\ reaches_null entries = true.
Proof.
  induction entries as [|x rest IH]; simpl.
  - split; [done|]. by intros [_ ?].
  - assert (x = VNull \/ x <> VNull) as [->|Hx]
      by (destruct x; (by left) || (by right)).
    + simpl. split; [by intros [= <-]|]. by intros [-> _].
    + rewrite (validate_site_eq _ Hx). simpl.
      assert (reaches_null (x :: rest)
              = valid_entry is_object x && reaches_null rest) as Hr
        by by destruct x.
      simpl in Hr. rewrite Hr.
      destruct (valid_entry is_object x); simpl; [exact IH|].
      split; [done|]. by intros [_ ?].
Qed.

(** X6.  [validateConfig] does not always return a boolean: it raises
    exactly when its loop comes to a [null] site entry, that is when the
    store and its [sites] are objects or arrays and every entry before the
    first [null] one is valid; the exception is the [TypeError] of reading
    [url] from [null]. *)
Theorem validateConfig_raises (config : jsval) (e : error) :
  validateConfig config = Err e <->
  e = cannot_read "null" "url" /\
  exists c sites,
    config = Some c /\ is_object c = true /\
    prop config "sites" = Some sites /\ is_object sites = true /\
    reaches_null (own_entries (Some sites)).*2 = true.
Proof.
  unfold validateConfig.
  destruct config as [c|]; simpl; [|split; [done|]; by intros (_ & ? & ? & ? & _)].
  destruct c as [|b|n|s|l|o].
  1-4: (split; [simpl; rewrite ?orb_true_r; done
               |by intros (_ & ? & ? & [= <-] & ? & _)]).
  - simpl. split; [done|]. by intros (_ & ? & ? & [= <-] & _ & ? & _).
  - simpl.
    destruct (lookup_prop "sites" o) as [s|] eqn:Hs; simpl;
      [|split; [done|]; intros (_ & ? & ? & [= <-] & _ & Hp & _);
        unfold prop in Hp; simpl in Hp; by rewrite Hs in Hp].
    assert (forall P : value -> Prop,
              (exists c sites, Some (VObj o) = Some c /\ is_object c = true /\
                 prop (Some (VObj o)) "sites" = Some sites /\
                 is_object sites = true /\ P sites) <->
              (is_object s = true /\ P s)) as Hshape.
    { intros P. split.
      - intros (c & sites & [= <-] & _ & Hp & Hobj & HP).
        unfold prop in Hp. simpl in Hp. rewrite Hs in Hp. by injection Hp as <-.
      - intros [Hobj HP]. exists (VObj o), s. repeat split; try done.
        all: unfold prop; simpl; by rewrite Hs. }
    rewrite (Hshape (fun sites => reaches_null (own_entries (Some sites)).*2 = true)).
    destruct s as [|b|n|t|l|so]; simpl.
    1-4: (rewrite ?orb_true_r; split; [done|]; by intros (_ & ? & _)).
    all: rewrite validate_sites_Err; split;
      [intros [? ?]; by repeat split|intros (? & _ & ?); by split].
Qed.

Lemma validateConfig_raises_witness :
  reaches_null (own_entries (Some (VObj [("a", VNull)]))).*2 = true /\
  validateConfig (Some null_entry_store) = Err (cannot_read "null" "url").
Proof.
  split; [reflexivity|].
  apply (proj2 (validateConfig_raises (Some null_entry_store)
                  (cannot_read "null" "url"))).
  split; [reflexivity|].
  exists null_entry_store, (VObj [("a", VNull)]).
  split; [reflexivity|]. split; [reflexivity|]. split; [reflexivity|].
  split; reflexivity.
Defined.


Lemma imap_values {A} (g : nat -> string) (l : list A) :
  (imap (fun i v => (g i, v)) l).*2 = l.
Proof.
  revert g. induction l as [|x l IH]; intros g; [done|].
  simpl. f_equal. apply (IH (g ∘ S)).
Qed.

Lemma indexed_values (l : list value) : (indexed l).*2 = l.
Proof. apply imap_values. Qed.

Lemma valid_entry_aliased (e : props) :
  valid_entry is_object (VObj (aliased_entry e)) = valid_entry is_object (VObj e).
Proof.
  destruct (aliased_entry_keeps e) as [Hfrag Hkeys].
  unfold valid_entry. rewrite Hfrag, !prop_obj. by rewrite Hkeys.
Qed.

Lemma valid_entry_normalized (e : props) :
  valid_entry is_object (VObj (normalized_entry e)) = valid_entry is_object (VObj e).
Proof.
  destruct (normalized_entry_keeps e) as (Hfrag & Hkeys & _).
  unfold valid_entry. rewrite Hfrag, !prop_obj. by rewrite Hkeys.
Qed.

Lemma validate_site_aliased (x x' : value) :
  alias_claude x = Ok x' -> validate_site x' = validate_site x.
Proof.
  destruct x as [|b|n|s|l|e]; try done; try (by intros [= <-]).
  rewrite alias_claude_aliased. intros [= <-].
  rewrite !validate_site_eq by done. by rewrite valid_entry_aliased.
Qed.

Lemma validate_site_normalized (x x' : value) :
  normalize_site x = Ok x' -> validate_site x' = validate_site x.
Proof.
  destruct x as [|b|n|s|l|e]; try done; try (by intros [= <-]).
  rewrite normalize_site_obj. intros [= <-].
  rewrite !validate_site_eq by done. by rewrite valid_entry_normalized.
Qed.

Lemma for_entries_validate (f : value -> result value) (o o' : props) :
  (forall x x', f x = Ok x' -> validate_site x' = validate_site x) ->
  for_entries f o = Ok o' -> validate_sites o'.*2 = validate_sites o.*2.
Proof.
  intros Hf. revert o'. induction o as [|[k x] o IH]; intros o' H; simpl in H.
  - by injection H as <-.
  - destruct (f x) as [x'|] eqn:Hx; [|done]. simpl in H.
    destruct (for_entries f o) as [o0|]; [|done]. injection H as <-.
    rewrite !fmap_cons. cbn [validate_sites snd].
    rewrite (Hf _ _ Hx). by rewrite (IH o0).
Qed.

Lemma for_items_validate (f : value -> result value) (l l' : list value) :
  (forall x x', f x = Ok x' -> validate_site x' = validate_site x) ->
  for_items f l = Ok l' -> validate_sites l' = validate_sites l.
Proof.
  intros Hf. revert l'. induction l as [|x l IH]; intros l' H; simpl in H.
  - by injection H as <-.
  - destruct (f x) as [x'|] eqn:Hx; [|done]. simpl in H.
    destruct (for_items f l) as [l0|]; [|done]. injection H as <-.
    cbn [validate_sites]. rewrite (Hf _ _ Hx). by rewrite (IH l0).
Qed.

Lemma sites_pass_validate (f : value -> result value) (c n : value) :
  (forall x x', f x = Ok x' -> validate_site x' = validate_site x) ->
  sites_pass f c = Ok n ->
  validateConfig (Some n) = validateConfig (Some c).
Proof.
  intros Hf. unfold sites_pass. intros H.
  destruct c as [|b|m|s|l|o]; simpl in H; try done;
    try (by injection H as <-).
  destruct (lookup_prop "sites" o) as [s|] eqn:Hs; [|by injection H as <-].
  destruct (truthy (Some s)) eqn:Ht; [|by injection H as <-].
  destruct (for_sites f s) as [s'|] eqn:Hfs; [|done]. simpl in H.
  injection H as <-. unfold validateConfig. simpl.
  rewrite lookup_replace_prop_eq, Hs. simpl.
  destruct s as [|b|m|t|l|e]; simpl in Hfs; try (by injection Hfs as <-).
  - destruct (for_items f l) as [l'|] eqn:Hl; [|done]. injection Hfs as <-.
    simpl. rewrite !indexed_values. by apply (for_items_validate f).
  - destruct (for_entries f e) as [e'|] eqn:He; [|done]. injection Hfs as <-.
    simpl. by apply (for_entries_validate f).
Qed.

(** X7.  The verdict of [validateConfig] does not depend on the format of
    the entries: a store and the store that [normalizeConfig] makes of it
    get the same verdict, and so do the store file and the store that
    [getAllConfigs] loads from it. *)
Theorem validity_survives_passes :
  (forall store store',
     normalizeConfig store = Ok store' ->
     validateConfig (Some store') = validateConfig (Some store)) /\
  (forall w v all,
     store (disk w) = Content v ->
     getAllConfigs w = (Ok all, w) ->
     validateConfig (Some all) = validateConfig (Some v)).
Proof.
  split.
  - intros store store'. rewrite normalizeConfig_pass.
    apply sites_pass_validate, validate_site_normalized.
  - intros w v all Hv Hall.
    destruct (getAllConfigs_Ok _ _ _ Hall) as (_ & _ & v' & Hv' & Halias).
    rewrite Hv in Hv'. injection Hv' as <-. rewrite alias_sites_pass in Halias.
    revert Halias. apply sites_pass_validate, validate_site_aliased.
Qed.

Lemma validity_survives_passes_witness :
  exists store',
    normalizeConfig legacy_store = Ok store' /\
    validateConfig (Some store') = validateConfig (Some legacy_store).
Proof.
  eexists. split; [by_computation|].
  apply (proj1 validity_survives_passes legacy_store). by_computation.
Defined.


(** *** The deep merge, again *)


Lemma replace_prop_same {A} (o : list (string * A)) (k : string) (v : A) :
  lookup_prop k o = Some v -> replace_prop k v o = o.
Proof.
  induction o as [|[k' v'] o IH]; [done|]. simpl.
  destruct (decide (k = k')) as [->|Hk]; [by intros [= ->]|].
  intros H. by rewrite IH.
Qed.











(** *** The switch and the documents *)

Lemma bind_fail {A B : Type} (m : io A) (k : A -> io B) (w w1 : world) (e : error) :
  m w = (Err e, w1) -> (m ≫= k) w = (Err e, w1).
Proof. unfold mbind, io_bind. by intros ->. Qed.

(** What a successful [switchConfig] has written to [config.json]. *)
Lemma switchConfig_json (site token : string) (sc : hjsval) (w w' : world)
    (snap : record) :
  switchConfig site token sc w = (Ok snap, w') ->
  exists cj1 cj2,
    (if truthy (prop (Some (document (claude_json (disk w)))) "primaryApiKey")
     then del (Some (document (claude_json (disk w)))) "primaryApiKey"
     else Ok (document (claude_json (disk w)))) = Ok cj1 /\
    set (Some cj1) "primaryApiKey" (VStr site) = Ok cj2 /\
    claude_json (disk w') = Content cj2.
Proof.
  unfold switchConfig. intros H. apply try_catch_throw_Ok in H.
  apply bind_Ok in H as (h & w0 & Hh & H). injection Hh as <- <-.
  apply bind_Ok in H as (claudeConfig & w0 & Hc & H).
  apply lift_Ok in Hc as [Hc ->].
  apply bind_Ok in H as (env & w0 & He & H). apply lift_Ok in He as [He ->].
  apply bind_Ok in H as (rawTokens & w0 & Hr & H).
  apply lift_Ok in Hr as [Hr ->].
  apply bind_Ok in H as (tokenName & w0 & Ht & H).
  apply lift_Ok in Ht as [Ht ->].
  apply bind_Ok in H as (baseUrl & w0 & Hb & H). apply lift_Ok in Hb as [Hb ->].
  apply bind_Ok in H as ([] & w1 & Hsave & H).
  destruct (saveCurrentConfig_Ok _ _ _ Hsave)
    as (allConfigs & saved & withCurrent & normalized & _ & _ & _ & _ & Hw1).
  apply bind_Ok in H as (currentSettings & w0 & Hs & H).
  rewrite getSettings_document in Hs. injection Hs as <- <-.
  apply bind_Ok in H as (currentConfigJson & w0 & Hj & H).
  rewrite getClaudeConfigJson_document in Hj. injection Hj as <- <-.
  apply bind_Ok in H as (primaryApiKey & w0 & Hp & H).
  apply lift_Ok in Hp as [Hp ->].
  apply bind_Ok in H as (configJson1 & w0 & Hj1 & H).
  apply lift_Ok in Hj1 as [Hj1 ->].
  apply bind_Ok in H as (configJson2 & w0 & Hj2 & H).
  apply lift_Ok in Hj2 as [Hj2 ->].
  apply bind_Ok in H as (cleared & w0 & Hcl & H).
  apply lift_Ok in Hcl as [Hcl ->].
  apply bind_Ok in H as (mergeEnv & w0 & Hme & H).
  apply lift_Ok in Hme as [Hme ->].
  apply bind_Ok in H as (mergeToken & w0 & Hmt & H).
  apply lift_Ok in Hmt as [Hmt ->].
  apply bind_Ok in H as ([] & w2 & Hmut & H).
  apply bind_Ok in H as (h1 & w0 & Hh1 & H). injection Hh1 as <- <-.
  apply bind_Ok in H as (configToMerge & w0 & Hcm & H).
  apply lift_Ok in Hcm as [Hcm ->].
  apply bind_Ok in H as ([] & w3 & Hss & H).
  apply saveSettings_Ok in Hss as ->.
  apply bind_Ok in H as ([] & w4 & Hsj & H).
  apply saveClaudeConfigJson_Ok in Hsj as ->.
  injection H as <- <-.
  assert (claude_json (disk w1) = claude_json (disk w)) as Hcj by by subst w1.
  rewrite Hcj in Hp, Hj1. apply get_Ok_prop in Hp as ->.
  by exists configJson1, configJson2.
Qed.

(** X10.  A successful [switchConfig] records the site in [config.json]:
    when the file held an object (or did not exist), the object written has
    [primaryApiKey] equal to the site key and every other key as before;
    when the file held an array, the array is written back as it was, since
    a named property of an array is not serialised. *)
Theorem switchConfig_primary_key (site token : string) (sc : hjsval)
    (w w' : world) (snap : record) :
  switchConfig site token sc w = (Ok snap, w') ->
  exists cj,
    claude_json (disk w') = Content cj /\
    (forall o, document (claude_json (disk w)) = VObj o ->
       exists o',
         cj = VObj o' /\
         lookup_prop "primaryApiKey" o' = Some (VStr site) /\
         forall k, k <> "primaryApiKey" -> lookup_prop k o' = lookup_prop k o) /\
    (forall l, document (claude_json (disk w)) = VArr l -> cj = VArr l).
Proof.
  intros Hrun.
  destruct (switchConfig_json _ _ _ _ _ _ Hrun) as (cj1 & cj2 & H1 & H2 & Hw').
  exists cj2. split; [done|]. split.
  - intros o Ho. rewrite Ho in H1. rewrite prop_obj in H1.
    assert (exists o1, cj1 = VObj o1 /\
              forall k, k <> "primaryApiKey" -> lookup_prop k o1 = lookup_prop k o)
      as (o1 & -> & Hkeys).
    { destruct (truthy (lookup_prop "primaryApiKey" o)); injection H1 as <-.
      - eexists. split; [done|]. intros k Hk. by apply lookup_obj_del_ne.
      - by eexists. }
    injection H2 as <-. eexists. split; [done|].
    split; [apply lookup_obj_set_eq|].
    intros k Hk. rewrite lookup_obj_set_ne by done. by apply Hkeys.
  - intros l Hl. rewrite Hl in H1. simpl in H1. injection H1 as <-.
    by injection H2 as <-.
Qed.

Lemma switchConfig_primary_key_witness :
  switchConfig "x" "sk-def" (Some (HRef 1%positive)) switch_world
  = (Ok backup_snapshot, switched.2) /\
  exists cj o',
    claude_json (disk switched.2) = Content cj /\ cj = VObj o' /\
    lookup_prop "primaryApiKey" o' = Some (VStr "x").
Proof.
  split; [exact switched_run|].
  destruct (switchConfig_primary_key "x" "sk-def" (Some (HRef 1%positive))
              switch_world switched.2 backup_snapshot switched_run)
    as (cj & Hcj & Hobj & _).
  destruct (Hobj [] eq_refl) as (o' & Ho' & Hk & _).
  exists cj, o'. split; [exact Hcj|]. split; [exact Ho'|exact Hk].
Defined.

(** X11.  For a site entry with neither a [claude] nor a [config] fragment,
    [switchConfig] raises the error of [getClaudeConfig] under its own
    prefix, and has changed nothing: no document and no object of the
    caller. *)
Theorem switchConfig_without_fragment (site token : string) (l : loc) (o : hobj)
    (w : world) :
  mem w !! l = Some o ->
  h_truthy (lookup_prop "claude" (fields o)) = false ->
  h_truthy (lookup_prop "config" (fields o)) = false ->
  switchConfig site token (Some (HRef l)) w =
  (Err (Error "切换配置失败: 站点配置缺少claude或config字段"), w).
Proof.
  intros Hl Hclaude Hconfig. unfold switchConfig, try_catch.
  erewrite bind_run; [|reflexivity]. cbv beta.
  erewrite (bind_fail _ _ _ _ (Error "站点配置缺少claude或config字段"));
    [reflexivity|].
  unfold lift, getClaudeConfig. cbn [read is_truthy heap_reader].
  rewrite (h_get_field _ _ _ "claude" Hl) by done. cbn [mbind result_bind].
  rewrite Hclaude.
  rewrite (h_get_field _ _ _ "config" Hl) by done. cbn [mbind result_bind].
  by rewrite Hconfig.
Qed.

Lemma switchConfig_without_fragment_witness :
  mem bare_world !! 1%positive
  = Some (HObj false [("url", HStr "https://x.example")]) /\
  switchConfig "x" "sk-def" (Some (HRef 1%positive)) bare_world =
  (Err (Error "切换配置失败: 站点配置缺少claude或config字段"), bare_world).
Proof.
  assert (mem bare_world !! 1%positive
          = Some (HObj false [("url", HStr "https://x.example")])) as Hl
    by by_computation.
  split; [exact Hl|].
  exact (switchConfig_without_fragment "x" "sk-def" 1%positive _ bare_world
           Hl eq_refl eq_refl).
Defined.

Lemma getAllConfigs_absent (w : world) :
  dir_error (disk w) = None -> store (disk w) = Absent ->
  getAllConfigs w = (Err missing_error, w).
Proof.
  intros Hd Hs. unfold getAllConfigs, try_catch.
  by rewrite (load_store_absent _ Hd Hs).
Qed.

Lemma saveCurrentConfig_absent (config : record) (w : world) :
  dir_error (disk w) = None -> store (disk w) = Absent ->
  saveCurrentConfig config w =
  (Err (Error "保存当前配置失败: API配置文件不存在，请检查 ~/.claude/api_configs.json"), w).
Proof.
  intros Hd Hs. unfold saveCurrentConfig, try_catch.
  erewrite bind_run; [|by apply ensureConfigDir_ok]. cbv beta.
  erewrite bind_run; [|reflexivity]. cbv beta.
  erewrite (bind_fail _ _ _ _ missing_error); [reflexivity|].
  by apply getAllConfigs_absent.
Qed.

(** X12.  Without a store file nothing is saved.  When the directories can
    be ensured and the store file is absent, [configExists] returns [false];
    [saveCurrentConfig] and [saveCurrentCodexConfig] raise the missing-file
    error under their prefixes; [switchConfig], for an entry whose fragment
    has an [env] with tokens, raises it under both prefixes; none of them
    changes a document or an object of the caller; and the marker by which
    [getAllConfigs] tells the missing-file error is still in the message. *)
Theorem nothing_is_saved_without_store (w : world) :
  dir_error (disk w) = None -> store (disk w) = Absent ->
  configExists w = (Ok false, w) /\
  (forall config,
     saveCurrentConfig config w =
     (Err (Error "保存当前配置失败: API配置文件不存在，请检查 ~/.claude/api_configs.json"),
      w)) /\
  (forall config,
     saveCurrentCodexConfig config w =
     (Err (Error "保存当前Codex配置失败: API配置文件不存在，请检查 ~/.claude/api_configs.json"),
      w)) /\
  (forall site token sc lf le fo eo tv,
     getClaudeConfig (H := heap_reader (mem w)) sc = Ok (Some (HRef lf)) ->
     mem w !! lf = Some fo ->
     lookup_prop "env" (fields fo) = Some (HRef le) ->
     mem w !! le = Some eo ->
     lookup_prop "ANTHROPIC_AUTH_TOKEN" (fields eo) = Some tv ->
     tv <> HNull ->
     switchConfig site token sc w =
     (Err (Error "切换配置失败: 保存当前配置失败: API配置文件不存在，请检查 ~/.claude/api_configs.json"),
      w)) /\
  includes missing_marker
    "切换配置失败: 保存当前配置失败: API配置文件不存在，请检查 ~/.claude/api_configs.json"
  = true.
Proof.
  intros Hd Hs. split; [|split; [|split; [|split]]].
  - unfold configExists, pathExists. simpl. by rewrite Hs.
  - intros config. by apply saveCurrentConfig_absent.
  - intros config. unfold saveCurrentCodexConfig, try_catch.
    erewrite bind_run; [|by apply ensureConfigDir_ok]. cbv beta.
    erewrite bind_run; [|reflexivity]. cbv beta.
    erewrite (bind_fail _ _ _ _ missing_error); [reflexivity|].
    by apply getAllConfigs_absent.
  - intros site token sc lf le fo eo tv Hfrag Hlf Henv Hle Htok Htv.
    assert (exists name, token_label (mem w) (Some tv) token = Ok name)
      as [name Hname].
    { unfold token_label. destruct tv as [|b|n|s|lt]; try done; try by eexists.
      destruct (mem w !! lt); by eexists. }
    unfold switchConfig, try_catch.
    erewrite bind_run; [|reflexivity]. cbv beta.
    rewrite Hfrag.
    erewrite bind_run; [|reflexivity]. cbv beta.
    rewrite (h_get_field _ _ _ "env" Hlf) by done. rewrite Henv.
    erewrite bind_run; [|reflexivity]. cbv beta.
    rewrite (h_get_field _ _ _ "ANTHROPIC_AUTH_TOKEN" Hle) by done. rewrite Htok.
    erewrite bind_run; [|reflexivity]. cbv beta.
    rewrite Hname.
    erewrite bind_run; [|reflexivity]. cbv beta.
    rewrite (h_get_field _ _ _ "ANTHROPIC_BASE_URL" Hle) by done.
    erewrite bind_run; [|reflexivity]. cbv beta.
    erewrite (bind_fail _ _ _ _ (Error _)); [|by apply saveCurrentConfig_absent].
    reflexivity.
  - vm_compute. reflexivity.
Qed.

Lemma nothing_is_saved_without_store_witness :
  dir_error (disk absent_world) = None /\
  store (disk absent_world) = Absent /\
  configExists absent_world = (Ok false, absent_world) /\
  saveCurrentConfig backup_snapshot absent_world =
  (Err (Error "保存当前配置失败: API配置文件不存在，请检查 ~/.claude/api_configs.json"),
   absent_world).
Proof.
  split; [reflexivity|]. split; [reflexivity|].
  destruct (nothing_is_saved_without_store absent_world eq_refl eq_refl)
    as (Hexists & Hsave & _).
  split; [exact Hexists|exact (Hsave backup_snapshot)].
Defined.


Lemma for_entries_null (f : value -> result value) (o : props) (e : error) :
  f VNull = Err e ->
  (forall x, x <> VNull -> exists x', f x = Ok x') ->
  VNull ∈ o.*2 -> for_entries f o = Err e.
Proof.
  intros Hnull Hok. induction o as [|[k x] o IH]; intros Hin.
  - by apply elem_of_nil in Hin.
  - rewrite fmap_cons in Hin. simpl in Hin. simpl.
    assert (x = VNull \/ x <> VNull) as [->|Hx]
      by (destruct x; (by left) || (by right)).
    + by rewrite Hnull.
    + destruct (Hok x Hx) as [x' ->]. simpl.
      apply elem_of_cons in Hin as [Hin|Hin]; [by subst x|].
      by rewrite IH.
Qed.

(** X23.  One [null] site entry makes the whole store unloadable.  When
    the [sites] object of the store file has a [null] entry,
    [getAllConfigs] raises the [TypeError] of its loop as a read error, so
    that [getCurrentConfig] and [getCurrentCodexConfig] return [null] and
    [saveCurrentConfig] fails, having written nothing. *)
Theorem null_entry_blocks_store (w : world) (o ss : props) :
  dir_error (disk w) = None ->
  store (disk w) = Content (VObj o) ->
  lookup_prop "sites" o = Some (VObj ss) ->
  VNull ∈ ss.*2 ->
  getAllConfigs w =
  (Err (Error "读取配置文件失败: Cannot read properties of null (reading 'claude')"),
   w) /\
  getCurrentConfig w = (Ok VNull, w) /\
  getCurrentCodexConfig w = (Ok VNull, w) /\
  forall config,
    saveCurrentConfig config w =
    (Err (Error "保存当前配置失败: 读取配置文件失败: Cannot read properties of null (reading 'claude')"),
     w).
Proof.
  intros Hd Hs Hsites Hnull.
  assert (getAllConfigs w =
          (Err (Error "读取配置文件失败: Cannot read properties of null (reading 'claude')"),
           w)) as Hload.
  { unfold getAllConfigs, try_catch. rewrite (load_store_content _ _ Hd Hs).
    unfold alias_sites. simpl. rewrite Hsites. simpl.
    rewrite (for_entries_null alias_claude ss (cannot_read "null" "claude"));
      [done|done|apply alias_claude_ok|done]. }
  split; [exact Hload|].
  rewrite getCurrentConfig_eq, getCurrentCodexConfig_eq, Hload.
  split; [done|]. split; [done|].
  intros config. unfold saveCurrentConfig, try_catch.
  erewrite bind_run; [|by apply ensureConfigDir_ok]. cbv beta.
  erewrite bind_run; [|reflexivity]. cbv beta.
  erewrite (bind_fail _ _ _ _ (Error _)); [|exact Hload]. reflexivity.
Qed.

Lemma null_entry_blocks_store_witness :
  VNull ∈ [("a", VNull)].*2 /\
  getAllConfigs (world_of (Content null_entry_store)) =
  (Err (Error "读取配置文件失败: Cannot read properties of null (reading 'claude')"),
   world_of (Content null_entry_store)).
Proof.
  assert (VNull ∈ [("a", VNull)].*2) as Hin by (apply elem_of_cons; by left).
  split; [exact Hin|].
  exact (proj1 (null_entry_blocks_store (world_of (Content null_entry_store))
                  [("sites", VObj [("a", VNull)])] [("a", VNull)]
                  eq_refl eq_refl eq_refl Hin)).
Defined.

(** X13.  [switchConfig] is not atomic.  When the settings file holds
    [null], a switch that is otherwise possible fails on reading [env] from
    it, after [saveCurrentConfig] has already written the store: the store
    file then holds the new snapshot under [currentConfig], while the
    settings file, [config.json] and the caller's objects are as before. *)
Theorem switchConfig_fails_after_save (site token : string) (sc : hjsval)
    (w : world) (lf le lt : loc) (fo eo to : hobj) (so ss : props) :
  getClaudeConfig (H := heap_reader (mem w)) sc = Ok (Some (HRef lf)) ->
  mem w !! lf = Some fo ->
  lookup_prop "env" (fields fo) = Some (HRef le) ->
  mem w !! le = Some eo ->
  lookup_prop "ANTHROPIC_AUTH_TOKEN" (fields eo) = Some (HRef lt) ->
  mem w !! lt = Some to ->
  dir_error (disk w) = None -> write_error (disk w) = None ->
  store (disk w) = Content (VObj so) ->
  lookup_prop "sites" so = Some (VObj ss) ->
  Forall (fun kv => kv.2 <> VNull) ss ->
  is_object (document (claude_json (disk w))) = true ->
  settings (disk w) = Content VNull ->
  exists w1 stored saved,
    switchConfig site token sc w =
    (Err (Error "切换配置失败: Cannot read properties of null (reading 'env')"), w1) /\
    store (disk w1) = Content (VObj stored) /\
    lookup_prop "currentConfig" stored = Some (VObj saved) /\
    lookup_prop "site" saved = Some (VStr site) /\
    lookup_prop "token" saved = Some (VStr token) /\
    lookup_prop "updatedAt" saved = Some (VStr (clock w)) /\
    settings (disk w1) = Content VNull /\
    claude_json (disk w1) = claude_json (disk w) /\
    mem w1 = mem w.
Proof.
  intros Hfrag Hlf Henv Hle Htok Hlt Hd Hw Hs Hsites Hnn Hcj Hset.
  set (config := [("site", Some (HStr site)); ("siteName", Some (HStr site));
         ("ANTHROPIC_BASE_URL", lookup_prop "ANTHROPIC_BASE_URL" (fields eo));
         ("token", Some (HStr token));
         ("tokenName", HStr <$> find_label (fields to) token)] : record).
  assert (exists saved, serialise (mem w)
    [("site", field config "site"); ("siteName", field config "siteName");
     ("url", field config "url"); ("urlName", field config "urlName");
     ("token", field config "token"); ("tokenName", field config "tokenName");
     ("updatedAt", Some (HStr (clock w)))] = Ok saved /\
     lookup_prop "site" saved = Some (VStr site) /\
     lookup_prop "token" saved = Some (VStr token) /\
     lookup_prop "updatedAt" saved = Some (VStr (clock w)))
    as (saved & Hser & Hsite & Htoken & Hstamp).
  { unfold config, field. simpl. rewrite !reify_str. simpl.
    destruct (find_label (fields to) token); simpl;
      rewrite ?reify_str; simpl; by eexists. }
  destruct (saveCurrentConfig_runs config w so ss saved Hd Hw Hs Hsites Hnn Hser)
    as [w1 Hsave].
  destruct (saveCurrentConfig_Ok _ _ _ Hsave)
    as (allConfigs & saved' & withCurrent & normalized & Hall & Hser' & Hwith
        & Hnorm & Hw1).
  rewrite Hser in Hser'. injection Hser' as <-.
  destruct (getAllConfigs_Ok _ _ _ Hall) as (_ & _ & v & Hv & Halias).
  rewrite Hs in Hv. injection Hv as <-.
  destruct (sites_pass_obj _ _ _ Halias) as [a ->].
  injection Hwith as <-.
  destruct (normalizeConfig_keeps_other_keys _ _ Hnorm) as (stored & -> & Hkeys).
  assert (exists pk cj1 cj2,
    get (Some (document (claude_json (disk w1)))) "primaryApiKey" = Ok pk /\
    (if truthy pk
     then del (Some (document (claude_json (disk w1)))) "primaryApiKey"
     else Ok (document (claude_json (disk w1)))) = Ok cj1 /\
    set (Some cj1) "primaryApiKey" (VStr site) = Ok cj2)
    as (pk & cj1 & cj2 & Hpk & Hcj1 & Hcj2).
  { assert (claude_json (disk w1) = claude_json (disk w)) as -> by by subst w1.
    destruct (document (claude_json (disk w))) as [|b|n|s|l|cj]; try done.
    - exists None, (VArr l), (VArr l). by repeat split.
    - exists (lookup_prop "primaryApiKey" cj). simpl.
      destruct (truthy (lookup_prop "primaryApiKey" cj)); by do 2 eexists. }
  exists w1, stored, saved. split.
  - unfold switchConfig, try_catch.
    erewrite bind_run; [|reflexivity]. cbv beta.
    rewrite Hfrag.
    erewrite bind_run; [|reflexivity]. cbv beta.
    rewrite (h_get_field _ _ _ "env" Hlf) by done. rewrite Henv.
    erewrite bind_run; [|reflexivity]. cbv beta.
    rewrite (h_get_field _ _ _ "ANTHROPIC_AUTH_TOKEN" Hle) by done. rewrite Htok.
    erewrite bind_run; [|reflexivity]. cbv beta.
    unfold token_label. rewrite Hlt.
    erewrite bind_run; [|reflexivity]. cbv beta.
    rewrite (h_get_field _ _ _ "ANTHROPIC_BASE_URL" Hle) by done.
    erewrite bind_run; [|reflexivity]. cbv beta.
    fold config.
    erewrite bind_run; [|exact Hsave]. cbv beta.
    erewrite bind_run; [|apply getSettings_document]. cbv beta.
    erewrite bind_run; [|apply getClaudeConfigJson_document]. cbv beta.
    rewrite Hpk.
    erewrite bind_run; [|reflexivity]. cbv beta.
    rewrite Hcj1.
    erewrite bind_run; [|reflexivity]. cbv beta.
    rewrite Hcj2.
    erewrite bind_run; [|reflexivity]. cbv beta.
    assert (settings (disk w1) = settings (disk w)) as -> by by subst w1.
    rewrite Hset.
    erewrite (bind_fail _ _ _ _ (cannot_read "null" "env")); reflexivity.
  - subst w1. simpl. repeat split; try done.
    rewrite Hkeys by done. apply lookup_obj_set_eq.
Qed.

Lemma switchConfig_fails_after_save_witness :
  settings (disk null_settings_world) = Content VNull /\
  exists w1 stored saved,
    switchConfig "x" "sk-def" (Some (HRef 1%positive)) null_settings_world =
    (Err (Error "切换配置失败: Cannot read properties of null (reading 'env')"),
     w1) /\
    store (disk w1) = Content (VObj stored) /\
    lookup_prop "currentConfig" stored = Some (VObj saved) /\
    lookup_prop "token" saved = Some (VStr "sk-def").
Proof.
  split; [reflexivity|].
  destruct switch_world_shape
    as (H1 & H2 & _ & _ & H5 & H6 & _ & _ & H9 & H10).
  assert (Forall (fun kv : string * value => kv.2 <> VNull) legacy_sites) as Hnn
    by (repeat constructor; discriminate).
  destruct (switchConfig_fails_after_save "x" "sk-def" (Some (HRef 1%positive))
              null_settings_world 2%positive 3%positive 4%positive
              fragment_object env_object tokens_object
              [("sites", VObj legacy_sites)] legacy_sites
              H1 H2 H5 H6 H9 H10 eq_refl eq_refl eq_refl eq_refl Hnn
              eq_refl eq_refl)
    as (w1 & stored & saved & Hrun & Hstore & Hcur & _ & Htok & _).
  exists w1, stored, saved. split; [exact Hrun|]. split; [exact Hstore|].
  split; [exact Hcur|exact Htok].
Defined.


(** *** The notification hooks *)

Lemma some_all_false (test : value -> result bool) (l : list value) :
  Forall (fun x => test x = Ok false) l -> some test l = Ok false.
Proof. induction 1 as [|x l Hx _ IH]; [done|]. simpl. by rewrite Hx. Qed.

Lemma filter_items_kept (keep : value -> result bool) (items kept : list value) :
  filter_items keep items = Ok kept -> Forall (fun x => keep x = Ok true) kept.
Proof.
  revert kept. induction items as [|x items IH]; intros kept H; simpl in H.
  - injection H as <-. constructor.
  - destruct (keep x) as [b|] eqn:Hx; [|done]. simpl in H.
    destruct (filter_items keep items) as [rest|]; [|done]. injection H as <-.
    destruct b; [constructor; [done|]|]; by apply IH.
Qed.

Lemma call_some_opt_falsy (x : jsval) (test : value -> result bool) :
  truthy x = false -> call_some_opt x test <> Ok true.
Proof. by destruct x as [[| | | | |]|]. Qed.

Lemma kept_groups_off (items kept : list value) :
  filter_items (fun hook => found ← is_notify_group hook; Ok (negb found)) items
  = Ok kept ->
  call_some_opt (Some (VArr kept)) is_notify_group = Ok false.
Proof.
  intros H. apply filter_items_kept in H. simpl. apply some_all_false.
  eapply Forall_impl; [exact H|]. intros x. simpl.
  destruct (is_notify_group x) as [[]|]; done.
Qed.

Lemma prop_None (k : string) : prop None k = None.
Proof. done. Qed.

(** What [remove_hook] does to the settings: afterwards the list of the
    event holds no notifier group, and nothing else has changed. *)
Lemma remove_hook_spec (v v1 : value) (event : string) :
  event <> "length" -> array_index event = None ->
  remove_hook v event = Ok v1 ->
  call_some_opt (prop (prop (Some v1) "hooks") event) is_notify_group <> Ok true /\
  (forall k, k <> event ->
     prop (prop (Some v1) "hooks") k = prop (prop (Some v) "hooks") k) /\
  (forall k, k <> "hooks" -> prop (Some v1) k = prop (Some v) k).
Proof.
  intros Hlen Hidx H. unfold remove_hook in H.
  destruct (get (Some v) "hooks") as [hooks|] eqn:Hh; [|done].
  cbn [mbind result_bind] in H.
  pose proof (get_Ok_prop _ _ _ Hh) as Hhooks.
  destruct (get_opt hooks event) as [list0|] eqn:Hl; [|done].
  cbn [mbind result_bind] in H.
  pose proof (get_opt_Ok_prop _ _ _ Hl) as Hlist.
  destruct (when_truthy list0) as [y|] eqn:Hw.
  2: { injection H as <-. rewrite <- Hhooks, <- Hlist. split; [|done].
       apply call_some_opt_falsy. by apply when_truthy_None_iff. }
  apply when_truthy_Some in Hw as [-> Hty].
  destruct y as [| | | |items|]; try done.
  destruct (filter_items _ items) as [kept|] eqn:Hf; [|done].
  cbn [mbind result_bind] in H.
  assert (exists h, hooks = Some (VObj h)) as [h ->].
  { destruct hooks as [[| | | |l|h]|]; try done; [|by eexists].
    unfold prop in Hlist. simpl in Hlist.
    destruct (decide (event = "length")); [done|]. by rewrite Hidx in Hlist. }
  assert (exists o, v = VObj o) as [o ->].
  { destruct v as [| | | |l|o]; try done. by eexists. }
  rewrite prop_obj in Hhooks. simpl in H.
  pose proof (kept_groups_off _ _ Hf) as Hoff.
  destruct (length kept =? 0)%nat; simpl in H; injection H as <-.
  all: rewrite !prop_obj, lookup_replace_prop_eq, <- Hhooks, ?prop_obj.
  - rewrite lookup_obj_del_eq. split; [done|]. split.
    + intros k Hk. rewrite ?prop_obj.
      rewrite lookup_obj_del_ne by done. by apply lookup_obj_set_ne.
    + intros k Hk. rewrite ?prop_obj. by apply lookup_replace_prop_ne.
  - rewrite lookup_obj_set_eq. split; [by rewrite Hoff|]. split.
    + intros k Hk. rewrite ?prop_obj. by apply lookup_obj_set_ne.
    + intros k Hk. rewrite ?prop_obj. by apply lookup_replace_prop_ne.
Qed.

Lemma without_hooks_spec (v v' : value) :
  without_hooks v = Ok v' ->
  call_some_opt (prop (prop (Some v') "hooks") "Stop") is_notify_group <> Ok true /\
  (forall k, k <> "hooks" -> prop (Some v') k = prop (Some v) k).
Proof.
  unfold without_hooks. intros H.
  destruct (remove_hook v "Stop") as [v1|] eqn:H1; [|done].
  cbn [mbind result_bind] in H.
  destruct (remove_hook v1 "Notification") as [v2|] eqn:H2; [|done].
  cbn [mbind result_bind] in H.
  assert ("Stop" <> "length") as Hs by done.
  assert ("Notification" <> "length") as Hn by done.
  destruct (remove_hook_spec _ _ _ Hs eq_refl H1) as (Hq1 & _ & Hk1).
  destruct (remove_hook_spec _ _ _ Hn eq_refl H2) as (_ & He2 & Hk2).
  destruct (get (Some v2) "hooks") as [hooks|] eqn:Hh; [|done].
  cbn [mbind result_bind] in H.
  assert (forall k, k <> "hooks" -> prop (Some v2) k = prop (Some v) k) as Hk.
  { intros k Hk. rewrite Hk2 by done. by apply Hk1. }
  destruct (truthy hooks && (length (own_entries hooks) =? 0)%nat).
  - assert (v' = v2 \/ exists o, v2 = VObj o /\ v' = VObj (obj_del o "hooks"))
      as [->|(o & -> & ->)].
    { destruct v2; try done; injection H as <-; (by left) || (right; by eexists). }
    + split; [|done]. rewrite (He2 "Stop") by done. exact Hq1.
    + rewrite !prop_obj, lookup_obj_del_eq. split; [done|].
      intros k Hk'. rewrite !prop_obj, lookup_obj_del_ne by done.
      rewrite <- prop_obj. by apply Hk.
  - injection H as <-. split; [|done]. rewrite (He2 "Stop") by done. exact Hq1.
Qed.


Lemma some_app_false (test : value -> result bool) (l l' : list value) :
  some test l = Ok false -> some test (l ++ l') = some test l'.
Proof.
  induction l as [|x l IH]; [done|]. simpl.
  destruct (test x) as [[]|]; simpl; [done|exact IH|done].
Qed.

Lemma add_hook_present (h : props) (event command : string) :
  has_hook h event command -> add_hook (VObj h) event command = Ok (VObj h).
Proof.
  intros (items & Hl & Hsome). unfold add_hook. simpl. rewrite Hl. simpl.
  by rewrite Hsome.
Qed.

Lemma add_hook_obj (h : props) (event command : string) (hooks' : value) :
  has_command command (hook_group command) = Ok true ->
  add_hook (VObj h) event command = Ok hooks' ->
  exists h',
    hooks' = VObj h' /\ has_hook h' event command /\
    forall k, k <> event -> lookup_prop k h' = lookup_prop k h.
Proof.
  intros Hcmd. unfold add_hook. simpl.
  destruct (when_truthy (lookup_prop event h)) as [l|] eqn:Hw; simpl.
  - apply when_truthy_Some in Hw as [Hl _].
    destruct l as [| | | |items|]; try done. simpl.
    destruct (some (has_command command) items) as [[]|] eqn:Hsome; try done;
      simpl; intros [= <-].
    + exists h. split; [done|]. split; [by exists items|done].
    + eexists. split; [done|]. split.
      * exists (items ++ [hook_group command]). split.
        -- by rewrite lookup_replace_prop_eq, Hl.
        -- rewrite (some_app_false _ _ _ Hsome). simpl. by rewrite Hcmd.
      * intros k Hk. by apply lookup_replace_prop_ne.
  - intros [= <-]. eexists. split; [done|]. split.
    + exists [hook_group command]. split.
      * by rewrite lookup_replace_prop_eq, lookup_obj_set_eq.
      * simpl. by rewrite Hcmd.
    + intros k Hk. rewrite lookup_replace_prop_ne by done.
      by apply lookup_obj_set_ne.
Qed.

Lemma add_hook_array (l : list value) (event command : string) :
  event <> "length" -> array_index event = None ->
  add_hook (VArr l) event command = Ok (VArr l).
Proof.
  intros Hlen Hidx. unfold add_hook. simpl.
  destruct (decide (event = "length")); [done|]. by rewrite Hidx.
Qed.

Lemma with_hooks_main (o h : props) (v1 : value) :
  is_Some (lookup_prop "hooks" o) ->
  (hooks2 ← add_hook (VObj h) "Stop" "cc notify-hook stop";
   hooks3 ← add_hook hooks2 "Notification" "cc notify-hook notification";
   Ok (updated (VObj o) "hooks" hooks3)) = Ok v1 ->
  with_hooks v1 = Ok v1 /\
  forall k, k <> "hooks" -> prop (Some v1) k = lookup_prop k o.
Proof.
  intros [x Hx] H.
  destruct (add_hook (VObj h) "Stop" "cc notify-hook stop") as [hooks2|] eqn:H2;
    [|done].
  cbn [mbind result_bind] in H.
  assert (has_command "cc notify-hook stop" (hook_group "cc notify-hook stop")
          = Ok true) as Hc1 by (vm_compute; reflexivity).
  assert (has_command "cc notify-hook notification"
            (hook_group "cc notify-hook notification") = Ok true) as Hc2
    by (vm_compute; reflexivity).
  destruct (add_hook_obj _ _ _ _ Hc1 H2) as (h2 & -> & Hstop & _).
  destruct (add_hook (VObj h2) "Notification" "cc notify-hook notification")
    as [hooks3|] eqn:H3; [|done].
  cbn [mbind result_bind] in H.
  destruct (add_hook_obj _ _ _ _ Hc2 H3) as (h3 & -> & Hnotif & Hkeys).
  simpl in H. injection H as <-.
  assert (has_hook h3 "Stop" "cc notify-hook stop") as Hstop3.
  { destruct Hstop as (items & Hl & Hsome). exists items.
    by rewrite Hkeys. }
  split.
  - unfold with_hooks. simpl. rewrite lookup_replace_prop_eq, Hx. simpl.
    rewrite (add_hook_present _ _ _ Hstop3). simpl.
    rewrite (add_hook_present _ _ _ Hnotif). simpl.
    by rewrite replace_prop_idem.
  - intros k Hk. rewrite prop_obj. by apply lookup_replace_prop_ne.
Qed.

Lemma with_hooks_spec (v v1 : value) :
  with_hooks v = Ok v1 ->
  with_hooks v1 = Ok v1 /\
  forall k, k <> "hooks" -> prop (Some v1) k = prop (Some v) k.
Proof.
  intros H. pose proof H as H0. unfold with_hooks in H.
  destruct v as [|b|n|s|l|o]; try done.
  - simpl in H. injection H as <-. by split.
  - simpl in H.
    destruct (when_truthy (lookup_prop "hooks" o)) as [hs|] eqn:Hw.
    + apply when_truthy_Some in Hw as [Hl Ht]. simpl in H.
      destruct hs as [|b|n|s|l|h]; try done.
      * rewrite !add_hook_array in H by done. simpl in H. injection H as <-.
        rewrite (replace_prop_same _ _ _ Hl) in H0 |- *. by split.
      * destruct (with_hooks_main o h v1) as [Hidem Hkeys]; [by rewrite Hl|done|].
        by split.
    + simpl in H.
      destruct (with_hooks_main (obj_set o "hooks" (VObj [])) [] v1)
        as [Hidem Hkeys]; [by rewrite lookup_obj_set_eq|done|].
      split; [done|]. intros k Hk. rewrite Hkeys by done.
      by apply lookup_obj_set_ne.
Qed.


Lemma checkNotificationStatus_no_content (w : world) :
  (forall v, settings (disk w) <> Content v) ->
  checkNotificationStatus w = (Ok false, w).
Proof.
  intros H. unfold checkNotificationStatus, try_catch, mbind, io_bind,
    pathExists, readJson. simpl.
  destruct (settings (disk w)) as [|m|m|v] eqn:Hs; simpl; rewrite ?Hs; try done.
  by destruct (H v).
Qed.

Lemma status_of_stop (v : value) :
  status_of v = Ok true ->
  call_some_opt (prop (prop (Some v) "hooks") "Stop") is_notify_group = Ok true.
Proof.
  unfold status_of. intros H.
  destruct (get (Some v) "hooks") as [hooks|] eqn:Hh; [|done].
  cbn [mbind result_bind] in H. apply get_Ok_prop in Hh as ->.
  destruct (get_opt _ "Stop") as [stop|] eqn:Hs; [|done].
  cbn [mbind result_bind] in H. apply get_opt_Ok_prop in Hs as ->.
  destruct (call_some_opt _ is_notify_group) as [[]|]; try done.
  cbn [mbind result_bind] in H.
  destruct (get_opt _ "Notification") as [n|]; [|done].
  cbn [mbind result_bind] in H.
  by destruct (call_some_opt n is_notify_group) as [[]|].
Qed.

Lemma removeNotificationHooks_Ok (w w' : world) :
  removeNotificationHooks w = (Ok tt, w') ->
  (settings (disk w) = Absent /\ w' = w) \/
  exists v v',
    settings (disk w) = Content v /\ without_hooks v = Ok v' /\
    w' = World (put_file SettingsPath (Content v') (disk w)) (mem w) (clock w).
Proof.
  unfold removeNotificationHooks, mbind, io_bind, pathExists, readJson, lift.
  simpl.
  destruct (settings (disk w)) as [|m|m|v] eqn:Hs; simpl; rewrite ?Hs; try done.
  - intros [= <-]. by left.
  - destruct (without_hooks v) as [v'|] eqn:Hv; [|done].
    intros H. apply writeJson_Ok in H as [_ ->]. right. by exists v, v'.
Qed.

Lemma addNotificationHooks_Ok (w w' : world) :
  addNotificationHooks w = (Ok tt, w') ->
  exists v',
    with_hooks (document (settings (disk w))) = Ok v' /\
    write_error (disk w) = None /\
    w' = World (put_file SettingsPath (Content v') (disk w)) (mem w) (clock w).
Proof.
  unfold addNotificationHooks, mbind, io_bind, pathExists, readJson, lift.
  simpl.
  destruct (settings (disk w)) as [|m|m|v] eqn:Hs; simpl; rewrite ?Hs; try done.
  - intros H. apply writeJson_Ok in H as [? ->]. eexists.
    split; [reflexivity|]. by split.
  - destruct (with_hooks v) as [v'|] eqn:Hv; [|done].
    intros H. apply writeJson_Ok in H as [? ->]. exists v'.
    repeat split; assumption || reflexivity.
Qed.

Lemma removed_is_off (w w' : world) :
  removeNotificationHooks w = (Ok tt, w') ->
  checkNotificationStatus w' = (Ok false, w').
Proof.
  intros H. apply removeNotificationHooks_Ok in H
    as [[Hs ->]|(v & v' & Hs & Hv & ->)].
  - apply checkNotificationStatus_no_content. intros v. by rewrite Hs.
  - rewrite (checkNotificationStatus_content _ v') by done. do 2 f_equal.
    destruct (status_of v') as [[]|] eqn:Hst; try done.
    apply status_of_stop in Hst. by destruct (without_hooks_spec _ _ Hv) as [Hq _].
Qed.

(** X14.  [checkNotificationStatus] never raises and changes none of the
    documents; it reports [false] when the settings file is absent,
    unreadable or malformed, and when the check of the parsed settings
    throws. *)
Theorem checkNotificationStatus_never_raises (w : world) :
  (exists b, checkNotificationStatus w = (Ok b, w)) /\
  ((forall v, settings (disk w) <> Content v) ->
   checkNotificationStatus w = (Ok false, w)) /\
  (forall v e, settings (disk w) = Content v -> status_of v = Err e ->
     checkNotificationStatus w = (Ok false, w)).
Proof.
  split; [|split].
  - destruct (settings (disk w)) as [|m|m|v] eqn:Hs.
    4: { rewrite (checkNotificationStatus_content _ v) by done. by eexists. }
    all: exists false; apply checkNotificationStatus_no_content;
      intros v; by rewrite Hs.
  - apply checkNotificationStatus_no_content.
  - intros v e Hs He. rewrite (checkNotificationStatus_content _ v) by done.
    by rewrite He.
Qed.

Lemma checkNotificationStatus_never_raises_witness :
  (forall v, settings (disk absent_world) <> Content v) /\
  checkNotificationStatus absent_world = (Ok false, absent_world).
Proof.
  assert (forall v, settings (disk absent_world) <> Content v) as Hnone
    by (intros v; discriminate).
  split; [exact Hnone|].
  exact (proj1 (proj2 (checkNotificationStatus_never_raises absent_world)) Hnone).
Defined.

(** X15.  Switching the notifications off always works: after a successful
    [removeNotificationHooks], whatever the settings were,
    [checkNotificationStatus] reports [false]; and a successful
    [toggleNotificationMode] from a state that it reports as on returns
    [false] and leaves a state that it reports as off. *)
Theorem notifications_turn_off (w w' : world) :
  (removeNotificationHooks w = (Ok tt, w') ->
   checkNotificationStatus w' = (Ok false, w')) /\
  (forall b,
     checkNotificationStatus w = (Ok true, w) ->
     toggleNotificationMode w = (Ok b, w') ->
     b = false /\ checkNotificationStatus w' = (Ok false, w')).
Proof.
  split; [apply removed_is_off|].
  intros b Hon Htoggle. unfold toggleNotificationMode in Htoggle.
  apply bind_Ok in Htoggle as (status & w0 & Hst & H).
  rewrite Hon in Hst. injection Hst as <- <-.
  apply bind_Ok in H as ([] & w0 & Hdir & H).
  assert (w0 = w) as ->.
  { unfold ensureDir in Hdir. destruct (dir_error (disk w)); [done|].
    by injection Hdir as <-. }
  apply bind_Ok in H as ([] & w1 & Hrem & H). injection H as <- <-.
  split; [done|]. exact (removed_is_off _ _ Hrem).
Qed.

Lemma notifications_turn_off_witness :
  removeNotificationHooks notified_world = (Ok tt, plain_world) /\
  checkNotificationStatus plain_world = (Ok false, plain_world).
Proof.
  assert (removeNotificationHooks notified_world = (Ok tt, plain_world)) as Hrun
    by by_computation.
  split; [exact Hrun|].
  exact (proj1 (notifications_turn_off notified_world plain_world) Hrun).
Defined.

(** X16.  [addNotificationHooks] is idempotent: a second call after a
    successful one writes the same settings again, so that no hook group is
    added twice. *)
Theorem addNotificationHooks_idempotent (w w1 : world) :
  addNotificationHooks w = (Ok tt, w1) ->
  addNotificationHooks w1 = (Ok tt, w1).
Proof.
  intros H. apply addNotificationHooks_Ok in H as (v' & Hv & Hw & ->).
  destruct (with_hooks_spec _ _ Hv) as [Hidem _].
  rewrite (addNotificationHooks_content _ v' v'); [|done..].
  destruct w as [[d1 d2 s1 s2 s3] h c]. reflexivity.
Qed.

Lemma notified_world_run :
  addNotificationHooks plain_world = (Ok tt, notified_world).
Proof. by_computation. Defined.

Lemma addNotificationHooks_idempotent_witness :
  addNotificationHooks plain_world = (Ok tt, notified_world) /\
  addNotificationHooks notified_world = (Ok tt, notified_world).
Proof.
  split; [exact notified_world_run|].
  exact (addNotificationHooks_idempotent plain_world notified_world
           notified_world_run).
Defined.

(** X17.  [addNotificationHooks] and [removeNotificationHooks] touch
    nothing but [hooks]: after a successful call every other key of the
    settings document has the value it had. *)
Theorem notification_hooks_keep_other_settings (w w' : world) (k : string) :
  k <> "hooks" ->
  (addNotificationHooks w = (Ok tt, w') ->
   prop (Some (document (settings (disk w')))) k
   = prop (Some (document (settings (disk w)))) k) /\
  (removeNotificationHooks w = (Ok tt, w') ->
   prop (Some (document (settings (disk w')))) k
   = prop (Some (document (settings (disk w)))) k).
Proof.
  intros Hk. split; intros H.
  - apply addNotificationHooks_Ok in H as (v' & Hv & _ & ->).
    destruct (with_hooks_spec _ _ Hv) as [_ Hkeys]. simpl. by apply Hkeys.
  - apply removeNotificationHooks_Ok in H
      as [[Hs ->]|(v & v' & Hs & Hv & ->)]; [done|].
    destruct (without_hooks_spec _ _ Hv) as [_ Hkeys]. simpl. rewrite Hs. simpl.
    by apply Hkeys.
Qed.

Lemma notification_hooks_keep_other_settings_witness :
  "theme" <> "hooks" /\
  addNotificationHooks plain_world = (Ok tt, notified_world) /\
  prop (Some (document (settings (disk notified_world)))) "theme"
  = prop (Some (document (settings (disk plain_world)))) "theme".
Proof.
  assert ("theme" <> "hooks") as Hk by discriminate.
  split; [exact Hk|]. split; [exact notified_world_run|].
  exact (proj1 (notification_hooks_keep_other_settings plain_world
                  notified_world "theme" Hk) notified_world_run).
Defined.


Lemma some_false_all (test : value -> result bool) (l : list value) :
  some test l = Ok false -> Forall (fun x => test x = Ok false) l.
Proof.
  induction l as [|x l IH]; [constructor|]. simpl.
  destruct (test x) as [[]|] eqn:Hx; try done. simpl. intros H.
  constructor; [done|by apply IH].
Qed.

Lemma some_total (test : value -> result bool) (l : list value) :
  Forall (fun x => exists b, test x = Ok b) l -> exists b, some test l = Ok b.
Proof.
  induction 1 as [|x l [b Hx] _ [b' IH]]; [by exists false|].
  simpl. rewrite Hx. simpl. destruct b; [by exists true|by exists b'].
Qed.

Lemma some_snoc_true (test : value -> result bool) (l : list value) (g : value) :
  Forall (fun x => exists b, test x = Ok b) l -> test g = Ok true ->
  some test (l ++ [g]) = Ok true.
Proof.
  intros Hl Hg. induction Hl as [|x l [b Hx] _ IH]; simpl.
  - by rewrite Hg.
  - rewrite Hx. simpl. by destruct b.
Qed.

(** An entry on which the test of [addNotificationHooks] gives [false] is
    one that the test of [checkNotificationStatus] can read. *)
Lemma has_command_readable (marker : string) (x : value) :
  has_command marker x = Ok false -> exists b, is_notify_group x = Ok b.
Proof.
  unfold has_command, is_notify_group.
  destruct (get (Some x) "hooks") as [hooks|]; [|done].
  cbn [mbind result_bind]. unfold call_some_opt.
  destruct (nullish hooks); [by exists false|].
  destruct hooks as [[| | | |entries|]|]; try done. simpl. intros H.
  apply some_total. apply some_false_all in H.
  eapply Forall_impl; [exact H|]. intros h Hh. simpl in Hh.
  unfold is_notify_command.
  destruct h as [|b|n|s|l|e]; simpl in Hh |- *; try done; try by eexists.
  destruct (lookup_prop "type" e) as [[| | |t| |]|]; try by eexists.
  destruct (decide (t = "command")); [|by eexists]. simpl.
  destruct (lookup_prop "command" e) as [[| | |c| |]|]; try done; by eexists.
Qed.

Lemma add_hook_pushes (h : props) (event command : string) (hooks' : value) :
  is_notify_group (hook_group command) = Ok true ->
  call_some_opt (lookup_prop event h) (has_command command) <> Ok true ->
  add_hook (VObj h) event command = Ok hooks' ->
  exists h',
    hooks' = VObj h' /\ notifier_on h' event /\
    forall k, k <> event -> lookup_prop k h' = lookup_prop k h.
Proof.
  intros Hgroup Hnone. unfold add_hook. simpl.
  destruct (when_truthy (lookup_prop event h)) as [l|] eqn:Hw; simpl.
  - apply when_truthy_Some in Hw as [Hl _]. rewrite Hl in Hnone.
    destruct l as [| | | |items|]; try done. simpl in *.
    destruct (some (has_command command) items) as [[]|] eqn:Hsome; try done;
      simpl; intros [= <-].
    eexists. split; [done|]. split.
    + exists (items ++ [hook_group command]). split.
      * by rewrite lookup_replace_prop_eq, Hl.
      * apply some_snoc_true; [|done]. apply some_false_all in Hsome.
        eapply Forall_impl; [exact Hsome|]. intros x.
        apply has_command_readable.
    + intros k Hk. by apply lookup_replace_prop_ne.
  - intros [= <-]. eexists. split; [done|]. split.
    + exists [hook_group command]. split.
      * by rewrite lookup_replace_prop_eq, lookup_obj_set_eq.
      * simpl. by rewrite Hgroup.
    + intros k Hk. rewrite lookup_replace_prop_ne by done.
      by apply lookup_obj_set_ne.
Qed.

Lemma status_of_on (o h : props) :
  is_Some (lookup_prop "hooks" o) ->
  notifier_on h "Stop" -> notifier_on h "Notification" ->
  status_of (VObj (replace_prop "hooks" (VObj h) o)) = Ok true.
Proof.
  intros [x Hx] (l1 & Hl1 & Hs1) (l2 & Hl2 & Hs2).
  unfold status_of. cbn [get]. rewrite lookup_replace_prop_eq, Hx.
  cbn [mbind result_bind]. unfold get_opt. cbn [nullish get]. rewrite Hl1, Hl2.
  cbn [mbind result_bind]. unfold call_some_opt. cbn [nullish call_some].
  rewrite Hs1. cbn [mbind result_bind]. by rewrite Hs2.
Qed.

Lemma with_hooks_on (o h : props) (v1 : value) :
  is_Some (lookup_prop "hooks" o) ->
  call_some_opt (lookup_prop "Stop" h) (has_command "cc notify-hook stop")
  <> Ok true ->
  call_some_opt (lookup_prop "Notification" h)
    (has_command "cc notify-hook notification") <> Ok true ->
  (hooks2 ← add_hook (VObj h) "Stop" "cc notify-hook stop";
   hooks3 ← add_hook hooks2 "Notification" "cc notify-hook notification";
   Ok (updated (VObj o) "hooks" hooks3)) = Ok v1 ->
  status_of v1 = Ok true.
Proof.
  intros Hx Hstop Hnotif H.
  destruct (add_hook (VObj h) "Stop" "cc notify-hook stop") as [hooks2|] eqn:H2;
    [|done].
  cbn [mbind result_bind] in H.
  assert (is_notify_group (hook_group "cc notify-hook stop") = Ok true) as Hg1
    by (vm_compute; reflexivity).
  assert (is_notify_group (hook_group "cc notify-hook notification") = Ok true)
    as Hg2 by (vm_compute; reflexivity).
  destruct (add_hook_pushes _ _ _ _ Hg1 Hstop H2) as (h2 & -> & Hon1 & Hk1).
  destruct (add_hook (VObj h2) "Notification" "cc notify-hook notification")
    as [hooks3|] eqn:H3; [|done].
  cbn [mbind result_bind] in H.
  rewrite <- (Hk1 "Notification") in Hnotif by done.
  destruct (add_hook_pushes _ _ _ _ Hg2 Hnotif H3) as (h3 & -> & Hon2 & Hk2).
  simpl in H. injection H as <-.
  apply status_of_on; [done| |done].
  destruct Hon1 as (items & Hl & Hsome). exists items. by rewrite Hk2.
Qed.

(** X24.  Switching the notifications on works when the notifier is not
    there yet.  For a settings object whose [hooks] is an object, or is
    missing or falsy, and in whose two lists the test of
    [addNotificationHooks] finds no entry with its command: after a
    successful [addNotificationHooks], [checkNotificationStatus] reports
    [true]. *)
Theorem addNotificationHooks_turns_on (w w' : world) (o : props) :
  document (settings (disk w)) = VObj o ->
  truthy (lookup_prop "hooks" o) = false \/
  (exists h, lookup_prop "hooks" o = Some (VObj h)) ->
  call_some_opt (prop (lookup_prop "hooks" o) "Stop")
    (has_command "cc notify-hook stop") <> Ok true ->
  call_some_opt (prop (lookup_prop "hooks" o) "Notification")
    (has_command "cc notify-hook notification") <> Ok true ->
  addNotificationHooks w = (Ok tt, w') ->
  checkNotificationStatus w' = (Ok true, w').
Proof.
  intros Hdoc Hhooks Hstop Hnotif Hrun.
  apply addNotificationHooks_Ok in Hrun as (v' & Hv & _ & ->).
  rewrite (checkNotificationStatus_content _ v') by done. do 2 f_equal.
  rewrite Hdoc in Hv. unfold with_hooks in Hv. simpl in Hv.
  destruct Hhooks as [Hfalsy|[h Hh]].
  - apply when_truthy_None_iff in Hfalsy. rewrite Hfalsy in Hv. simpl in Hv.
    by rewrite (with_hooks_on (obj_set o "hooks" (VObj [])) [] v');
      [|by rewrite lookup_obj_set_eq|..].
  - rewrite Hh in Hv, Hstop, Hnotif. rewrite prop_obj in Hstop, Hnotif.
    simpl in Hv.
    by rewrite (with_hooks_on o h v'); [|by rewrite Hh|..].
Qed.

Lemma addNotificationHooks_turns_on_witness :
  document (settings (disk plain_world)) = VObj plain_settings /\
  truthy (lookup_prop "hooks" plain_settings) = false /\
  addNotificationHooks plain_world = (Ok tt, notified_world) /\
  checkNotificationStatus notified_world = (Ok true, notified_world).
Proof.
  split; [reflexivity|]. split; [reflexivity|]. split; [exact notified_world_run|].
  apply (addNotificationHooks_turns_on plain_world notified_world plain_settings
           eq_refl (or_introl eq_refl)); [discriminate|discriminate|].
  exact notified_world_run.
Defined.

(** *** The status lines of the banner *)

Lemma reload_alias (withCurrent normalized : value) :
  normalizeConfig withCurrent = Ok normalized ->
  exists all',
    alias_sites normalized = Ok all' /\
    forall k, k <> "sites" -> prop (Some all') k = prop (Some withCurrent) k.
Proof.
  intros Hnorm. destruct (alias_after_normalize _ _ Hnorm) as [all' Halias].
  exists all'. split; [done|].
  intros k Hk. rewrite alias_sites_pass in Halias.
  rewrite (sites_pass_other_key _ _ _ _ Halias Hk).
  rewrite normalizeConfig_pass in Hnorm.
  by rewrite (sites_pass_other_key _ _ _ _ Hnorm Hk).
Qed.


Section Banner.
Variables gray cyan magenta : value -> string.



(** X19.  After a successful [switchConfig] the status lines of the banner
    name the site and the token.  For a store object without a Codex
    snapshot they are the divider and one line, made of the site key and of
    the label of the token, or of the default label when the token had none
    (or an empty one). *)
Theorem banner_after_switch (site token : string) (sc : hjsval)
    (w w' : world) (snap : record) (o : props) :
  store (disk w) = Content (VObj o) ->
  truthy (lookup_prop "currentCodexConfig" o) = false ->
  switchConfig site token sc w = (Ok snap, w') ->
  exists name,
    field snap "tokenName" = HStr <$> name /\
    getCurrentStatusBrief gray cyan magenta w' =
    (Ok (Some (String.concat newline
                 [dividerLine gray;
                  "🤖 Claude: " +:+ cyan (or_text (Some (VStr site)) "未知站点")
                  +:+ "-" +:+ gray (or_text (VStr <$> name) "默认Token")])),
     w').
Proof.
  intros Hstore Hcodex Hrun.
  destruct (switchConfig_Ok _ _ _ _ _ _ Hrun)
    as (cc & env & raw & name & base & w1 & cleared & h1 & cm & cj
        & _ & _ & _ & _ & _ & -> & Hsave & _ & _ & _ & ->).
  exists name. split; [done|].
  destruct (saveCurrentConfig_Ok _ _ _ Hsave)
    as (all & saved & withCurrent & normalized & Hall & Hser & Hset & Hnorm & ->).
  destruct (getAllConfigs_Ok _ _ _ Hall) as (_ & Hd & v & Hv & Halias).
  rewrite Hstore in Hv. injection Hv as <-.
  destruct (sites_pass_obj _ _ _ Halias) as [a ->].
  destruct (reload_alias _ _ Hnorm) as (all' & Hreload & Hkeys).
  set (w' := World _ _ _).
  assert (getAllConfigs w' = (Ok all', w')) as Hload
    by by apply (getAllConfigs_content _ normalized).
  assert (saved = [("site", VStr site); ("siteName", VStr site);
                   ("token", VStr token)]
                  ++ match name with
                     | Some n => [("tokenName", VStr n)]
                     | None => []
                     end ++ [("updatedAt", VStr (clock w))]) as Hsaved.
  { unfold field in Hser. simpl in Hser. rewrite !reify_str in Hser.
    simpl in Hser. destruct name as [n|]; simpl in Hser;
      rewrite ?reify_str in Hser; simpl in Hser; by injection Hser as <-. }
  unfold getCurrentStatusBrief, try_catch, mbind, io_bind, lift.
  rewrite getCurrentConfig_eq, getCurrentCodexConfig_eq, Hload. cbn [fst].
  rewrite !Hkeys by done.
  rewrite (set_other_key _ _ "currentCodexConfig" _ _ Hset) by done.
  rewrite alias_sites_pass in Halias.
  rewrite (sites_pass_other_key _ _ _ _ Halias) by done. rewrite prop_obj.
  injection Hset as <-. rewrite set_same_key.
  assert (or_null (lookup_prop "currentCodexConfig" o) = VNull) as ->.
  { unfold or_null, when_truthy. by rewrite Hcodex. }
  rewrite or_null_truthy by done.
  unfold status_brief. cbn [truthy negb andb get]. rewrite Hsaved.
  destruct name as [n|]; reflexivity.
Qed.

End Banner.

Lemma banner_after_switch_witness :
  store (disk switch_world) = Content (VObj [("sites", VObj legacy_sites)]) /\
  switchConfig "x" "sk-def" (Some (HRef 1%positive)) switch_world
  = (Ok backup_snapshot, switched.2) /\
  exists name,
    field backup_snapshot "tokenName" = HStr <$> name /\
    getCurrentStatusBrief no_colour no_colour no_colour switched.2 =
    (Ok (Some (String.concat newline
                 [dividerLine no_colour;
                  "🤖 Claude: " +:+ no_colour (or_text (Some (VStr "x")) "未知站点")
                  +:+ "-" +:+ no_colour (or_text (VStr <$> name) "默认Token")])),
     switched.2).
Proof.
  split; [reflexivity|]. split; [exact switched_run|].
  exact (banner_after_switch no_colour no_colour no_colour "x" "sk-def"
           (Some (HRef 1%positive)) switch_world switched.2 backup_snapshot
           [("sites", VObj legacy_sites)] eq_refl eq_refl switched_run).
Defined.

End Behaviour.

(** ** Properties of the approval hook *)

Module HookBehaviour.
Import JS YoloHook Spec Shape Examples Facts.

Section Yolo.
Variable parse : list string -> result value.

Lemma approve_printed (reason : string) (st : state) :
  printed (approve reason st) = printed st ++ [response reason].
Proof. done. Qed.

Lemma step_printed (ev : event) (st : state) :
  exists more,
    printed (step parse ev st) = printed st ++ more /\ Forall is_approval more /\
    (length more <= 1)%nat.
Proof.
  assert (forall st', printed st' = printed st ->
            exists more, printed st' = printed st ++ more /\
              Forall is_approval more /\ (length more <= 1)%nat) as Hnone.
  { intros st' ->. exists []. rewrite app_nil_r. split; [done|].
    split; [constructor|simpl; lia]. }
  assert (forall reason st', printed st' = printed st ++ [response reason] ->
            exists more, printed st' = printed st ++ more /\
              Forall is_approval more /\ (length more <= 1)%nat) as Hone.
  { intros reason st' ->. exists [response reason].
    split; [done|]. split; [by repeat constructor|simpl; lia]. }
  unfold step. destruct (exited st) eqn:He; [by apply Hnone|].
  destruct ev as [c| | |].
  - by apply Hnone.
  - unfold on_end.
    destruct (hookData ← parse (chunks st); get (Some hookData) "tool_name")
      as [toolName|e].
    + destruct (is_exit_plan toolName); simpl; [by apply Hnone|].
      rewrite He. by eapply Hone.
    + simpl. rewrite He. by eapply Hone.
  - by eapply Hone.
  - destruct (timer st); [by eapply Hone|by apply Hnone].
Qed.

Lemma run_printed (evs : list event) (st : state) :
  exists more,
    printed (run parse evs st) = printed st ++ more /\ Forall is_approval more /\
    (length more <= length evs)%nat.
Proof.
  revert st. induction evs as [|ev evs IH]; intros st.
  - exists []. by rewrite app_nil_r.
  - simpl. destruct (step_printed ev st) as (m1 & H1 & Ha1 & Hl1).
    destruct (IH (step parse ev st)) as (m2 & H2 & Ha2 & Hl2).
    exists (m1 ++ m2). rewrite H2, H1, app_assoc. split; [done|].
    split; [by apply Forall_app|]. rewrite length_app. lia.
Qed.

(** X20.  The hook never objects: whatever happens to its input, and in
    whatever order, every document it writes is an approval, and it writes
    at most one for each event. *)
Theorem yolo_only_approves (evs : list event) :
  Forall is_approval (printed (run parse evs initial)) /\
  (length (printed (run parse evs initial)) <= length evs)%nat.
Proof.
  destruct (run_printed evs initial) as (more & H & Ha & Hl).
  rewrite H. by split.
Qed.

Lemma run_data (cs : list string) (st : state) :
  exited st = false ->
  run parse (Data <$> cs) st =
  State (chunks st ++ cs) (timer st) (printed st) (resolved st) (exited st).
Proof.
  revert st. induction cs as [|c cs IH]; intros st Hst.
  - simpl. rewrite app_nil_r. by destruct st.
  - assert (step parse (Data c) st =
            State (chunks st ++ [c]) (timer st) (printed st) (resolved st)
                  (exited st)) as Hstep by (unfold step; by rewrite Hst).
    simpl. rewrite Hstep, IH by done. simpl. by rewrite <- app_assoc.
Qed.

Lemma run_app (evs1 evs2 : list event) (st : state) :
  run parse (evs1 ++ evs2) st = run parse evs2 (run parse evs1 st).
Proof. apply foldl_app. Qed.

Lemma run_quiet (evs : list event) (st : state) :
  timer st = false \/ exited st = true ->
  Forall (fun ev => ev = Timeout \/ exists c, ev = Data c) evs ->
  printed (run parse evs st) = printed st.
Proof.
  intros Hst Hevs. revert st Hst.
  induction Hevs as [|ev evs Hev _ IH]; intros st Hst; [done|].
  simpl. rewrite IH.
  - unfold step. destruct (exited st); [done|].
    destruct Hst as [Ht|?]; [|done].
    destruct Hev as [->|[c ->]]; [by rewrite Ht|done].
  - unfold step. destruct (exited st) eqn:He; [by right|].
    destruct Hst as [Ht|?]; [|done]. left.
    destruct Hev as [->|[c ->]]; [by rewrite Ht|done].
Qed.

#[local] Opaque get.

Lemma run_end (cs : list string) :
  run parse ((Data <$> cs) ++ [End]) initial =
  match hookData ← parse cs; get (Some hookData) "tool_name" with
  | Ok toolName =>
    if is_exit_plan toolName then State cs true [] false true
    else State cs false
           [response "YOLO mode: All tools approved automatically - no restrictions"]
           true false
  | Err _ =>
    State cs false
      [response "YOLO mode: Approved despite parsing error - no restrictions"]
      true false
  end.
Proof.
  rewrite run_app, run_data by done. simpl. unfold step, on_end. simpl.
  destruct (hookData ← parse cs; get (Some hookData) "tool_name") as [toolName|e];
    [|done].
  by destruct (is_exit_plan toolName).
Qed.

#[local] Transparent get.

(** X21.  When the input ends before the timer fires and without an
    error, the hook stays silent exactly when the input parses to a document
    whose [tool_name] is [ExitPlanMode], and then it exits; otherwise it
    writes one approval (also when the input is not valid JSON or is
    [null]) and clears the timer, so that no timeout is written later. *)
Theorem yolo_end_of_input (cs : list string) :
  let st := run parse ((Data <$> cs) ++ [End]) initial in
  (exited st = true <->
   exists hookData,
     parse cs = Ok hookData /\
     prop (Some hookData) "tool_name" = Some (VStr "ExitPlanMode")) /\
  (exited st = true -> printed st = []) /\
  (exited st = false ->
   exists reason, printed st = [response reason] /\ timer st = false) /\
  (forall evs, Forall (fun ev => ev = Timeout \/ exists c, ev = Data c) evs ->
     printed (run parse evs st) = printed st).
Proof.
  cbv zeta. rewrite run_end.
  destruct (parse cs) as [hookData|e] eqn:Hp; cbn [mbind result_bind].
  2: { split; [split; [done|by intros (? & ? & _)]|]. split; [done|].
       split; [by eexists|]. intros evs. apply run_quiet. by left. }
  destruct (get (Some hookData) "tool_name") as [toolName|e] eqn:Hg.
  2: { split; [split; [done|]|].
       - intros (h & [= <-] & Hn). unfold prop in Hn. by rewrite Hg in Hn.
       - split; [done|]. split; [by eexists|]. intros evs. apply run_quiet.
         by left. }
  apply get_Ok_prop in Hg as ->.
  destruct (is_exit_plan (prop (Some hookData) "tool_name")) eqn:Hx.
  - split; [split; [intros _|done]|].
    + exists hookData. split; [done|].
      destruct (prop (Some hookData) "tool_name") as [[| | |s| |]|]; try done.
      simpl in Hx. by apply bool_decide_eq_true in Hx as ->.
    + split; [done|]. split; [done|]. intros evs. apply run_quiet. by right.
  - split; [split; [done|]|].
    + intros (h & [= <-] & Hn). by rewrite Hn in Hx.
    + split; [done|]. split; [by eexists|]. intros evs. apply run_quiet.
      by left.
Qed.

(** X22.  When the timer fires before the input has ended, the first
    document written is the approval for the timeout, whatever input has
    arrived and whatever arrives later; the tool [ExitPlanMode] is no
    exception. *)
Theorem yolo_timeout_approves_unread (cs : list string) (evs : list event) :
  exists rest,
    printed (run parse ((Data <$> cs) ++ Timeout :: evs) initial) =
    response "YOLO mode: Approved due to timeout - no restrictions" :: rest.
Proof.
  rewrite run_app, run_data by done. simpl.
  destruct (run_printed evs
              (step parse Timeout (State cs true [] false false)))
    as (more & H & _). rewrite H. by eexists.
Qed.

End Yolo.

Lemma yolo_end_of_input_witness :
  exited (run parse_exit_plan ((Data <$> ["{}"]) ++ [End]) initial) = true /\
  printed (run parse_exit_plan ((Data <$> ["{}"]) ++ [End]) initial) = [].
Proof.
  destruct (yolo_end_of_input parse_exit_plan ["{}"]) as (Hexit & Hsilent & _).
  assert (exited (run parse_exit_plan ((Data <$> ["{}"]) ++ [End]) initial)
          = true) as He.
  { apply (proj2 Hexit). eexists. split; reflexivity. }
  split; [exact He|exact (Hsilent He)].
Defined.

End HookBehaviour.
